(** * chatgpt-data-viewer: the conversation service of [backend/main.py]

    A shallow embedding of [ConversationService] (ingest, statistics,
    contribution calendar, per-day listing, message linearisation) and the
    properties of it that the specification states.

    Conventions of the embedding
    - Parsed JSON is the inductive [json]; a Python [dict] is an
      insertion-ordered association list.
    - A Python exception is the [Raise] branch of [result]; the three
      classes that the source catches together at its [except] clause
      ([OSError], [OverflowError], [ValueError]) are the single [RangeError].
    - JSON numbers are exact: an [int] is a [Z], a finite [float] is read
      as the rational it denotes; [NaN] and the infinities, which
      [json.load] accepts, are values of their own.
    - Response objects are records.  Where the source builds a response
      model whose declared field types the data may not have, the
      validation is a step of the embedding ([validated]). *)

From Stdlib Require Import ZArith QArith Qround Qabs List String Ascii Bool.
From Stdlib Require Import Lia Lqa.
From Stdlib Require Import Permutation Sorted DecimalString.
Import ListNotations.

Set Implicit Arguments.
Close Scope Q_scope.
Set Warnings "-register-all".

(** ** Python values and exceptions *)

Module Py.

(** The floats that are not finite.  [json.load] reads them from the
    names [NaN], [Infinity] and [-Infinity], and reads a number beyond the
    range of a double as an infinity. *)
Inductive special : Type :=
| NaN
| Infinity (negative : bool).

Inductive json : Type :=
| JNull
| JBool (b : bool)
| JInt (n : Z)
| JFloat (q : Q)
| JSpecial (x : special)
| JStr (s : string)
| JList (l : list json)
| JObj (fields : list (string * json)).

(** [Unspecified] is not an exception of Python.  It stands for an
    outcome that the source leaves to behaviour that the embedding does
    not fix: the order that [min], [max] and [list.sort] produce when a
    NaN is among the values they compare (Python leaves it undefined),
    and what the validation of a response model does with a field whose
    value is not of the declared type. *)
Inductive exn : Type :=
| AttributeError
| TypeError
| RangeError
| Unspecified.

Inductive result (A : Type) : Type :=
| Ok (a : A)
| Raise (e : exn).

Arguments Ok {A} a.
Arguments Raise {A} e.

Definition bind {A B : Type} (r : result A) (k : A -> result B) : result B :=
  match r with
  | Ok a => k a
  | Raise e => Raise e
  end.

Definition is_ok {A : Type} (r : result A) : bool :=
  match r with Ok _ => true | Raise _ => false end.

(** [try: ... except (OSError, OverflowError, ValueError): pass] around an
    expression whose value is kept only on success. *)
Definition try_range {A : Type} (r : result A) : result (option A) :=
  match r with
  | Ok a => Ok (Some a)
  | Raise RangeError => Ok None
  | Raise e => Raise e
  end.

Fixpoint mapM {A B : Type} (f : A -> result B) (l : list A) : result (list B) :=
  match l with
  | [] => Ok []
  | x :: l' =>
      bind (f x) (fun y => bind (mapM f l') (fun ys => Ok (y :: ys)))
  end.

(** Truth value of an object, as tested by [if x], [not x], [x or y]. *)
Definition truthy (v : json) : bool :=
  match v with
  | JNull => false
  | JBool b => b
  | JInt n => negb (n =? 0)%Z
  | JFloat q => negb (Qeq_bool q 0)
  | JSpecial _ => true
  | JStr s => negb (String.eqb s "")
  | JList l => match l with [] => false | _ => true end
  | JObj f => match f with [] => false | _ => true end
  end.

(** [x or y] *)
Definition py_or (x y : json) : json := if truthy x then x else y.

(** The value of a finite number: of an [int], a finite [float] or a
    [bool] ([bool] is a subclass of [int]). *)
Definition number (v : json) : option Q :=
  match v with
  | JBool b => Some (if b then 1%Q else 0%Q)
  | JInt n => Some (inject_Z n)
  | JFloat q => Some q
  | _ => None
  end.

(** First binding of a key in an association list. *)
Fixpoint assoc (k : string) (fields : list (string * json)) : option json :=
  match fields with
  | [] => None
  | (k', v) :: rest => if String.eqb k' k then Some v else assoc k rest
  end.

(** [obj.get(key, default)]: only a [dict] has the method. *)
Definition get_default (obj : json) (k : string) (default : json) : result json :=
  match obj with
  | JObj fields =>
      Ok (match assoc k fields with Some v => v | None => default end)
  | _ => Raise AttributeError
  end.

(** [obj.get(key)] *)
Definition get (obj : json) (k : string) : result json :=
  get_default obj k JNull.

(** [obj.values()] and [obj.items()] *)
Definition values (obj : json) : result (list json) :=
  match obj with
  | JObj fields => Ok (map snd fields)
  | _ => Raise AttributeError
  end.

Definition items (obj : json) : result (list (string * json)) :=
  match obj with
  | JObj fields => Ok fields
  | _ => Raise AttributeError
  end.

(** [for part in parts]: lists yield their elements, strings their
    characters, dicts their keys; the other JSON values are not iterable. *)
Definition iter (v : json) : result (list json) :=
  match v with
  | JList l => Ok l
  | JStr s => Ok (map (fun c => JStr (String c "")) (list_ascii_of_string s))
  | JObj fields => Ok (map (fun kv => JStr (fst kv)) fields)
  | _ => Raise TypeError
  end.

(** [x > 0]: false for NaN, as every comparison with it. *)
Definition gt_zero (v : json) : result bool :=
  match number v with
  | Some q => Ok (negb (Qle_bool q 0))
  | None =>
      match v with
      | JSpecial (Infinity false) => Ok true
      | JSpecial _ => Ok false
      | _ => Raise TypeError
      end
  end.

(** [-x] *)
Definition neg (v : json) : result json :=
  match v with
  | JBool b => Ok (JInt (if b then -1 else 0))
  | JInt n => Ok (JInt (- n))
  | JFloat q => Ok (JFloat (- q))
  | JSpecial NaN => Ok (JSpecial NaN)
  | JSpecial (Infinity s) => Ok (JSpecial (Infinity (negb s)))
  | _ => Raise TypeError
  end.

(** The numbers that [<] orders totally: the finite ones and the two
    infinities. *)
Inductive ord : Type :=
| Fin (q : Q)
| Inf (negative : bool).

Definition ord_leb (a b : ord) : bool :=
  match a, b with
  | Fin p, Fin q => Qle_bool p q
  | Inf true, _ => true
  | _, Inf false => true
  | _, _ => false
  end.

(** A value as one of the numbers that [min], [max] or [list.sort]
    compare. *)
Definition ordered (v : json) : result ord :=
  match number v with
  | Some q => Ok (Fin q)
  | None =>
      match v with
      | JSpecial NaN => Raise Unspecified
      | JSpecial (Infinity s) => Ok (Inf s)
      | _ => Raise TypeError
      end
  end.

(** Hashable JSON values (usable as [dict] keys). *)
Definition hashable (v : json) : bool :=
  match v with
  | JList _ | JObj _ => false
  | _ => true
  end.

Definition special_eqb (x y : special) : bool :=
  match x, y with
  | NaN, NaN => true
  | Infinity s, Infinity t => Bool.eqb s t
  | _, _ => false
  end.

(** Equality of dictionary keys: numbers compare by value across [bool],
    [int] and [float]; strings by content.  A dictionary finds a key that
    is the same object before it asks [==], and [json.load] hands out one
    NaN object: as a key, NaN equals itself. *)
Definition key_eqb (a b : json) : bool :=
  match a, b with
  | JNull, JNull => true
  | JStr s, JStr t => String.eqb s t
  | JSpecial x, JSpecial y => special_eqb x y
  | _, _ =>
      match number a, number b with
      | Some p, Some q => Qeq_bool p q
      | _, _ => false
      end
  end.

(** Validation of a field of a response model against its declared
    type: a value of that type passes unchanged (for a union, a value of
    one of its members); what becomes of another value, coerced or
    rejected, is left open. *)
Definition validated (accepts : json -> bool) (v : json) : result json :=
  if accepts v then Ok v else Raise Unspecified.

(** [str], [bool], [Optional[str]] and [int | str] as declared types. *)
Definition is_str (v : json) : bool :=
  match v with JStr _ => true | _ => false end.

Definition is_bool (v : json) : bool :=
  match v with JBool _ => true | _ => false end.

Definition is_optional_str (v : json) : bool :=
  match v with JNull | JStr _ => true | _ => false end.

Definition is_int_or_str (v : json) : bool :=
  match v with JInt _ | JStr _ => true | _ => false end.

End Py.

Import Py.

Declare Scope py_scope.
Delimit Scope py_scope with py.
Notation "x <- c1 ;; c2" := (bind c1 (fun x => c2))
  (at level 61, c1 at next level, right associativity) : py_scope.
Notation "' pat <- c1 ;; c2" := (bind c1 (fun x => match x with pat => c2 end))
  (at level 61, pat pattern, c1 at next level, right associativity) : py_scope.
Open Scope py_scope.

(** ** Insertion-ordered dictionaries

    [eqb] is the equality of the keys: [String.eqb] where every key is a
    [str], [key_eqb] where keys are arbitrary hashable objects. *)

Section Dict.
Context {K V : Type}.
Variable eqb : K -> K -> bool.

Definition dict := list (K * V).

Fixpoint dict_get (d : dict) (k : K) : option V :=
  match d with
  | [] => None
  | (k', v) :: d' => if eqb k' k then Some v else dict_get d' k
  end.

(** [d[k] = v]: an existing key keeps its position (and its key object),
    a new key goes last. *)
Fixpoint dict_set (d : dict) (k : K) (v : V) : dict :=
  match d with
  | [] => [(k, v)]
  | (k', v') :: d' =>
      if eqb k' k then (k', v) :: d' else (k', v') :: dict_set d' k v
  end.

(** [d.get(k, default)] *)
Definition dict_get_default (d : dict) (k : K) (default : V) : V :=
  match dict_get d k with
  | Some v => v
  | None => default
  end.
End Dict.

Arguments dict K V : clear implicits.

(** ** Stable sorting by key: [list.sort(key=...)] and [sorted(..., key=...)]

    Python's sort is stable, so its result is determined by the keys: it
    is the one permutation that is ascending in the key and keeps the
    input order among equal keys.  Insertion from the right computes it. *)

Section StableSort.
Context {A K : Type}.
Variable leb : K -> K -> bool.

Fixpoint insert_keyed (x : K * A) (l : list (K * A)) : list (K * A) :=
  match l with
  | [] => [x]
  | y :: l' =>
      if leb (fst x) (fst y) then x :: y :: l'
      else y :: insert_keyed x l'
  end.

Definition sort_keyed (l : list (K * A)) : list (K * A) :=
  fold_right insert_keyed [] l.

(** The key function is applied to every element first (an exception
    there leaves nothing sorted), then the decorated list is sorted. *)
Definition sorted_by (key : A -> result K) (l : list A) : result (list A) :=
  keys <- mapM key l ;;
  Ok (map snd (sort_keyed (combine keys l))).
End StableSort.

(** Sorting on keys that are numbers: the keys are computed, then
    compared. *)
Definition sorted_by_number {A : Type} (key : A -> result json) (l : list A)
    : result (list A) :=
  keys <- mapM key l ;;
  ks <- mapM ordered keys ;;
  Ok (map snd (sort_keyed ord_leb (combine ks l))).

(** ** Calendar and clock: the parts of [datetime] and [calendar] used *)

Open Scope Z_scope.

Record datetime : Type := mkDatetime {
  year : Z; month : Z; day : Z;
  hour : Z; minute : Z; second : Z; microsecond : Z
}.

(** [calendar.isleap] *)
Definition isleap (y : Z) : bool :=
  (y mod 4 =? 0) && (negb (y mod 100 =? 0) || (y mod 400 =? 0)).

(** [calendar.mdays] *)
Definition mdays (m : Z) : Z :=
  nth (Z.to_nat m) [0; 31; 28; 31; 30; 31; 30; 31; 31; 30; 31; 30; 31] 0.

(** Second component of [calendar.monthrange(year, month)], for a month
    in 1..12 (the only months the source asks for). *)
Definition days_in_month (y m : Z) : Z :=
  mdays m + (if (m =? 2) && isleap y then 1 else 0).

(** Proleptic Gregorian date of a day number counted from 1970-01-01. *)
Definition civil_from_days (days : Z) : Z * Z * Z :=
  let z := days + 719468 in
  let era := z / 146097 in
  let doe := z - era * 146097 in
  let yoe := (doe - doe / 1460 + doe / 36524 - doe / 146096) / 365 in
  let doy := doe - (365 * yoe + yoe / 4 - yoe / 100) in
  let mp := (5 * doy + 2) / 153 in
  let d := doy - (153 * mp + 2) / 5 + 1 in
  let m := if mp <? 10 then mp + 3 else mp - 9 in
  let y := yoe + era * 400 + (if m <=? 2 then 1 else 0) in
  (y, m, d).

(** Rounding to an integer, ties to even. *)
Definition round_half_even (q : Q) : Z :=
  let f := Qfloor q in
  match Qcompare (q - inject_Z f)%Q (1 # 2)%Q with
  | Lt => f
  | Gt => f + 1
  | Eq => if Z.even f then f else f + 1
  end.

(** [2 ^ p] for an integer [p] of either sign. *)
Definition Qpow2 (p : Z) : Q :=
  if 0 <=? p then inject_Z (2 ^ p) else (1 # Z.to_pos (2 ^ (- p)))%Q.

(** [floor (log2 |x|)] of a rational other than 0. *)
Definition ilog2 (x : Q) : Z :=
  let e := Z.log2 (Z.abs (Qnum x)) - Z.log2 (Zpos (Qden x)) in
  if Qle_bool (Qpow2 e) (Qabs x) then e else e - 1.

(** The double nearest to a rational within the range of the doubles,
    ties to the even significand: the result of a floating-point
    operation whose exact result is [x]. *)
Definition round_double (x : Q) : Q :=
  if Qeq_bool x 0 then 0%Q
  else
    let ulp := Qpow2 (Z.max (ilog2 x - 52) (-1074)) in
    (inject_Z (round_half_even (x / ulp)) * ulp)%Q.

(** The integral part of a number, towards zero ([modf]). *)
Definition Qtrunc (q : Q) : Z :=
  if Qle_bool 0 q then Qfloor q else Qceiling q.

(** The microseconds since the epoch that [datetime.fromtimestamp] reads
    from a timestamp: the integral part, and the fractional part
    multiplied by [1e6] as a double and rounded, ties to even. *)
Definition micros (t : Q) : Z :=
  let whole := Qtrunc t in
  whole * 1000000
  + round_half_even (round_double ((t - inject_Z whole) * inject_Z 1000000)%Q).

(** [datetime.fromtimestamp(t, tz=timezone.utc)] on a finite number:
    years outside 1..9999 are out of range. *)
Definition utc_of_number (t : Q) : result datetime :=
  let us := micros t in
  let secs := us / 1000000 in
  let sod := secs mod 86400 in
  let '(y, m, d) := civil_from_days (secs / 86400) in
  if (1 <=? y) && (y <=? 9999) then
    Ok (mkDatetime y m d (sod / 3600) (sod mod 3600 / 60) (sod mod 60)
          (us mod 1000000))
  else Raise RangeError.

(** [datetime.fromtimestamp(x, tz=timezone.utc)] on an object: NaN is a
    [ValueError], an infinity an [OverflowError]. *)
Definition fromtimestamp (x : json) : result datetime :=
  match number x with
  | Some t => utc_of_number t
  | None =>
      match x with
      | JSpecial _ => Raise RangeError
      | _ => Raise TypeError
      end
  end.

Definition digit (n : Z) : ascii := ascii_of_nat (48 + Z.to_nat n).

Definition pad2 (n : Z) : string :=
  String (digit (n / 10 mod 10)) (String (digit (n mod 10)) "").

Definition pad4 (n : Z) : string :=
  String (digit (n / 1000 mod 10)) (String (digit (n / 100 mod 10)) (pad2 n)).

Definition pad6 (n : Z) : string :=
  String (digit (n / 100000 mod 10))
    (String (digit (n / 10000 mod 10)) (pad4 n)).

(** [str(n)] for an [int]. *)
Definition str_of_int (n : Z) : string := NilZero.string_of_int (Z.to_int n).

(** [f"{n:02d}"]: zero-padded to width two, the sign counting. *)
Definition format_02d (n : Z) : string :=
  if (0 <=? n) && (n <? 10) then ("0" ++ str_of_int n)%string
  else str_of_int n.

(** [dt.isoformat()] of a UTC-aware [datetime]; the year has four
    digits on every platform. *)
Definition isoformat (dt : datetime) : string :=
  (pad4 (year dt) ++ "-" ++ pad2 (month dt) ++ "-" ++ pad2 (day dt)
   ++ "T" ++ pad2 (hour dt) ++ ":" ++ pad2 (minute dt)
   ++ ":" ++ pad2 (second dt)
   ++ (if (microsecond dt =? 0)%Z then "" else "." ++ pad6 (microsecond dt))
   ++ "+00:00")%string.

(** * The service, on a given platform *)

Section Platform.

(** Whether [strftime] pads [%Y] with zeros to four digits.  CPython
    hands the directive to the C library: glibc prints the year 999 as
    [999], other libraries (and CPython itself from 3.13 on) print
    [0999].  Years of four digits are printed alike. *)
Variable year_padded : bool.

(** [dt.strftime("%Y-%m-%d")] *)
Definition strftime_ymd (dt : datetime) : string :=
  ((if year_padded then pad4 (year dt) else str_of_int (year dt))
   ++ "-" ++ pad2 (month dt) ++ "-" ++ pad2 (day dt))%string.

Definition digit_val (c : ascii) : option Z :=
  let n := Z.of_nat (nat_of_ascii c) in
  if (48 <=? n) && (n <=? 57) then Some (n - 48) else None.

Fixpoint digits_val (acc : Z) (cs : list ascii) : option Z :=
  match cs with
  | [] => Some acc
  | c :: cs' =>
      match digit_val c with
      | Some v => digits_val (10 * acc + v) cs'
      | None => None
      end
  end.

(** [datetime.fromisoformat(s)] on the keys that [strftime] writes: the
    calendar-date form [YYYY-MM-DD] gives the date (the time of day is
    midnight); a key whose year is printed with fewer than four digits
    is not in ISO format ([ValueError]). *)
Definition fromisoformat (s : string) : result datetime :=
  match list_ascii_of_string s with
  | [y1; y2; y3; y4; s1; m1; m2; s2; d1; d2] =>
      match digits_val 0 [y1; y2; y3; y4], digits_val 0 [m1; m2],
            digits_val 0 [d1; d2] with
      | Some y, Some m, Some d =>
          if Ascii.eqb s1 "-" && Ascii.eqb s2 "-"
             && (1 <=? y) && (1 <=? m) && (m <=? 12)
             && (1 <=? d) && (d <=? days_in_month y m)
          then Ok (mkDatetime y m d 0 0 0 0)
          else Raise RangeError
      | _, _, _ => Raise RangeError
      end
  | _ => Raise RangeError
  end.

Close Scope Z_scope.

(** ** Data model *)

Record Conversation : Type := mkConversation {
  id : json;
  title : json;
  create_time : json;
  update_time : json;
  model : json;
  mapping : json;
  is_archived : json
}.

(** The dictionaries that [_linearize_messages] appends. *)
Record message : Type := mkMessage {
  msg_id : json;
  role : json;
  name : json;
  content : string;
  createTime : json;
  timestamp : option string
}.

(** The state of a [ConversationService] (the search index, an object of
    an external library, is left out). *)
Record service : Type := mkService {
  conversations : list Conversation;
  by_date : dict string (list Conversation);
  by_id : dict json Conversation
}.

Record StatsResponse : Type := mkStats {
  totalConversations : nat;
  totalMessages : nat;
  dateRange : string * string;
  topModels : list (json * nat)
}.

Record ContributionResponse : Type := mkContribution {
  contribution_year : Z;
  days : list (string * nat);
  max_count : nat;
  total : nat
}.

Record summary : Type := mkSummary {
  summary_id : json;
  summary_title : json;
  summary_createTime : string;
  summary_model : json;
  messageCount : nat
}.

Record ConversationsListResponse : Type := mkList {
  date : string;
  listed : list summary
}.

Record ConversationDetailResponse : Type := mkDetail {
  detail_id : json;
  detail_title : json;
  detail_createTime : string;
  detail_updateTime : string;
  detail_model : json;
  messages : list message;
  isArchived : json
}.

(** [ConversationService.__init__] before any loading. *)
Definition empty_service : service := mkService [] [] [].

(** ** [_load_data] *)

(** The body of the loop over the parsed records. *)
Definition ingest (st : service) (conv : json) : result service :=
  ct <- get conv "create_time" ;;
  match ct with
  | JNull => Ok st
  | _ =>
      cid <- get_default conv "conversation_id" (JStr "") ;;
      i <- get_default conv "id" cid ;;
      t <- get_default conv "title" (JStr "") ;;
      ut <- get_default conv "update_time" ct ;;
      mo <- get conv "default_model_slug" ;;
      ma <- get_default conv "mapping" (JObj []) ;;
      ar <- get_default conv "is_archived" (JBool false) ;;
      let c := mkConversation i t ct ut mo ma ar in
      if hashable i then
        dt <- fromtimestamp ct ;;
        let date_key := strftime_ymd dt in
        let bucket := dict_get_default String.eqb (by_date st) date_key [] in
        Ok (mkService (conversations st ++ [c])
              (dict_set String.eqb (by_date st) date_key (bucket ++ [c]))
              (dict_set key_eqb (by_id st) i c))
      else Raise TypeError
  end.

Fixpoint ingest_all (st : service) (data : list json) : result service :=
  match data with
  | [] => Ok st
  | conv :: rest => st' <- ingest st conv ;; ingest_all st' rest
  end.

Definition _load_data (data : list json) : result service :=
  ingest_all empty_service data.

(** ** Counting message payloads directly from the tree

    [sum(1 for node in c.mapping.values() if node.get("message"))], the
    expression shared by [get_stats] and [get_conversations_by_date]. *)

Fixpoint count_payloads (nodes : list json) : result nat :=
  match nodes with
  | [] => Ok 0
  | node :: rest =>
      msg <- get node "message" ;;
      n <- count_payloads rest ;;
      Ok (if truthy msg then S n else n)
  end.

Definition message_count (mapping : json) : result nat :=
  nodes <- values mapping ;; count_payloads nodes.

(** ** [get_stats] *)

(** [if c.model: model_counts[c.model] += 1] on a [defaultdict(int)]. *)
Definition count_model (model_counts : dict json nat) (m : json)
  : result (dict json nat) :=
  if truthy m then
    if hashable m then
      Ok (dict_set key_eqb model_counts m
            (S (dict_get_default key_eqb model_counts m 0)))
    else Raise TypeError
  else Ok model_counts.

Fixpoint stats_loop (cs : list Conversation) (model_counts : dict json nat)
    (total_messages : nat) : result (dict json nat * nat) :=
  match cs with
  | [] => Ok (model_counts, total_messages)
  | c :: rest =>
      mc <- count_model model_counts (model c) ;;
      n <- message_count (mapping c) ;;
      stats_loop rest mc (total_messages + n)
  end.

(** [min] and [max] of a non-empty list of numbers (the first extremal
    element is the one returned). *)
Definition min_of (t0 : ord) (ts : list ord) : ord :=
  fold_left (fun a b => if ord_leb a b then a else b) ts t0.

Definition max_of (t0 : ord) (ts : list ord) : ord :=
  fold_left (fun a b => if ord_leb b a then a else b) ts t0.

(** [datetime.fromtimestamp] on the minimum or the maximum. *)
Definition utc_of_ord (t : ord) : result datetime :=
  match t with
  | Fin q => utc_of_number q
  | Inf _ => Raise RangeError
  end.

(** [sorted(model_counts.items(), key=lambda x: -x[1])] followed by
    [[:10]]. *)
Definition top_models (model_counts : dict json nat) : result (list (json * nat)) :=
  ranked <- sorted_by Z.leb (fun x => Ok (- Z.of_nat (snd x))%Z) model_counts ;;
  Ok (firstn 10 ranked).

(** The response is a [StatsResponse], whose [topModels] is declared
    [list[dict[str, int | str]]]: the counts are of type [int], the
    models are validated. *)
Definition get_stats (st : service) : result StatsResponse :=
  match conversations st with
  | [] => Ok (mkStats 0 0 (""%string, ""%string) [])
  | c0 :: cs =>
      '(model_counts, total_messages) <- stats_loop (c0 :: cs) [] 0 ;;
      t0 <- ordered (create_time c0) ;;
      ts <- mapM ordered (map create_time cs) ;;
      start_dt <- utc_of_ord (min_of t0 ts) ;;
      end_dt <- utc_of_ord (max_of t0 ts) ;;
      top <- top_models model_counts ;;
      models <- mapM (fun x => validated is_int_or_str (fst x)) top ;;
      Ok (mkStats (List.length (c0 :: cs)) total_messages
            (strftime_ymd start_dt, strftime_ymd end_dt)
            (combine models (map snd top)))
  end.

(** ** [get_contribution] *)

(** [range(1, n + 1)] *)
Definition range1 (n : Z) : list Z := map Z.of_nat (seq 1 (Z.to_nat n)).

(** [f"{year}-{month:02d}-{day:02d}"] *)
Definition date_key_of (y m d : Z) : string :=
  (str_of_int y ++ "-" ++ format_02d m ++ "-" ++ format_02d d)%string.

(** The keys written by the two nested loops, in the order written. *)
Definition calendar_keys (y : Z) : list string :=
  flat_map (fun m => map (date_key_of y m) (range1 (days_in_month y m)))
    (range1 12).

Definition zero_days (y : Z) : dict string nat :=
  fold_left (fun all_days k => dict_set String.eqb all_days k 0)
    (calendar_keys y) [].

(** The loop over [self.by_date.items()]. *)
Fixpoint fill_counts (y : Z) (buckets : list (string * list Conversation))
    (all_days : dict string nat) : result (dict string nat) :=
  match buckets with
  | [] => Ok all_days
  | (date_key, convs) :: rest =>
      dt <- fromisoformat date_key ;;
      fill_counts y rest
        (if (year dt =? y)%Z
         then dict_set String.eqb all_days date_key (List.length convs)
         else all_days)
  end.

Definition max_nat (l : list nat) : nat :=
  match l with
  | [] => 0
  | v :: vs => fold_left Nat.max vs v
  end.

Definition sum_nat (l : list nat) : nat := fold_left Nat.add l 0.

Definition get_contribution (st : service) (y : Z) : result ContributionResponse :=
  all_days <- fill_counts y (by_date st) (zero_days y) ;;
  sorted_days <- sorted_by String.leb (fun x => Ok (fst x)) all_days ;;
  Ok (mkContribution y sorted_days (max_nat (map snd all_days))
        (sum_nat (map snd all_days))).

(** ** [get_conversations_by_date] *)

(** The first two statements: the bucket, newest first. *)
Definition convs_sorted (st : service) (d : string) : result (list Conversation) :=
  let convs := dict_get_default String.eqb (by_date st) d [] in
  sorted_by_number (fun c => neg (create_time c)) convs.

Definition summarize (c : Conversation) : result summary :=
  dt <- fromtimestamp (create_time c) ;;
  n <- message_count (mapping c) ;;
  Ok (mkSummary (id c) (py_or (title c) (JStr "(no title)")) (isoformat dt)
        (model c) n).

Definition get_conversations_by_date (st : service) (d : string)
  : result ConversationsListResponse :=
  cs <- convs_sorted st d ;;
  conversations <- mapM summarize cs ;;
  Ok (mkList d conversations).

(** ** [_linearize_messages] and [get_conversation]

    [str], applied by the source to the [content] field of a structured
    part, is a parameter: its result on floats and containers is not
    needed by any property below. *)

Section Linearize.
Variable py_str : json -> string.

(** What one element of [parts] adds to [content_text]. *)
Definition part_text (part : json) : result string :=
  match part with
  | JStr s => Ok s
  | JObj fields =>
      match assoc "text" fields with
      | Some (JStr t) => Ok t
      | Some _ => Raise TypeError
      | None =>
          match assoc "content" fields with
          | Some c => Ok (py_str c)
          | None => Ok ""%string
          end
      end
  | _ => Ok ""%string
  end.

Fixpoint join_parts (content_text : string) (parts : list json) : result string :=
  match parts with
  | [] => Ok content_text
  | part :: rest =>
      t <- part_text part ;;
      join_parts (content_text ++ t) rest
  end.

(** [timestamp], from the [create_time] of the message. *)
Definition timestamp_of (ct : json) : result (option string) :=
  if truthy ct then
    positive <- gt_zero ct ;;
    if positive then
      dt <- try_range (fromtimestamp ct) ;;
      Ok (option_map isoformat dt)
    else Ok None
  else Ok None.

(** The body of the loop for a node whose message is not falsy. *)
Definition message_of (msg : json) : result message :=
  author <- get_default msg "author" (JObj []) ;;
  cont <- get_default msg "content" (JObj []) ;;
  parts <- get_default cont "parts" (JList []) ;;
  content_text <-
    (if truthy parts then ps <- iter parts ;; join_parts "" ps
     else Ok ""%string) ;;
  ct <- get msg "create_time" ;;
  ts <- timestamp_of ct ;;
  i <- get msg "id" ;;
  r <- get author "role" ;;
  n <- get author "name" ;;
  Ok (mkMessage i r n content_text ct ts).

Fixpoint collect (nodes : list (string * json)) : result (list message) :=
  match nodes with
  | [] => Ok []
  | (node_id, node) :: rest =>
      msg <- get node "message" ;;
      if truthy msg then
        m <- message_of msg ;;
        ms <- collect rest ;;
        Ok (m :: ms)
      else collect rest
  end.

(** [m["createTime"] or 0] *)
Definition sort_key (m : message) : result json :=
  Ok (py_or (createTime m) (JInt 0)).

Definition _linearize_messages (mapping : json) : result (list message) :=
  nodes <- items mapping ;;
  msgs <- collect nodes ;;
  sorted_by_number sort_key msgs.

(** The response is a [ConversationDetailResponse], with [id] and
    [title] declared [str], [model] declared [Optional[str]] and
    [isArchived] declared [bool]; the other fields are of their declared
    types by construction. *)
Definition get_conversation (st : service) (conv_id : string)
  : result (option ConversationDetailResponse) :=
  match dict_get key_eqb (by_id st) (JStr conv_id) with
  | None => Ok None
  | Some c =>
      msgs <- _linearize_messages (mapping c) ;;
      ctime <- fromtimestamp (create_time c) ;;
      utime <- fromtimestamp (update_time c) ;;
      i <- validated is_str (id c) ;;
      t <- validated is_str (py_or (title c) (JStr "(no title)")) ;;
      mo <- validated is_optional_str (model c) ;;
      ar <- validated is_bool (is_archived c) ;;
      Ok (Some (mkDetail i t (isoformat ctime) (isoformat utime) mo msgs ar))
  end.

End Linearize.

(** ** The search index: its path and its documents

    The index itself is an object of an external library; what the
    source computes for it is the path of the side-car file and the list
    of documents handed to [fit]. *)

Definition _get_index_path (data_path : string) : string :=
  (data_path ++ ".index")%string.

Record document : Type := mkDocument {
  doc_id : json;
  doc_title : json;
  doc_content : string;
  doc_createTime : string;
  doc_model : json
}.

(** [" ".join(content_parts)], [content_parts] holding the content of
    the messages whose content is not empty. *)
Definition join_contents (msgs : list message) : string :=
  String.concat " "
    (filter (fun t => negb (String.eqb t "")) (map content msgs)).

Section Index.
Variable py_str : json -> string.

Definition document_of (c : Conversation) : result document :=
  msgs <- _linearize_messages py_str (mapping c) ;;
  dt <- fromtimestamp (create_time c) ;;
  Ok (mkDocument (id c) (py_or (title c) (JStr "")) (join_contents msgs)
        (isoformat dt) (py_or (model c) (JStr ""))).

(** The list [documents] built by [_load_or_create_index] when no index
    file is loaded. *)
Definition index_documents (st : service) : result (list document) :=
  mapM document_of (conversations st).

End Index.

(** ** Vocabulary of the properties *)

(** Sorting on a key that cannot fail. *)
Definition sort_on {A K : Type} (leb : K -> K -> bool) (f : A -> K)
    (l : list A) : list A :=
  map snd (sort_keyed leb (map (fun x => (f x, x)) l)).

(** Keys that the order cannot tell apart. *)
Definition same_key {K : Type} (leb : K -> K -> bool) (k k' : K) : bool :=
  leb k k' && leb k' k.

(** Position of elements in a sequence. *)
Definition before {A : Type} (P R : A -> Prop) (l : list A) : Prop :=
  forall i j a b,
    nth_error l i = Some a -> nth_error l j = Some b ->
    P a -> R b -> (i < j)%nat.

Definition time_missing (m : message) : Prop := createTime m = JNull.
Definition time_present (m : message) : Prop := number (createTime m) <> None.

(** [createTime > 0] holds. *)
Definition time_positive (m : message) : Prop :=
  gt_zero (createTime m) = Ok true.

(** [m["createTime"] or 0] as one of the ordered numbers: the raw
    [createTime], 0 standing for a missing (or otherwise falsy) one.
    It is the key of the final sort of every message whose [createTime]
    is not NaN. *)
Definition time_key (m : message) : ord :=
  match createTime m with
  | JSpecial (Infinity s) => Inf s
  | v =>
      Fin (match number (py_or v (JInt 0)) with
           | Some q => q
           | None => 0%Q
           end)
  end.

(** *** Well-formed message trees

    A mapping as the export format describes it: every node is an object;
    a message payload, when there is one, is an object whose [author] and
    [content] are objects when present, whose [parts] is a list when
    present, in which the [text] of a structured part is a string, and
    whose [create_time] is null or a number other than NaN. *)

Definition is_obj (v : json) : bool :=
  match v with JObj _ => true | _ => false end.

Definition field (k : string) (default : json) (fields : list (string * json)) : json :=
  match assoc k fields with
  | Some v => v
  | None => default
  end.









(** *** Sample data *)

(** A node with a user message of one text part. *)
Definition text_node (i : string) (ct : json) (text : string) : string * json :=
  (i, JObj [("id", JStr i);
            ("message",
             JObj [("id", JStr i);
                   ("author", JObj [("role", JStr "user")]);
                   ("content", JObj [("content_type", JStr "text");
                                     ("parts", JList [JStr text])]);
                   ("create_time", ct)])])%string.

Definition text_message (i : string) (ct : json) (text : string)
    (ts : option string) : message :=
  mkMessage (JStr i) (JStr "user") JNull text ct ts.

(** The tree of the specification's example: a structural root and two
    messages. *)
Definition example_mapping : json :=
  JObj [("root", JObj [("id", JStr "root"); ("message", JNull)]);
        text_node "m1" (JInt 1700000001) "Hello";
        text_node "m2" (JInt 1700000002) "World"]%string.


(** Four messages out of order, the second without [create_time]. *)
Definition shuffled_nodes : list (string * json) :=
  [text_node "a" (JInt 3) "third";
   text_node "b" JNull "undated";
   text_node "c" (JInt 2) "second";
   text_node "d" (JInt 1) "first"]%string.

Definition shuffled_collected : list message :=
  [text_message "a" (JInt 3) "third" (Some "1970-01-01T00:00:03+00:00");
   text_message "b" JNull "undated" None;
   text_message "c" (JInt 2) "second" (Some "1970-01-01T00:00:02+00:00");
   text_message "d" (JInt 1) "first" (Some "1970-01-01T00:00:01+00:00")]%string.

Definition shuffled_messages : list message :=
  [text_message "b" JNull "undated" None;
   text_message "d" (JInt 1) "first" (Some "1970-01-01T00:00:01+00:00");
   text_message "c" (JInt 2) "second" (Some "1970-01-01T00:00:02+00:00");
   text_message "a" (JInt 3) "third" (Some "1970-01-01T00:00:03+00:00")]%string.

(** A message dated before the epoch, then one without [create_time]. *)
Definition early_mapping : json :=
  JObj [text_node "early" (JInt (-1)) "before the epoch";
        text_node "undated" JNull "no time"]%string.

Definition early_messages : list message :=
  [text_message "early" (JInt (-1)) "before the epoch" None;
   text_message "undated" JNull "no time" None]%string.






Definition no_str : json -> string := fun _ => ""%string.

(** The record of the specification's example and the store it loads. *)
Definition example_record : json :=
  JObj [("id", JStr "c1"); ("title", JStr "Trip planning");
        ("create_time", JInt 1700000000); ("mapping", example_mapping)]%string.

Definition example_conversation : Conversation :=
  mkConversation (JStr "c1") (JStr "Trip planning") (JInt 1700000000)
    (JInt 1700000000) JNull example_mapping (JBool false).

Definition example_service : service :=
  mkService [example_conversation]
    [("2023-11-14"%string, [example_conversation])]
    [(JStr "c1", example_conversation)].

(** A record without [create_time]. *)
Definition undated_record : json :=
  JObj [("id", JStr "c2"); ("title", JStr "No date")]%string.

(** *** Stores reached by ingest *)

(** The UTC calendar day of a conversation, as [_load_data] computes it
    from [create_time]. *)
Definition day_of (c : Conversation) : option string :=
  match fromtimestamp (create_time c) with
  | Ok dt => Some (strftime_ymd dt)
  | Raise _ => None
  end.

Definition on_day (d : string) (c : Conversation) : bool :=
  match day_of c with
  | Some k => String.eqb k d
  | None => false
  end.

(** [create_time] as a number. *)
Definition time_of (c : Conversation) : Q :=
  match number (create_time c) with
  | Some q => q
  | None => 0%Q
  end.

(** The keys of a dictionary filled with the given keys in turn: each
    key once, at the place of its first occurrence. *)
Definition distinct_keys (l : list json) : list json :=
  fold_left
    (fun acc k => if existsb (fun k' => key_eqb k' k) acc then acc
                  else acc ++ [k])
    l [].

(** No two keys of the list are equal as dictionary keys. *)
Fixpoint all_distinct (l : list json) : bool :=
  match l with
  | [] => true
  | k :: l' => forallb (fun k' => negb (key_eqb k k')) l' && all_distinct l'
  end.

(** What holds of a store between two steps of the ingest loop. *)
Record loaded (st : service) : Prop := mkLoaded {
  loaded_dated : Forall (fun c => day_of c <> None) (conversations st);
  loaded_buckets :
    forall d, dict_get_default String.eqb (by_date st) d []
              = filter (on_day d) (conversations st);
  loaded_days :
    Forall (fun kv => exists c, In c (snd kv) /\ day_of c = Some (fst kv))
      (by_date st);
  loaded_nodup : NoDup (map fst (by_date st));
  loaded_ids : map fst (by_id st) = distinct_keys (map id (conversations st))
}.

Definition example_stats : StatsResponse :=
  mkStats 1 2 ("2023-11-14", "2023-11-14")%string [].

(** The store after the same record is ingested twice. *)
Definition twice_service : service :=
  mkService [example_conversation; example_conversation]
    [("2023-11-14"%string, [example_conversation; example_conversation])]
    [(JStr "c1", example_conversation)].

Definition twice_stats : StatsResponse :=
  mkStats 2 4 ("2023-11-14", "2023-11-14")%string [].

(** *** Records and the conversations they become *)

(** The [Conversation] that [_load_data] builds from the fields of a
    record: [id] falls back to [conversation_id] and then to the empty
    string, [update_time] to [create_time], [mapping] to the empty
    dictionary, [is_archived] to [False]. *)
Definition conversation_of (fields : list (string * json)) : Conversation :=
  mkConversation
    (field "id" (field "conversation_id" (JStr "") fields) fields)
    (field "title" (JStr "") fields)
    (field "create_time" JNull fields)
    (field "update_time" (field "create_time" JNull fields) fields)
    (field "default_model_slug" JNull fields)
    (field "mapping" (JObj []) fields)
    (field "is_archived" (JBool false) fields).

(** Records with a [create_time], as conversations, in input order. *)
Fixpoint dated (data : list json) : list Conversation :=
  match data with
  | [] => []
  | JObj fields :: rest =>
      match field "create_time" JNull fields with
      | JNull => dated rest
      | _ => conversation_of fields :: dated rest
      end
  | _ :: rest => dated rest
  end.

(** A tree whose payloads can be counted: an object whose nodes are
    objects. *)
Definition countable (mapping : json) : bool :=
  match mapping with
  | JObj nodes => forallb (fun kv => is_obj (snd kv)) nodes
  | _ => false
  end.

(** The payload of a node, for a node that is an object. *)
Definition payload (node : json) : json :=
  match node with
  | JObj f => field "message" JNull f
  | _ => JNull
  end.

(** *** Model statistics *)

(** The model values that [get_stats] counts, in corpus order. *)
Definition model_values (cs : list Conversation) : list json :=
  filter truthy (map model cs).

Definition frequency (k : json) (l : list json) : nat :=
  List.length (filter (key_eqb k) l).

(** Each distinct value, at the place of its first occurrence, with the
    number of its occurrences. *)
Definition model_table (l : list json) : list (json * nat) :=
  map (fun k => (k, frequency k l)) (distinct_keys l).

(** A record that [_load_data] passes: an object, and then either
    without [create_time] (skipped) or with an id that can be a key and a
    [create_time] that converts to a UTC datetime. *)
Definition good_record (conv : json) : bool :=
  match conv with
  | JObj fields =>
      match field "create_time" JNull fields with
      | JNull => true
      | ct => hashable (id (conversation_of fields)) && is_ok (fromtimestamp ct)
      end
  | _ => false
  end.

(** The last conversation of a sequence with a given id. *)
Definition latest (k : json) (cs : list Conversation) : option Conversation :=
  find (fun c => key_eqb (id c) k) (rev cs).

(** A record whose [update_time] is an explicit null. *)
Definition null_update_record : json :=
  JObj [("id", JStr "c3"); ("create_time", JInt 1700000000);
        ("update_time", JNull)]%string.

(** *** Text of parts *)

(** A part with text of its own: a string, or an object whose [text]
    is a string. *)
Definition has_text (part : json) : bool :=
  match part with
  | JStr _ => true
  | JObj f => match assoc "text" f with Some (JStr _) => true | _ => false end
  | _ => false
  end.

Definition text_of (part : json) : string :=
  match part with
  | JStr s => s
  | JObj f => match assoc "text" f with Some (JStr t) => t | _ => ""%string end
  | _ => ""%string
  end.

(** Concatenation without separator. *)
Definition concat_all (l : list string) : string :=
  fold_right String.append ""%string l.

(** The example tree under other node ids and with the links of the
    export format added to the nodes. *)
Definition relinked_mapping : json :=
  JObj [("a", JObj [("id", JStr "a"); ("message", JNull);
                    ("parent", JNull); ("children", JList [JStr "b"])]);
        ("b", JObj [("parent", JStr "a"); ("children", JList [JStr "c"]);
                    ("message",
                     JObj [("id", JStr "m1");
                           ("author", JObj [("role", JStr "user")]);
                           ("content", JObj [("content_type", JStr "text");
                                             ("parts", JList [JStr "Hello"])]);
                           ("create_time", JInt 1700000001)])]);
        ("c", JObj [("parent", JStr "b"); ("children", JList []);
                    ("message",
                     JObj [("id", JStr "m2");
                           ("author", JObj [("role", JStr "user")]);
                           ("content", JObj [("content_type", JStr "text");
                                             ("parts", JList [JStr "World"])]);
                           ("create_time", JInt 1700000002)])])]%string.

(** A payload whose parts mix a string and a structured part. *)
Definition mixed_payload : list (string * json) :=
  [("id", JStr "m");
   ("content",
    JObj [("parts", JList [JStr "see ";
                           JObj [("content_type", JStr "code");
                                 ("text", JStr "x = 1")]])]);
   ("create_time", JFloat (17000000005 # 10))]%string.

(** [model_counts[m] += 1] *)
Definition count_step (model_counts : dict json nat) (m : json) : dict json nat :=
  dict_set key_eqb model_counts m
    (S (dict_get_default key_eqb model_counts m 0)).

(** A store of four conversations with models a, b, none, b. *)
Definition model_conv (m : json) : Conversation :=
  mkConversation (JStr "x") (JStr "") (JInt 1700000000) (JInt 1700000000)
    m (JObj []) (JBool false).

Definition models_service : service :=
  mkService [model_conv (JStr "a"); model_conv (JStr "b");
             model_conv JNull; model_conv (JStr "b")] [] [].

Definition models_stats : StatsResponse :=
  mkStats 4 0 ("2023-11-14", "2023-11-14")%string
    [(JStr "b", 2); (JStr "a", 1)].

(** The key of the ranking: [-x[1]]. *)
Definition neg_count (x : json * nat) : Z := (- Z.of_nat (snd x))%Z.

(** A conversation that the statistics can read: its tree can be
    counted and its model is null, a string or an integer (a value of
    the type declared for the models of the response, or none). *)
Definition stats_ready (c : Conversation) : bool :=
  countable (mapping c) &&
  match model c with
  | JNull | JStr _ | JInt _ => true
  | _ => false
  end.

(** *** Days *)

(** The UTC day, counted from 1970-01-01, in which an instant given in
    microseconds since the epoch falls. *)
Definition day_number (us : Z) : Z := (us / 86400000000)%Z.

(** The key [%Y-%m-%d] of a day. *)
Definition date_key (n : Z) : string :=
  let '(y, m, d) := civil_from_days n in
  strftime_ymd (mkDatetime y m d 0 0 0 0).

(** Whether the [create_time] of a conversation, rounded to the
    microsecond as [datetime.fromtimestamp] rounds it, falls on the day
    with the given key. *)
Definition falls_on (d : string) (c : Conversation) : bool :=
  String.eqb (date_key (day_number (micros (time_of c)))) d.

(** A record with an id and a [create_time], and its conversation. *)
Definition dated_record (i : string) (t : json) : json :=
  JObj [("id", JStr i); ("create_time", t)]%string.

Definition dated_conversation (i : string) (t : json) : Conversation :=
  mkConversation (JStr i) (JStr "") t t JNull (JObj []) (JBool false).

(** Four records of two days, out of order, two of them with the same
    id, and the store they load. *)
Definition week_records : list json :=
  [dated_record "a" (JInt 1700000000); dated_record "b" (JInt 1700006400);
   dated_record "c" (JInt 1699999999); dated_record "a" (JInt 1700003000)].

Definition week_service : service :=
  mkService
    [dated_conversation "a" (JInt 1700000000);
     dated_conversation "b" (JInt 1700006400);
     dated_conversation "c" (JInt 1699999999);
     dated_conversation "a" (JInt 1700003000)]
    [("2023-11-14"%string,
      [dated_conversation "a" (JInt 1700000000);
       dated_conversation "c" (JInt 1699999999);
       dated_conversation "a" (JInt 1700003000)]);
     ("2023-11-15"%string, [dated_conversation "b" (JInt 1700006400)])]
    [(JStr "a", dated_conversation "a" (JInt 1700003000));
     (JStr "b", dated_conversation "b" (JInt 1700006400));
     (JStr "c", dated_conversation "c" (JInt 1699999999))].

(** The double nearest to 1700006399.9999998, a quarter of a microsecond
    before the midnight that begins 2023-11-15, as a [create_time]. *)
Definition late_time : Q := 7130343643545599 # 4194304.

Definition late_service : service :=
  mkService [dated_conversation "late" (JFloat late_time)]
    [("2023-11-15"%string, [dated_conversation "late" (JFloat late_time)])]
    [(JStr "late", dated_conversation "late" (JFloat late_time))].

(** *** The contribution calendar *)

(** Whether a predicate holds of [n] consecutive integers from [lo]. *)
Fixpoint all_from (n : nat) (lo : Z) (p : Z -> bool) : bool :=
  match n with
  | O => true
  | S k => if p lo then all_from k (lo + 1)%Z p else false
  end.

(** The steps of [civil_from_days] inside an era of 400 years: the year
    of the era of a day of the era, the first and the last day of a year
    of the era, and the month and day of a day of a year that begins in
    March. *)
Definition shifted (doe : Z) : Z :=
  (doe - doe / 1460 + doe / 36524 - doe / 146096)%Z.

Definition year_of_era (doe : Z) : Z := (shifted doe / 365)%Z.

Definition year_start (k : Z) : Z := (365 * k + k / 4 - k / 100)%Z.

Definition year_end (k : Z) : Z :=
  (year_start k + 364 + (if isleap (k + 1) then 1 else 0))%Z.

Definition month_day (doy : Z) : Z * Z :=
  let mp := ((5 * doy + 2) / 153)%Z in
  ((if mp <? 10 then mp + 3 else mp - 9)%Z,
   (doy - (153 * mp + 2) / 5 + 1)%Z).

Definition year_row_ok (k : Z) : bool :=
  ((year_of_era (year_start k) =? k) && (year_of_era (year_end k) =? k)
   && (year_end k <=? 146096)
   && ((k =? 399) || (year_end k + 1 =? year_start (k + 1))))%Z.

Definition day_row_ok (doy : Z) : bool :=
  let '(m, d) := month_day doy in
  ((1 <=? m) && (m <=? 12) && (1 <=? d)
   && (if m =? 2 then (d <=? 28) || ((doy =? 365) && (d =? 29))
       else d <=? mdays m))%Z.

(** A dictionary after the entries of another are written into it in
    turn. *)
Definition dict_update {K V : Type} (eqb : K -> K -> bool) (d u : dict K V)
    : dict K V :=
  fold_left (fun acc kv => dict_set eqb acc (fst kv) (snd kv)) u d.

(** The year that [get_contribution] reads from a key of [by_date]. *)
Definition year_of_key (k : string) : option Z :=
  match fromisoformat k with
  | Ok dt => Some (year dt)
  | Raise _ => None
  end.

Definition key_in_year (y : Z) (k : string) : bool :=
  match year_of_key k with
  | Some y' => (y' =? y)%Z
  | None => false
  end.

(** The entries that the loop over [by_date] writes for a year. *)
Definition year_counts (y : Z) (buckets : dict string (list Conversation))
    : dict string nat :=
  map (fun kv => (fst kv, List.length (snd kv)))
    (filter (fun kv => key_in_year y (fst kv)) buckets).


(** The UTC calendar date (year, month, day) on which the [create_time]
    of a conversation, rounded to the microsecond as
    [datetime.fromtimestamp] rounds it, falls. *)
Definition civil_of (c : Conversation) : Z * Z * Z :=
  civil_from_days (day_number (micros (time_of c))).

Definition year_of (c : Conversation) : Z := fst (fst (civil_of c)).

Definition in_year (y : Z) (c : Conversation) : bool := (year_of c =? y)%Z.



Definition year_length (y : Z) : nat := if isleap y then 366 else 365.

(** The part of a calendar key after the year, for each day of a year. *)
Definition month_days (leap : bool) : list string :=
  flat_map
    (fun m => map (fun d => (format_02d m ++ "-" ++ format_02d d)%string)
                (range1 (mdays m + (if (m =? 2)%Z && leap then 1 else 0))%Z))
    (range1 12).

Fixpoint ascending (l : list string) : bool :=
  match l with
  | [] => true
  | x :: l' => forallb (String.ltb x) l' && ascending l'
  end.

(** Every key of [by_date] is written with a year of four digits: the
    platform pads the year, or no conversation is dated before the year
    1000. *)
Definition wide (st : service) : Prop :=
  year_padded = true \/
  Forall (fun c => (1000 <= year_of c)%Z) (conversations st).

(** A record dated 0987-08-25, and the store it loads on a platform
    that pads the year and on one that does not. *)
Definition old_record : json := dated_record "old" (JInt (-31000000000)).

Definition old_service (key : string) : service :=
  mkService [dated_conversation "old" (JInt (-31000000000))]
    [(key, [dated_conversation "old" (JInt (-31000000000))])]
    [(JStr "old", dated_conversation "old" (JInt (-31000000000)))].

(** The statistics of the four records. *)
Definition week_stats : StatsResponse :=
  mkStats 4 0 ("2023-11-14", "2023-11-15")%string [].

(** The record of the late conversation. *)
Definition late_record : json := dated_record "late" (JFloat late_time).

(** The UTC day, counted from 1970-01-01, in which an instant given in
    seconds since the epoch falls. *)
Definition exact_day_number (t : Q) : Z := Qfloor (t / inject_Z 86400)%Q.

(** Records with a model, the conversations they become, and the store
    and statistics of four of them with models a, b, none, b. *)
Definition model_record (i : string) (m : json) : json :=
  JObj [("id", JStr i); ("create_time", JInt 1700000000);
        ("default_model_slug", m)]%string.

Definition model_conversation (i : string) (m : json) : Conversation :=
  mkConversation (JStr i) (JStr "") (JInt 1700000000) (JInt 1700000000)
    m (JObj []) (JBool false).

Definition tally_records : list json :=
  [model_record "1" (JStr "a"); model_record "2" (JStr "b");
   model_record "3" JNull; model_record "4" (JStr "b")].

Definition tally_service : service :=
  mkService
    [model_conversation "1" (JStr "a"); model_conversation "2" (JStr "b");
     model_conversation "3" JNull; model_conversation "4" (JStr "b")]
    [("2023-11-14"%string,
      [model_conversation "1" (JStr "a"); model_conversation "2" (JStr "b");
       model_conversation "3" JNull; model_conversation "4" (JStr "b")])]
    [(JStr "1", model_conversation "1" (JStr "a"));
     (JStr "2", model_conversation "2" (JStr "b"));
     (JStr "3", model_conversation "3" JNull);
     (JStr "4", model_conversation "4" (JStr "b"))].



(** An [int], a [float] or a [bool], finite or not. *)
Definition is_number (v : json) : bool :=
  match v with
  | JBool _ | JInt _ | JFloat _ | JSpecial _ => true
  | _ => false
  end.

(** * Properties *)

(** ** The exception monad *)

Lemma bind_ok {A B : Type} (r : result A) (k : A -> result B) (b : B) :
  bind r k = Ok b -> exists a, r = Ok a /\ k a = Ok b.
Proof.
  destruct r as [a | e]; simpl; intros H; [eauto | discriminate].
Qed.

Lemma validated_inv (accepts : json -> bool) (v w : json) :
  validated accepts v = Ok w -> w = v /\ accepts v = true.
Proof.
  unfold validated. destruct (accepts v); intros H; inversion H. auto.
Qed.

Lemma mapM_pure {A B : Type} (key : A -> result B) (f : A -> B) (l : list A) :
  (forall x, In x l -> key x = Ok (f x)) -> mapM key l = Ok (map f l).
Proof.
  induction l as [| x l IH]; simpl; intros H; [reflexivity |].
  rewrite (H x) by auto. simpl. rewrite IH by auto. reflexivity.
Qed.

Lemma mapM_length {A B : Type} (f : A -> result B) (l : list A) (l' : list B) :
  mapM f l = Ok l' -> List.length l' = List.length l.
Proof.
  revert l'. induction l as [| x l IH]; simpl; intros l' H.
  - inversion H. reflexivity.
  - apply bind_ok in H as (y & _ & H). apply bind_ok in H as (ys & Hys & H).
    inversion H. simpl. f_equal. auto.
Qed.

Lemma mapM_inv {A B : Type} (f : A -> result B) (l : list A) (l' : list B) :
  mapM f l = Ok l' -> Forall2 (fun x y => f x = Ok y) l l'.
Proof.
  revert l'. induction l as [| x l IH]; simpl; intros l' H.
  - inversion H. constructor.
  - apply bind_ok in H as (y & Hy & H). apply bind_ok in H as (ys & Hys & H).
    inversion H. constructor; auto.
Qed.

(** ** Stable sorting *)

Section StableSortFacts.
Context {A K : Type}.
Variable leb : K -> K -> bool.
Hypothesis leb_total : forall a b, leb a b = true \/ leb b a = true.
Hypothesis leb_trans :
  forall a b c, leb a b = true -> leb b c = true -> leb a c = true.

Let key_le (x y : K * A) : Prop := leb (fst x) (fst y) = true.

Lemma insert_keyed_perm (x : K * A) (l : list (K * A)) :
  Permutation (insert_keyed leb x l) (x :: l).
Proof.
  induction l as [| y l IH]; simpl; [reflexivity |].
  destruct (leb (fst x) (fst y)); [reflexivity |].
  rewrite IH. apply perm_swap.
Qed.

Lemma sort_keyed_perm (l : list (K * A)) : Permutation (sort_keyed leb l) l.
Proof.
  induction l as [| x l IH]; simpl; [reflexivity |].
  rewrite insert_keyed_perm. constructor. exact IH.
Qed.

Lemma insert_keyed_sorted (x : K * A) (l : list (K * A)) :
  StronglySorted key_le l -> StronglySorted key_le (insert_keyed leb x l).
Proof.
  induction 1 as [| y l Hs IH Hy]; simpl.
  - repeat constructor.
  - destruct (leb (fst x) (fst y)) eqn:E.
    + constructor; [constructor; assumption |].
      constructor; [exact E |].
      eapply Forall_impl; [| exact Hy].
      intros z Hz. unfold key_le in *. eauto.
    + constructor; [exact IH |].
      eapply Permutation_Forall; [symmetry; apply insert_keyed_perm |].
      constructor; [| exact Hy].
      unfold key_le. destruct (leb_total (fst x) (fst y)); congruence.
Qed.

Lemma sort_keyed_sorted (l : list (K * A)) :
  StronglySorted key_le (sort_keyed leb l).
Proof.
  induction l as [| x l IH]; simpl; [constructor |].
  apply insert_keyed_sorted. exact IH.
Qed.

Lemma insert_keyed_stable (k : K) (x : K * A) (l : list (K * A)) :
  filter (fun p => same_key leb k (fst p)) (insert_keyed leb x l)
  = filter (fun p => same_key leb k (fst p)) (x :: l).
Proof.
  induction l as [| y l IH]; [reflexivity |].
  cbn [insert_keyed]. destruct (leb (fst x) (fst y)) eqn:E; [reflexivity |].
  cbn [filter] in *. rewrite IH.
  destruct (same_key leb k (fst x)) eqn:Ex; [| reflexivity].
  destruct (same_key leb k (fst y)) eqn:Ey; [| reflexivity].
  unfold same_key in Ex, Ey.
  apply andb_true_iff in Ex as [_ Hx], Ey as [Hy _].
  rewrite (leb_trans Hx Hy) in E. discriminate.
Qed.

Lemma sort_keyed_stable (k : K) (l : list (K * A)) :
  filter (fun p => same_key leb k (fst p)) (sort_keyed leb l)
  = filter (fun p => same_key leb k (fst p)) l.
Proof.
  induction l as [| x l IH]; [reflexivity |].
  cbn [sort_keyed fold_right]. rewrite insert_keyed_stable.
  cbn [filter]. fold (sort_keyed leb l). rewrite IH. reflexivity.
Qed.

Variable f : A -> K.

Let decorated (l : list (K * A)) : Prop :=
  Forall (fun p => fst p = f (snd p)) l.

Lemma decorated_sort (l : list A) :
  decorated (sort_keyed leb (map (fun x => (f x, x)) l)).
Proof.
  eapply Permutation_Forall; [symmetry; apply sort_keyed_perm |].
  apply Forall_forall. intros p Hp. apply in_map_iff in Hp as (x & <- & _).
  reflexivity.
Qed.

Lemma sort_on_perm (l : list A) : Permutation (sort_on leb f l) l.
Proof.
  unfold sort_on. rewrite sort_keyed_perm, map_map. simpl.
  rewrite map_id. reflexivity.
Qed.

Lemma sort_on_sorted (l : list A) :
  StronglySorted (fun x y => leb (f x) (f y) = true) (sort_on leb f l).
Proof.
  unfold sort_on.
  pose proof (decorated_sort l) as Hd.
  pose proof (sort_keyed_sorted (map (fun x => (f x, x)) l)) as Hs.
  induction Hs as [| p s Hs IH Hp]; simpl; [constructor |].
  inversion Hd as [| ? ? Hfp Hd']; subst.
  constructor; [auto |].
  apply Forall_map. rewrite Forall_forall in *.
  intros q Hq. specialize (Hp q Hq). specialize (Hd' q Hq).
  unfold key_le in Hp. rewrite Hfp, Hd' in Hp. exact Hp.
Qed.

Lemma sort_on_stable (k : K) (l : list A) :
  filter (fun x => same_key leb k (f x)) (sort_on leb f l)
  = filter (fun x => same_key leb k (f x)) l.
Proof.
  unfold sort_on.
  pose proof (decorated_sort l) as Hd.
  assert (E : forall s : list (K * A), decorated s ->
    filter (fun x => same_key leb k (f x)) (map snd s)
    = map snd (filter (fun p => same_key leb k (fst p)) s)).
  { induction 1 as [| p s Hp _ IH]; simpl; [reflexivity |].
    rewrite Hp, IH. destruct (same_key leb k (f (snd p))); reflexivity. }
  rewrite (E _ Hd), sort_keyed_stable, <- E.
  - rewrite map_map. simpl. rewrite map_id. reflexivity.
  - apply Forall_forall. intros p Hp. apply in_map_iff in Hp as (x & <- & _).
    reflexivity.
Qed.

Lemma sorted_by_pure (key : A -> result K) (l : list A) :
  (forall x, In x l -> key x = Ok (f x)) ->
  sorted_by leb key l = Ok (sort_on leb f l).
Proof.
  intros H. unfold sorted_by, sort_on. rewrite (mapM_pure _ _ _ H). simpl.
  do 3 f_equal. clear H. induction l; simpl; congruence.
Qed.

End StableSortFacts.

(** ** Order on the keys *)

Lemma Qle_bool_total (a b : Q) : Qle_bool a b = true \/ Qle_bool b a = true.
Proof.
  rewrite !Qle_bool_iff. destruct (Qlt_le_dec a b) as [H | H]; [left | right].
  - apply Qlt_le_weak, H.
  - exact H.
Qed.

Lemma Qle_bool_trans (a b c : Q) :
  Qle_bool a b = true -> Qle_bool b c = true -> Qle_bool a c = true.
Proof. rewrite !Qle_bool_iff. apply Qle_trans. Qed.

Lemma ord_leb_total (a b : ord) : ord_leb a b = true \/ ord_leb b a = true.
Proof.
  destruct a as [p | []], b as [q | []]; cbn [ord_leb]; auto.
  apply Qle_bool_total.
Qed.

Lemma ord_leb_trans (a b c : ord) :
  ord_leb a b = true -> ord_leb b c = true -> ord_leb a c = true.
Proof.
  destruct a as [p | []], b as [q | []], c as [r | []]; cbn [ord_leb];
    try (intros; reflexivity || discriminate).
  apply Qle_bool_trans.
Qed.

Lemma StronglySorted_nth {A : Type} (R : A -> A -> Prop) (l : list A) :
  StronglySorted R l ->
  forall i j a b, nth_error l i = Some a -> nth_error l j = Some b ->
    (i < j)%nat -> R a b.
Proof.
  induction 1 as [| x l Hs IH Hx]; intros i j a b Hi Hj Hlt.
  - destruct i; discriminate.
  - destruct j as [| j]; [lia |]. simpl in Hj. destruct i as [| i]; simpl in Hi.
    + inversion Hi; subst. rewrite Forall_forall in Hx.
      apply Hx. eapply nth_error_In; eauto.
    + eapply IH; eauto. lia.
Qed.

Lemma StronglySorted_nth_mono {A : Type} (R R' : A -> A -> Prop) (l : list A) :
  (forall a b, R a b -> R' a b) -> StronglySorted R l -> StronglySorted R' l.
Proof.
  intros HR. induction 1 as [| x l Hs IH Hx]; constructor; [exact IH |].
  eapply Forall_impl; [| exact Hx]. intros b. apply HR.
Qed.

(** ** Sorting on numbers *)


Lemma sorted_by_number_pure {A : Type} (key : A -> result json)
    (v : A -> json) (f : A -> ord) (l : list A) :
  (forall x, In x l -> key x = Ok (v x)) ->
  (forall x, In x l -> ordered (v x) = Ok (f x)) ->
  sorted_by_number key l = Ok (sort_on ord_leb f l).
Proof.
  intros Hk Ho. unfold sorted_by_number, sort_on.
  rewrite (mapM_pure _ _ _ Hk). cbn [bind].
  rewrite (@mapM_pure _ _ ordered (fun j => match ordered j with
                                             | Ok k => k
                                             | Raise _ => Fin 0
                                             end) (map v l)).
  - cbn [bind]. do 3 f_equal. clear Hk.
    induction l as [| x l IH]; [reflexivity |]. cbn [map combine].
    rewrite (Ho x (or_introl eq_refl)), IH; [reflexivity |].
    intros z Hz. apply Ho. right. exact Hz.
  - intros j Hj. apply in_map_iff in Hj as (x & <- & Hx).
    rewrite (Ho x Hx). reflexivity.
Qed.


(** Finite keys are sorted as the rationals they are. *)
Lemma sort_on_fin {A : Type} (f : A -> Q) (l : list A) :
  sort_on ord_leb (fun x => Fin (f x)) l = sort_on Qle_bool f l.
Proof.
  unfold sort_on.
  assert (E : sort_keyed ord_leb (map (fun x => (Fin (f x), x)) l)
              = map (fun p => (Fin (fst p), snd p))
                  (sort_keyed Qle_bool (map (fun x => (f x, x)) l))).
  { induction l as [| x l IH]; [reflexivity |].
    cbn [map sort_keyed fold_right].
    fold (sort_keyed ord_leb (map (fun x => (Fin (f x), x)) l)).
    fold (sort_keyed Qle_bool (map (fun x => (f x, x)) l)).
    rewrite IH. generalize (sort_keyed Qle_bool (map (fun x => (f x, x)) l)).
    intros s. induction s as [| [k y] s IHs]; [reflexivity |].
    cbn [map insert_keyed fst snd ord_leb].
    destruct (Qle_bool (f x) k); [reflexivity |].
    cbn [map fst snd]. f_equal. exact IHs. }
  rewrite E, map_map. reflexivity.
Qed.

(** ** Linearisation *)

Ltac unbind H :=
  repeat (let x := fresh "x" in
          let E := fresh "E" in
          apply bind_ok in H as (x & E & H)).

Section LinearizeFacts.
Variable py_str : json -> string.

(** A [createTime] that [timestamp_of] accepts is falsy or a number. *)
Lemma timestamp_of_ordered (ct : json) (ts : option string) :
  timestamp_of ct = Ok ts -> ct <> JSpecial NaN ->
  exists k, ordered (py_or ct (JInt 0)) = Ok k.
Proof.
  unfold timestamp_of, py_or. intros H Hnan.
  destruct (truthy ct) eqn:Ht; [| eexists; reflexivity].
  unfold gt_zero in H. unfold ordered.
  destruct (number ct); [eexists; reflexivity |].
  destruct ct as [| | | | [| s] | | |]; try discriminate H;
    [congruence | eexists; reflexivity].
Qed.

Lemma ordered_time_key (m : message) (k : ord) :
  ordered (py_or (createTime m) (JInt 0)) = Ok k -> k = time_key m.
Proof.
  unfold ordered, time_key, py_or.
  destruct (createTime m) as [| b | n | q | [| s] | t | l | f];
    cbn [truthy number].
  - intros H. inversion H. reflexivity.
  - destruct b; intros H; inversion H; reflexivity.
  - destruct (negb (n =? 0)%Z); intros H; inversion H; reflexivity.
  - destruct (negb (Qeq_bool q 0)); intros H; inversion H; reflexivity.
  - discriminate.
  - intros H. inversion H. reflexivity.
  - destruct (negb (String.eqb t "")); cbn [number]; intros H; inversion H.
    reflexivity.
  - destruct l; cbn [number]; intros H; inversion H. reflexivity.
  - destruct f; cbn [number]; intros H; inversion H. reflexivity.
Qed.

Lemma message_of_key (msg : json) (m : message) :
  message_of py_str msg = Ok m -> createTime m <> JSpecial NaN ->
  ordered (py_or (createTime m) (JInt 0)) = Ok (time_key m).
Proof.
  unfold message_of. intros H Hnan. unbind H. inversion H; subst; clear H.
  cbn [createTime] in *.
  destruct (timestamp_of_ordered E4 Hnan) as [k Hk].
  rewrite Hk. f_equal.
  apply (@ordered_time_key (mkMessage x5 x6 x7 x2 x3 x4)). exact Hk.
Qed.

Lemma collect_keys (nodes : list (string * json)) (ms : list message) :
  collect py_str nodes = Ok ms ->
  forall m, In m ms -> createTime m <> JSpecial NaN ->
            ordered (py_or (createTime m) (JInt 0)) = Ok (time_key m).
Proof.
  revert ms. induction nodes as [| [node_id node] rest IH]; simpl; intros ms H.
  - inversion H. intros m [].
  - apply bind_ok in H as (msg & Hmsg & H).
    destruct (truthy msg); [| eauto].
    apply bind_ok in H as (m0 & Hm0 & H). apply bind_ok in H as (ms0 & Hms0 & H).
    inversion H; subst. intros m [<- | Hin]; [| eauto].
    eapply message_of_key; eauto.
Qed.


(** Without a NaN among the keys, it is their stable sort. *)
Lemma collect_linearize (nodes : list (string * json)) (collected : list message) :
  collect py_str nodes = Ok collected ->
  Forall (fun m => createTime m <> JSpecial NaN) collected ->
  _linearize_messages py_str (JObj nodes)
  = Ok (sort_on ord_leb time_key collected).
Proof.
  intros H Hnan. unfold _linearize_messages. simpl. rewrite H. simpl.
  apply (sorted_by_number_pure sort_key
           (fun m => py_or (createTime m) (JInt 0))).
  - reflexivity.
  - intros m Hm. rewrite Forall_forall in Hnan.
    exact (collect_keys _ H m Hm (Hnan m Hm)).
Qed.

End LinearizeFacts.

Lemma sorted_missing_before_positive (l : list message) :
  StronglySorted (fun a b => ord_leb (time_key a) (time_key b) = true) l ->
  before time_missing time_positive l.
Proof.
  intros Hs i j a b Hi Hj Ha Hb.
  unfold time_missing in Ha. unfold time_positive in Hb.
  destruct (Nat.lt_trichotomy i j) as [Hlt | [Heq | Hgt]]; [exact Hlt | |].
  - subst j. rewrite Hi in Hj. inversion Hj; subst.
    rewrite Ha in Hb. discriminate.
  - pose proof (@StronglySorted_nth _ _ _ Hs j i b a Hj Hi Hgt) as Hle.
    exfalso. revert Hle Hb. unfold time_key, gt_zero, py_or. rewrite Ha.
    change (number (if truthy JNull then JNull else JInt 0))
      with (Some 0%Q).
    destruct (createTime b) as [| c | n | q | [| s] | t | u | f];
      cbn [truthy number ord_leb]; intros H1 H2; try discriminate H2.
    + destruct c; [discriminate H1 | discriminate H2].
    + inversion H2 as [H3]. apply negb_true_iff in H3.
      destruct (Z.eqb_spec n 0) as [En | Hn]; cbn [negb number] in H1.
      * rewrite En in H3. vm_compute in H3. discriminate H3.
      * change (inject_Z 0) with 0%Q in H1. congruence.
    + inversion H2 as [H3]. apply negb_true_iff in H3.
      destruct (Qeq_bool q 0) eqn:E; cbn [negb number] in H1.
      * apply Qeq_bool_iff in E.
        assert (Qle_bool q 0 = true)
          by (apply Qle_bool_iff; rewrite E; apply Qle_refl).
        congruence.
      * congruence.
    + destruct s; [discriminate H2 | discriminate H1].
Qed.

(** C1 (as amended).  When the loop over the nodes completes and no
    [createTime] that it met is NaN, [_linearize_messages] returns the
    stable ascending sort of the messages, taken in the order of the
    nodes, by the raw [createTime] with 0 for a missing (or otherwise
    falsy) one: a permutation of them, non-decreasing in that key,
    messages of equal key keeping their order.  Hence a message without
    [createTime] comes before every message whose [createTime] is
    greater than 0. *)
Theorem C1_linearized_sorted_by_createTime
    (py_str : json -> string) (nodes : list (string * json))
    (collected : list message) :
  collect py_str nodes = Ok collected ->
  Forall (fun m => createTime m <> JSpecial NaN) collected ->
  exists msgs,
    _linearize_messages py_str (JObj nodes) = Ok msgs /\
    Permutation msgs collected /\
    StronglySorted (fun a b => ord_leb (time_key a) (time_key b) = true) msgs /\
    (forall k, filter (fun m => same_key ord_leb k (time_key m)) msgs
               = filter (fun m => same_key ord_leb k (time_key m)) collected) /\
    before time_missing time_positive msgs.
Proof.
  intros Hc Hnan. exists (sort_on ord_leb time_key collected).
  assert (Hs : StronglySorted
                 (fun a b => ord_leb (time_key a) (time_key b) = true)
                 (sort_on ord_leb time_key collected))
    by exact (sort_on_sorted ord_leb ord_leb_total ord_leb_trans time_key
                collected).
  split; [exact (collect_linearize py_str _ Hc Hnan) |].
  split; [apply sort_on_perm |]. split; [exact Hs |].
  split; [| apply sorted_missing_before_positive, Hs].
  intros k. exact (sort_on_stable ord_leb ord_leb_trans time_key k collected).
Qed.

Lemma C1_witness :
  collect no_str shuffled_nodes = Ok shuffled_collected /\
  Forall (fun m => createTime m <> JSpecial NaN) shuffled_collected /\
  _linearize_messages no_str (JObj shuffled_nodes) = Ok shuffled_messages /\
  exists msgs,
    _linearize_messages no_str (JObj shuffled_nodes) = Ok msgs /\
    Permutation msgs shuffled_collected /\
    StronglySorted (fun a b => ord_leb (time_key a) (time_key b) = true) msgs /\
    (forall k, filter (fun m => same_key ord_leb k (time_key m)) msgs
               = filter (fun m => same_key ord_leb k (time_key m))
                   shuffled_collected) /\
    before time_missing time_positive msgs.
Proof.
  assert (Hc : collect no_str shuffled_nodes = Ok shuffled_collected)
    by (vm_compute; reflexivity).
  assert (Hn : Forall (fun m => createTime m <> JSpecial NaN) shuffled_collected)
    by (repeat constructor; discriminate).
  split; [exact Hc |]. split; [exact Hn |].
  split; [vm_compute; reflexivity |].
  exact (C1_linearized_sorted_by_createTime no_str shuffled_nodes Hc Hn).
Defined.

(** C1 as stated fails: a message dated before the epoch has a present
    [createTime] and still sorts before a message that has none. *)
Lemma C1_counterexample :
  ~ (forall py_str mapping msgs,
       _linearize_messages py_str mapping = Ok msgs ->
       before time_missing time_present msgs).
Proof.
  intros H.
  assert (E : _linearize_messages no_str early_mapping = Ok early_messages)
    by (vm_compute; reflexivity).
  specialize (H _ _ _ E 1%nat 0%nat _ _ eq_refl eq_refl).
  assert (Hlt : (1 < 0)%nat).
  { apply H; [reflexivity | discriminate]. }
  lia.
Qed.

(** ** Totality of linearisation on well-formed trees *)

Section TotalFacts.
Variable py_str : json -> string.


Lemma utc_of_number_cases (q : Q) :
  (exists dt, utc_of_number q = Ok dt) \/ utc_of_number q = Raise RangeError.
Proof.
  unfold utc_of_number. destruct (civil_from_days _) as [[y m] d].
  destruct (_ && _); eauto.
Qed.






End TotalFacts.




(** ** The two ways of counting messages *)



Lemma stats_loop_total (cs : list Conversation) :
  forall mc n mc' n',
    stats_loop cs mc n = Ok (mc', n') ->
    exists counts,
      mapM (fun c => message_count (mapping c)) cs = Ok counts /\
      n' = n + list_sum counts.
Proof.
  induction cs as [| c cs IH]; simpl; intros mc n mc' n' H.
  - inversion H. exists []. split; [reflexivity | simpl; lia].
  - apply bind_ok in H as (mc1 & _ & H). apply bind_ok in H as (k & Hk & H).
    apply IH in H as (counts & Hcounts & ->).
    exists (k :: counts). rewrite Hk, Hcounts. simpl. split; [reflexivity | lia].
Qed.

Lemma get_stats_total (st : service) (r : StatsResponse) :
  get_stats st = Ok r ->
  exists counts,
    mapM (fun c => message_count (mapping c)) (conversations st) = Ok counts /\
    totalMessages r = list_sum counts /\
    totalConversations r = List.length (conversations st).
Proof.
  unfold get_stats. destruct (conversations st) as [| c0 cs] eqn:Ecs.
  - intros H. inversion H. exists []. repeat split.
  - intros H. apply bind_ok in H as ([mc n] & Hloop & H).
    unbind H. inversion H; subst; clear H. cbn [totalMessages totalConversations].
    apply stats_loop_total in Hloop as (counts & Hcounts & ->).
    exists counts. repeat split; assumption.
Qed.


(** ** Ingest *)

Lemma ingest_absent (st : service) (fields : list (string * json)) :
  field "create_time" JNull fields = JNull ->
  ingest st (JObj fields) = Ok st.
Proof.
  intros H. unfold ingest, get, get_default.
  fold (field "create_time" JNull fields). rewrite H. reflexivity.
Qed.

(** C4.  A record whose [create_time] is absent (or null) leaves the
    store as it was, without an error: the ingest of a sequence that
    contains it is the ingest of the sequence without it, so the
    conversations, [by_id] and every [by_date] bucket are those that the
    other records give. *)
Theorem C4_record_without_create_time_skipped
    (fields : list (string * json)) (st : service) (earlier later : list json) :
  field "create_time" JNull fields = JNull ->
  ingest st (JObj fields) = Ok st /\
  ingest_all st (earlier ++ JObj fields :: later)
  = ingest_all st (earlier ++ later).
Proof.
  intros H. split; [apply ingest_absent, H |].
  revert st. induction earlier as [| r earlier IH]; simpl; intros st.
  - rewrite (ingest_absent _ _ H). reflexivity.
  - destruct (ingest st r); simpl; [apply IH | reflexivity].
Qed.

(** ** Dictionaries *)

Section DictFacts.
Context {K V : Type}.
Variable eqb : K -> K -> bool.

Lemma dict_set_keys (d : dict K V) (k : K) (v : V) :
  map fst (dict_set eqb d k v)
  = if existsb (fun k' => eqb k' k) (map fst d) then map fst d
    else map fst d ++ [k].
Proof.
  induction d as [| [k' v'] d IH]; simpl; [reflexivity |].
  destruct (eqb k' k); simpl; [reflexivity |].
  rewrite IH. destruct (existsb _ _); reflexivity.
Qed.

Lemma dict_get_none (d : dict K V) (k : K) :
  dict_get eqb d k = None <-> existsb (fun k' => eqb k' k) (map fst d) = false.
Proof.
  induction d as [| [k' v'] d IH]; simpl; [tauto |].
  destruct (eqb k' k); simpl; [split; discriminate | exact IH].
Qed.

Hypothesis eqb_spec : forall a b, eqb a b = true <-> a = b.

Lemma existsb_exists_false (k : K) (l : list K) :
  existsb (fun k' => eqb k' k) l = false -> ~ In k l.
Proof.
  intros E Hin. assert (existsb (fun k' => eqb k' k) l = true); [| congruence].
  apply existsb_exists. exists k. split; [exact Hin | apply eqb_spec; reflexivity].
Qed.

Lemma NoDup_app_cons_nil (l : list K) (k : K) :
  NoDup l -> ~ In k l -> NoDup (l ++ [k]).
Proof.
  intros Hnd Hk. induction Hnd as [| x l Hx Hnd IH]; simpl.
  - constructor; [intros [] | constructor].
  - constructor.
    + rewrite in_app_iff. intros [H | [H | []]]; [auto |].
      subst. apply Hk. left. reflexivity.
    + apply IH. intros H. apply Hk. right. exact H.
Qed.

Lemma eqb_refl' (a : K) : eqb a a = true.
Proof. apply eqb_spec. reflexivity. Qed.

Lemma dict_get_set (d : dict K V) (k k' : K) (v : V) :
  dict_get eqb (dict_set eqb d k v) k'
  = if eqb k k' then Some v else dict_get eqb d k'.
Proof.
  induction d as [| [k0 v0] d IH]; simpl.
  - reflexivity.
  - destruct (eqb k0 k) eqn:E0; simpl.
    + apply eqb_spec in E0. subst k0. destruct (eqb k k'); reflexivity.
    + destruct (eqb k0 k') eqn:E1; [| exact IH].
      apply eqb_spec in E1. subst k0.
      destruct (eqb k k') eqn:E2; [| reflexivity].
      apply eqb_spec in E2. subst k'. rewrite eqb_refl' in E0. discriminate.
Qed.

Lemma dict_get_in (d : dict K V) (k : K) (v : V) :
  NoDup (map fst d) -> In (k, v) d -> dict_get eqb d k = Some v.
Proof.
  induction d as [| [k0 v0] d IH]; simpl; intros Hnd Hin; [contradiction |].
  inversion Hnd as [| ? ? Hnotin Hnd']; subst.
  destruct Hin as [Heq | Hin].
  - inversion Heq; subst. rewrite eqb_refl'. reflexivity.
  - destruct (eqb k0 k) eqn:E; [| auto].
    apply eqb_spec in E. subst k0. exfalso. apply Hnotin.
    apply in_map_iff. exists (k, v). auto.
Qed.

Lemma dict_get_some_in (d : dict K V) (k : K) (v : V) :
  dict_get eqb d k = Some v -> In (k, v) d.
Proof.
  induction d as [| [k0 v0] d IH]; simpl; [discriminate |].
  destruct (eqb k0 k) eqn:E; [| auto].
  apply eqb_spec in E. subst k0. intros H. inversion H. auto.
Qed.

Lemma dict_set_Forall (P : K * V -> Prop) (d : dict K V) (k : K) (v : V) :
  Forall P d -> P (k, v) -> Forall P (dict_set eqb d k v).
Proof.
  intros Hd Hkv. induction Hd as [| [k0 v0] d H0 Hd IH]; simpl.
  - constructor; [exact Hkv | constructor].
  - destruct (eqb k0 k) eqn:E.
    + apply eqb_spec in E. subst k0. constructor; assumption.
    + constructor; assumption.
Qed.

Lemma dict_set_nodup (d : dict K V) (k : K) (v : V) :
  NoDup (map fst d) -> NoDup (map fst (dict_set eqb d k v)).
Proof.
  intros Hnd. rewrite dict_set_keys.
  destruct (existsb _ _) eqn:E; [exact Hnd |].
  apply NoDup_app_cons_nil; [exact Hnd |].
  apply existsb_exists_false, E.
Qed.

End DictFacts.

(** ** Stores reached by ingest *)

(** A step of the loop either skips the record or adds one conversation,
    whose [create_time] converts to a date, to the three structures. *)
Lemma ingest_inv (st st' : service) (conv : json) :
  ingest st conv = Ok st' ->
  st' = st \/
  exists c dt,
    fromtimestamp (create_time c) = Ok dt /\
    hashable (id c) = true /\
    st' = mkService (conversations st ++ [c])
            (dict_set String.eqb (by_date st) (strftime_ymd dt)
               (dict_get_default String.eqb (by_date st) (strftime_ymd dt) []
                ++ [c]))
            (dict_set key_eqb (by_id st) (id c) c).
Proof.
  unfold ingest. intros H. apply bind_ok in H as (ct & Hct & H).
  assert (Hstep :
    (cid <- get_default conv "conversation_id" (JStr "") ;;
     i <- get_default conv "id" cid ;;
     t <- get_default conv "title" (JStr "") ;;
     ut <- get_default conv "update_time" ct ;;
     mo <- get conv "default_model_slug" ;;
     ma <- get_default conv "mapping" (JObj []) ;;
     ar <- get_default conv "is_archived" (JBool false) ;;
     let c := mkConversation i t ct ut mo ma ar in
     if hashable i then
       dt <- fromtimestamp ct ;;
       let date_key := strftime_ymd dt in
       let bucket := dict_get_default String.eqb (by_date st) date_key [] in
       Ok (mkService (conversations st ++ [c])
             (dict_set String.eqb (by_date st) date_key (bucket ++ [c]))
             (dict_set key_eqb (by_id st) i c))
     else Raise TypeError) = Ok st' \/ st' = st).
  { destruct ct; try (left; exact H). right. inversion H. reflexivity. }
  clear H. destruct Hstep as [H | ->]; [right | left; reflexivity].
  unbind H. cbv zeta in H.
  destruct (hashable x0) eqn:Hh; [| discriminate].
  apply bind_ok in H as (dt & Hdt & H). inversion H; subst; clear H.
  eexists (mkConversation x0 x1 ct x2 x3 x4 x5), dt. simpl. auto.
Qed.

Lemma distinct_keys_snoc (l : list json) (k : json) :
  distinct_keys (l ++ [k])
  = if existsb (fun k' => key_eqb k' k) (distinct_keys l) then distinct_keys l
    else distinct_keys l ++ [k].
Proof. unfold distinct_keys. rewrite fold_left_app. reflexivity. Qed.

Lemma on_day_of (c : Conversation) (d k : string) :
  day_of c = Some k -> on_day d c = String.eqb k d.
Proof. unfold on_day. intros ->. reflexivity. Qed.

Lemma empty_loaded : loaded empty_service.
Proof.
  constructor; simpl.
  - constructor.
  - reflexivity.
  - constructor.
  - constructor.
  - reflexivity.
Qed.

Lemma ingest_loaded (st st' : service) (conv : json) :
  loaded st -> ingest st conv = Ok st' -> loaded st'.
Proof.
  intros [Hdated Hbuckets Hdays Hnodup Hids] H.
  apply ingest_inv in H as [-> | (c & dt & Hdt & Hh & ->)];
    [constructor; assumption |].
  assert (Hday : day_of c = Some (strftime_ymd dt))
    by (unfold day_of; rewrite Hdt; reflexivity).
  constructor; simpl.
  - apply Forall_app. split; [exact Hdated |].
    constructor; [congruence | constructor].
  - intros d. unfold dict_get_default at 1.
    rewrite (dict_get_set String.eqb String.eqb_eq).
    rewrite filter_app. cbn [filter]. rewrite (on_day_of c d Hday).
    destruct (String.eqb (strftime_ymd dt) d) eqn:E.
    + apply String.eqb_eq in E. subst d. rewrite Hbuckets. reflexivity.
    + rewrite app_nil_r. apply Hbuckets.
  - apply (dict_set_Forall String.eqb String.eqb_eq); [exact Hdays |].
    exists c. simpl. split; [| exact Hday].
    apply in_or_app. right. left. reflexivity.
  - apply (dict_set_nodup String.eqb String.eqb_eq), Hnodup.
  - rewrite dict_set_keys, map_app. cbn [map].
    rewrite distinct_keys_snoc, Hids. reflexivity.
Qed.

Lemma ingest_all_loaded (data : list json) :
  forall st st', loaded st -> ingest_all st data = Ok st' -> loaded st'.
Proof.
  induction data as [| conv data IH]; simpl; intros st st' Hst H.
  - inversion H; subst. exact Hst.
  - apply bind_ok in H as (st1 & H1 & H).
    eapply IH; [| exact H]. eapply ingest_loaded; eauto.
Qed.

Lemma load_data_loaded (data : list json) (st : service) :
  _load_data data = Ok st -> loaded st.
Proof. apply ingest_all_loaded, empty_loaded. Qed.

(** ** Timestamps and days *)

Lemma round_half_even_near (q : Q) :
  (Qabs (inject_Z (round_half_even q) - q) <= 1 # 2)%Q.
Proof.
  unfold round_half_even.
  pose proof (Qfloor_le q) as H1. pose proof (Qlt_floor q) as H2.
  rewrite inject_Z_plus in H2. change (inject_Z 1) with 1%Q in H2.
  set (f := Qfloor q) in *.
  apply Qabs_Qle_condition.
  destruct (Qcompare_spec (q - inject_Z f) (1 # 2)) as [E | E | E].
  - destruct (Z.even f);
      [| rewrite inject_Z_plus; change (inject_Z 1) with 1%Q]; split; lra.
  - split; lra.
  - rewrite inject_Z_plus. change (inject_Z 1) with 1%Q. split; lra.
Qed.

Lemma Qpow2_pos (p : Z) : (0 < Qpow2 p)%Q.
Proof.
  unfold Qpow2. destruct (Z.leb_spec 0 p) as [H | H].
  - change 0%Q with (inject_Z 0). rewrite <- Zlt_Qlt.
    apply Z.pow_pos_nonneg; lia.
  - reflexivity.
Qed.

Lemma Qpow2_le_1 (p : Z) : (p <= 0)%Z -> (Qpow2 p <= 1)%Q.
Proof.
  intros Hp. unfold Qpow2. destruct (Z.leb_spec 0 p) as [H | H].
  - assert (p = 0%Z) by lia. subst p. apply Qle_refl.
  - unfold Qle. cbn [Qnum Qden].
    assert (0 < 2 ^ (- p))%Z by (apply Z.pow_pos_nonneg; lia).
    destruct (2 ^ (- p))%Z as [| k | k]; cbn [Z.to_pos]; lia.
Qed.

(** Below [1e6] in magnitude a double is at most a half away from the
    number it rounds. *)
Lemma round_double_near (x : Q) :
  (Qabs x < inject_Z 1000000)%Q -> (Qabs (round_double x - x) <= 1 # 2)%Q.
Proof.
  intros Hx. unfold round_double. destruct (Qeq_bool x 0) eqn:E0.
  - apply Qeq_bool_iff in E0. rewrite E0. apply Qabs_Qle_condition. split; lra.
  - set (p := Z.max (ilog2 x - 52) (-1074)).
    assert (Hp : (p <= 0)%Z).
    { unfold p. apply Z.max_lub; [| lia].
      assert (ilog2 x <= 20)%Z; [| lia].
      unfold ilog2.
      assert (Z.log2 (Z.abs (Qnum x)) - Z.log2 (Z.pos (Qden x)) <= 20)%Z.
      { assert (Hn : (Z.abs (Qnum x) < 1000000 * Z.pos (Qden x))%Z).
        { unfold Qlt in Hx. destruct x as [n d].
          cbn [Qabs Qnum Qden inject_Z] in *. lia. }
        pose proof (Z.log2_le_mono (Z.abs (Qnum x)) (1000000 * Z.pos (Qden x))
                      ltac:(lia)) as L1.
        pose proof (Z.log2_mul_above 1000000 (Z.pos (Qden x))
                      ltac:(lia) ltac:(lia)) as L2.
        change (Z.log2 1000000) with 19%Z in L2. lia. }
      destruct (Qle_bool _ _); lia. }
    pose proof (Qpow2_pos p) as Hpos. pose proof (@Qpow2_le_1 p Hp) as Hle.
    set (u := Qpow2 p) in *.
    pose proof (round_half_even_near (x / u)) as Hr.
    set (r := inject_Z (round_half_even (x / u))) in *.
    assert (Ex : (x == (x / u) * u)%Q) by (field; lra).
    apply Qabs_Qle_condition in Hr. destruct Hr as [Hr1 Hr2].
    apply Qabs_Qle_condition.
    assert (G1 : ((r - x / u) * u <= (1 # 2) * u)%Q)
      by (apply Qmult_le_compat_r; lra).
    assert (G2 : ((- (1 # 2)) * u <= (r - x / u) * u)%Q)
      by (apply Qmult_le_compat_r; lra).
    assert (Er : (r * u - x == (r - x / u) * u)%Q).
    { rewrite Ex at 1. ring. }
    rewrite Er. split; lra.
Qed.

Lemma Qtrunc_near (t : Q) : (Qabs (t - inject_Z (Qtrunc t)) < 1)%Q.
Proof.
  unfold Qtrunc. destruct (Qle_bool 0 t).
  - pose proof (Qfloor_le t). pose proof (Qlt_floor t) as H2.
    rewrite inject_Z_plus in H2. change (inject_Z 1) with 1%Q in H2.
    apply Qabs_Qlt_condition. split; lra.
  - pose proof (Qle_ceiling t). pose proof (Qceiling_lt t) as H2.
    unfold Z.sub in H2.
    rewrite inject_Z_plus, inject_Z_opp in H2.
    change (inject_Z 1) with 1%Q in H2.
    apply Qabs_Qlt_condition. split; lra.
Qed.

(** The microsecond that [fromtimestamp] reads is at most one
    microsecond away from the timestamp. *)
Lemma micros_near (t : Q) :
  (Qabs (inject_Z (micros t) - t * inject_Z 1000000) <= 1)%Q.
Proof.
  unfold micros. set (w := Qtrunc t).
  set (x := ((t - inject_Z w) * inject_Z 1000000)%Q).
  assert (Hx : (Qabs x < inject_Z 1000000)%Q).
  { unfold x. rewrite Qabs_Qmult.
    pose proof (Qtrunc_near t) as Hw. fold w in Hw.
    change (Qabs (inject_Z 1000000)) with (inject_Z 1000000).
    rewrite <- (Qmult_1_l (inject_Z 1000000)) at 2.
    apply Qmult_lt_compat_r; [reflexivity | exact Hw]. }
  pose proof (@round_double_near x Hx) as H1.
  pose proof (round_half_even_near (round_double x)) as H2.
  set (y := round_double x) in *. set (z := round_half_even y) in *.
  rewrite inject_Z_plus, inject_Z_mult.
  apply Qabs_Qle_condition in H1, H2. apply Qabs_Qle_condition.
  assert (E : (inject_Z w * inject_Z 1000000 + inject_Z z
               - t * inject_Z 1000000 == inject_Z z - x)%Q)
    by (unfold x; ring).
  rewrite E. split; lra.
Qed.

(** The date of a converted timestamp is that of the day of its
    microsecond. *)
#[local] Unset Implicit Arguments.
Lemma utc_of_number_key (t : Q) (dt : datetime) :
  utc_of_number t = Ok dt ->
  strftime_ymd dt = date_key (day_number (micros t)).
Proof.
  unfold utc_of_number, date_key, day_number.
  generalize (micros t). intros us.
  replace (us / 86400000000)%Z with (us / 1000000 / 86400)%Z
    by (rewrite Z.div_div; [reflexivity | lia | lia]).
  destruct (civil_from_days (us / 1000000 / 86400)) as [[y m] d].
  destruct ((1 <=? y)%Z && (y <=? 9999)%Z); [| discriminate].
  intros H. injection H as <-. reflexivity.
Qed.
#[local] Set Implicit Arguments.

(** A stored [create_time] is a number and converts to a date. *)
Lemma day_of_number (c : Conversation) :
  day_of c <> None ->
  number (create_time c) = Some (time_of c) /\
  exists dt, fromtimestamp (create_time c) = Ok dt.
Proof.
  unfold day_of, time_of, fromtimestamp.
  destruct (number (create_time c));
    [| destruct (create_time c); congruence].
  destruct (utc_of_number q); [eauto | congruence].
Qed.

Lemma day_of_key (c : Conversation) :
  day_of c <> None ->
  day_of c = Some (date_key (day_number (micros (time_of c)))).
Proof.
  intros H. pose proof (@day_of_number c H) as [Hn [dt Hdt]].
  unfold day_of in *. rewrite Hdt. f_equal.
  unfold fromtimestamp in Hdt. rewrite Hn in Hdt.
  exact (utc_of_number_key _ _ Hdt).
Qed.

Lemma on_day_falls_on (d : string) (c : Conversation) :
  day_of c <> None -> on_day d c = falls_on d c.
Proof.
  intros H. unfold on_day, falls_on. rewrite (@day_of_key c H). reflexivity.
Qed.

(** ** Per-day listing *)

Lemma on_day_iff (d : string) (c : Conversation) :
  on_day d c = true <-> day_of c = Some d.
Proof.
  unfold on_day. destruct (day_of c) as [k |].
  - rewrite String.eqb_eq. split; congruence.
  - split; discriminate.
Qed.

(** The key of the listing's sort: [-c.create_time]. *)
Lemma neg_time (c : Conversation) :
  day_of c <> None ->
  exists v, neg (create_time c) = Ok v /\
            ordered v = Ok (Fin (- time_of c)).
Proof.
  intros H. apply day_of_number in H as [H _]. unfold time_of.
  destruct (create_time c) as [| b | n | q | x | s | l | f];
    try discriminate H; cbn [neg number].
  - destruct b; eexists; split; reflexivity.
  - eexists. split; reflexivity.
  - eexists. split; reflexivity.
Qed.

Lemma convs_sorted_dated (l : list Conversation) :
  Forall (fun c => day_of c <> None) l ->
  sorted_by_number (fun c => neg (create_time c)) l
  = Ok (sort_on Qle_bool (fun c => (- time_of c)%Q) l).
Proof.
  intros H. rewrite <- sort_on_fin.
  apply (sorted_by_number_pure (fun c => neg (create_time c))
           (fun c => match neg (create_time c) with
                     | Ok v => v
                     | Raise _ => JNull
                     end)).
  - intros c Hc. rewrite Forall_forall in H.
    destruct (@neg_time c (H c Hc)) as (v & -> & _). reflexivity.
  - intros c Hc. rewrite Forall_forall in H.
    destruct (@neg_time c (H c Hc)) as (v & -> & Hv). exact Hv.
Qed.

(** C5 (as amended).  In a store reached by ingest, for every day
    string, the per-day query returns (never raises) the conversations
    whose [create_time], rounded to the microsecond as
    [datetime.fromtimestamp] rounds it, falls on the UTC calendar day
    with that key, each as often as it was ingested, in descending order
    of [create_time], conversations of equal [create_time] in the order
    of ingest; the sequence is empty when no conversation falls on the
    day.  The rounded instant is at most one microsecond away from
    [create_time]. *)
Theorem C5_by_date_newest_first (data : list json) (st : service) (d : string) :
  _load_data data = Ok st ->
  exists l,
    convs_sorted st d = Ok l /\
    l = sort_on Qle_bool (fun c => (- time_of c)%Q)
          (filter (falls_on d) (conversations st)) /\
    Permutation l (filter (falls_on d) (conversations st)) /\
    StronglySorted (fun a b => (time_of b <= time_of a)%Q) l /\
    (forall c, In c l <->
               In c (conversations st) /\
               date_key (day_number (micros (time_of c))) = d) /\
    (forall c, In c (conversations st) ->
               number (create_time c) = Some (time_of c) /\
               (Qabs (inject_Z (micros (time_of c))
                      - time_of c * inject_Z 1000000) <= 1)%Q) /\
    ((forall c, In c (conversations st) ->
                date_key (day_number (micros (time_of c))) <> d) -> l = []).
Proof.
  intros H. apply load_data_loaded in H as [Hdated Hbuckets _ _ _].
  set (bucket := filter (falls_on d) (conversations st)).
  set (f := fun c : Conversation => (- time_of c)%Q).
  assert (Eb : filter (on_day d) (conversations st) = bucket).
  { apply filter_ext_in. intros c Hc. rewrite Forall_forall in Hdated.
    apply on_day_falls_on, Hdated, Hc. }
  assert (Hsorted : convs_sorted st d = Ok (sort_on Qle_bool f bucket)).
  { unfold convs_sorted. rewrite Hbuckets, Eb. apply convs_sorted_dated.
    apply Forall_forall. intros c Hc. apply filter_In in Hc as [Hc _].
    rewrite Forall_forall in Hdated. auto. }
  assert (Hperm : Permutation (sort_on Qle_bool f bucket) bucket)
    by apply sort_on_perm.
  assert (Hin : forall c, In c (sort_on Qle_bool f bucket)
                          <-> In c (conversations st)
                              /\ date_key (day_number (micros (time_of c))) = d).
  { intros c. rewrite <- String.eqb_eq. fold (falls_on d c).
    unfold bucket in Hperm |- *.
    rewrite <- filter_In. split; apply Permutation_in;
      [exact Hperm | symmetry; exact Hperm]. }
  exists (sort_on Qle_bool f bucket).
  split; [exact Hsorted |]. split; [reflexivity |]. split; [exact Hperm |].
  split; [| split; [exact Hin | split]].
  - eapply StronglySorted_nth_mono;
      [| apply sort_on_sorted; [apply Qle_bool_total | apply Qle_bool_trans]].
    intros a b Hab. apply Qle_bool_iff in Hab. unfold f in Hab.
    apply Qopp_le_compat in Hab. rewrite !Qopp_involutive in Hab. exact Hab.
  - intros c Hc. rewrite Forall_forall in Hdated.
    split; [exact (proj1 (@day_of_number c (Hdated c Hc))) | apply micros_near].
  - intros Hnone. destruct (sort_on Qle_bool f bucket) as [| c l] eqn:E;
      [reflexivity |].
    exfalso. destruct (proj1 (Hin c) (or_introl eq_refl)) as [Hc Hd].
    exact (Hnone c Hc Hd).
Qed.

(** C10.  Whatever string is passed as the date, well-formed or not, when
    no bucket has that exact key the listing is the response that echoes
    the string with an empty list of conversations; nothing is raised. *)
Theorem C10_unknown_date_empty_listing (st : service) (d : string) :
  dict_get String.eqb (by_date st) d = None ->
  get_conversations_by_date st d = Ok (mkList d []).
Proof.
  intros H. unfold get_conversations_by_date, convs_sorted, dict_get_default.
  rewrite H. reflexivity.
Qed.

Lemma C10_witness :
  dict_get String.eqb (by_date example_service) "not a date"%string = None /\
  get_conversations_by_date example_service "not a date"%string
  = Ok (mkList "not a date"%string []).
Proof.
  split; [reflexivity |].
  apply (C10_unknown_date_empty_listing example_service "not a date"%string).
  reflexivity.
Defined.

(** ** Primary keys *)

Lemma existsb_forallb_negb {A : Type} (p : A -> bool) (l : list A) :
  existsb p l = negb (forallb (fun x => negb (p x)) l).
Proof.
  induction l as [| x l IH]; simpl; [reflexivity |].
  rewrite IH. destruct (p x); reflexivity.
Qed.

Lemma all_distinct_snoc (l : list json) (k : json) :
  all_distinct (l ++ [k])
  = all_distinct l && forallb (fun k' => negb (key_eqb k' k)) l.
Proof.
  induction l as [| a l IH]; simpl; [reflexivity |].
  rewrite forallb_app, IH. simpl.
  destruct (forallb (fun k' => negb (key_eqb a k')) l),
    (key_eqb a k), (all_distinct l),
    (forallb (fun k' => negb (key_eqb k' k)) l); reflexivity.
Qed.




(** * Further properties of the service *)

Unset Implicit Arguments.

(** ** Ingest as a filter and a map *)

Lemma ingest_object (st : service) (fields : list (string * json)) :
  ingest st (JObj fields)
  = match field "create_time" JNull fields with
    | JNull => Ok st
    | _ =>
        let c := conversation_of fields in
        if hashable (id c) then
          dt <- fromtimestamp (create_time c) ;;
          Ok (mkService (conversations st ++ [c])
                (dict_set String.eqb (by_date st) (strftime_ymd dt)
                   (dict_get_default String.eqb (by_date st)
                      (strftime_ymd dt) [] ++ [c]))
                (dict_set key_eqb (by_id st) (id c) c))
        else Raise TypeError
    end.
Proof. reflexivity. Qed.

Lemma ingest_not_object (st : service) (conv : json) :
  is_obj conv = false -> ingest st conv = Raise AttributeError.
Proof. destruct conv; try discriminate; reflexivity. Qed.

Lemma ingest_conversations (st st' : service) (conv : json) :
  ingest st conv = Ok st' ->
  conversations st' = conversations st ++ dated [conv].
Proof.
  destruct conv as [| | | | | | | fields];
    try (intros H; discriminate H).
  rewrite ingest_object. cbn [dated].
  destruct (field "create_time" JNull fields) eqn:E;
    [intros H; inversion H; subst; symmetry; apply app_nil_r | ..];
    cbv zeta; destruct (hashable _); try (intros H; discriminate H);
    intros H; apply bind_ok in H as (dt & _ & H); inversion H; reflexivity.
Qed.

Lemma dated_cons (conv : json) (data : list json) :
  dated (conv :: data) = dated [conv] ++ dated data.
Proof.
  destruct conv as [| | | | | | | fields]; try reflexivity.
  cbn [dated]. destruct (field "create_time" JNull fields); reflexivity.
Qed.

Lemma ingest_all_conversations (data : list json) :
  forall st st', ingest_all st data = Ok st' ->
                 conversations st' = conversations st ++ dated data.
Proof.
  induction data as [| conv data IH]; intros st st' H.
  - inversion H. symmetry. apply app_nil_r.
  - cbn [ingest_all] in H. apply bind_ok in H as (st1 & H1 & H).
    rewrite (IH _ _ H), (ingest_conversations _ _ _ H1), (dated_cons conv data).
    symmetry. apply app_assoc.
Qed.

Lemma load_data_conversations (data : list json) (st : service) :
  _load_data data = Ok st -> conversations st = dated data.
Proof. intros H. apply ingest_all_conversations in H. exact H. Qed.

(** The conversations of a loaded store are the records that have a
    [create_time], in input order, each built with the defaults of
    [conversation_of]; the total of the statistics is their number. *)
Theorem load_data_keeps_dated_records_in_order
    (data : list json) (st : service) :
  _load_data data = Ok st ->
  conversations st = dated data /\
  forall r, get_stats st = Ok r ->
            totalConversations r = List.length (dated data).
Proof.
  intros H. apply ingest_all_conversations in H. simpl in H.
  split; [exact H |].
  intros r Hr. apply get_stats_total in Hr as (_ & _ & _ & ->).
  rewrite H. reflexivity.
Qed.

(** ** When the load succeeds *)

Lemma ingest_good (st : service) (conv : json) :
  is_ok (ingest st conv) = good_record conv.
Proof.
  destruct conv as [| | | | | | | fields]; try reflexivity.
  rewrite ingest_object. cbn [good_record].
  cbv zeta. cbn [create_time conversation_of].
  destruct (hashable (id (conversation_of fields)));
    destruct (field "create_time" JNull fields); try reflexivity;
    cbn [andb]; destruct (fromtimestamp _); reflexivity.
Qed.

(** The load returns a store exactly when every record is an object
    that either has no [create_time] or has a hashable id and a
    [create_time] that converts to a UTC datetime; one record that is not
    makes the whole load raise. *)
Theorem load_data_succeeds_iff_all_records_good (data : list json) :
  is_ok (_load_data data) = forallb good_record data.
Proof.
  unfold _load_data. generalize empty_service.
  induction data as [| conv data IH]; intros st; [reflexivity |].
  cbn [ingest_all forallb]. rewrite <- (ingest_good st conv).
  destruct (ingest st conv) as [st1 | e]; cbn [bind is_ok andb];
    [apply IH | reflexivity].
Qed.

(** ** Equality of dictionary keys *)

Lemma special_eqb_eq (x y : special) : special_eqb x y = true <-> x = y.
Proof.
  destruct x as [| s], y as [| t]; cbn [special_eqb];
    try (split; [discriminate | discriminate]); [tauto |].
  rewrite Bool.eqb_true_iff. split; congruence.
Qed.

Lemma key_eqb_sym (a b : json) : key_eqb a b = key_eqb b a.
Proof.
  assert (Q : forall p q, Qeq_bool p q = Qeq_bool q p).
  { intros p q. apply eq_true_iff_eq. rewrite !Qeq_bool_iff.
    split; intros H; symmetry; exact H. }
  destruct a, b; cbn [key_eqb number]; try reflexivity; try apply Q.
  - apply eq_true_iff_eq. rewrite !special_eqb_eq. split; congruence.
  - apply String.eqb_sym.
Qed.

Lemma key_eqb_number (a b : json) :
  key_eqb a b = true ->
  (a = JNull /\ b = JNull) \/
  (exists s, a = JStr s /\ b = JStr s) \/
  (exists x, a = JSpecial x /\ b = JSpecial x) \/
  (exists p q, number a = Some p /\ number b = Some q /\ (p == q)%Q).
Proof.
  destruct a, b; cbn [key_eqb number]; intros H; try discriminate H;
    try (left; split; reflexivity);
    try (right; right; right; do 2 eexists; repeat split;
         apply Qeq_bool_iff; exact H).
  - right; right; left. apply special_eqb_eq in H. subst. eauto.
  - right; left. apply String.eqb_eq in H. subst. eauto.
Qed.

Lemma key_eqb_of_number (a b : json) (p q : Q) :
  number a = Some p -> number b = Some q -> (p == q)%Q -> key_eqb a b = true.
Proof.
  intros Ha Hb Hpq. apply Qeq_bool_iff in Hpq.
  destruct a; try discriminate Ha; destruct b; try discriminate Hb;
    cbn [key_eqb number] in *; inversion Ha; inversion Hb; subst; exact Hpq.
Qed.

Lemma key_eqb_trans (a b c : json) :
  key_eqb a b = true -> key_eqb b c = true -> key_eqb a c = true.
Proof.
  intros Hab Hbc.
  apply key_eqb_number in Hab
    as [[-> ->] | [(s & -> & ->) | [(x & -> & ->) | (p & q & Ha & Hb & Hpq)]]];
    [exact Hbc | exact Hbc | exact Hbc |].
  apply key_eqb_number in Hbc
    as [[-> _] | [(s & -> & _) | [(x & -> & _) | (q' & r & Hb' & Hc & Hqr)]]];
    try discriminate Hb.
  rewrite Hb in Hb'. inversion Hb'; subst q'.
  eapply key_eqb_of_number; eauto. rewrite Hpq. exact Hqr.
Qed.

Lemma key_eqb_refl (a : json) : hashable a = true -> key_eqb a a = true.
Proof.
  destruct a; cbn [hashable key_eqb number]; intros H; try discriminate H;
    try reflexivity; try (apply Qeq_bool_iff; reflexivity).
  - apply special_eqb_eq. reflexivity.
  - apply String.eqb_refl.
Qed.

(** Assignment then lookup, for keys compared by [key_eqb]. *)
Lemma dict_get_set_key {V : Type} (d : dict json V) (i k : json) (v : V) :
  dict_get key_eqb (dict_set key_eqb d i v) k
  = if key_eqb i k then Some v else dict_get key_eqb d k.
Proof.
  induction d as [| [k0 v0] d IH]; cbn [dict_set dict_get]; [reflexivity |].
  destruct (key_eqb k0 i) eqn:E0; cbn [dict_get].
  - destruct (key_eqb i k) eqn:E1.
    + rewrite (key_eqb_trans _ _ _ E0 E1). reflexivity.
    + destruct (key_eqb k0 k) eqn:E2; [| reflexivity].
      rewrite key_eqb_sym in E0.
      rewrite (key_eqb_trans _ _ _ E0 E2) in E1. discriminate E1.
  - destruct (key_eqb k0 k) eqn:E2; [| exact IH].
    destruct (key_eqb i k) eqn:E1; [| reflexivity].
    rewrite (key_eqb_sym i k) in E1.
    rewrite (key_eqb_trans _ _ _ E2 E1) in E0. discriminate E0.
Qed.

(** ** Lookup by id *)

Lemma ingest_all_by_id (data : list json) :
  forall st st',
    (forall k, dict_get key_eqb (by_id st) k = latest k (conversations st)) ->
    ingest_all st data = Ok st' ->
    forall k, dict_get key_eqb (by_id st') k = latest k (conversations st').
Proof.
  induction data as [| conv data IH]; intros st st' Hst H.
  - inversion H; subst. exact Hst.
  - cbn [ingest_all] in H. apply bind_ok in H as (st1 & H1 & H).
    apply (IH st1 st'); [| exact H]. clear IH H.
    apply ingest_inv in H1 as [-> | (c & dt & _ & _ & ->)]; [exact Hst |].
    intros k. cbn [by_id conversations]. unfold latest.
    rewrite dict_get_set_key, rev_app_distr. cbn [rev app find].
    destruct (key_eqb (id c) k); [reflexivity | apply Hst].
Qed.

Lemma by_id_lookup_latest (data : list json) (st : service) (k : json) :
  _load_data data = Ok st ->
  dict_get key_eqb (by_id st) k = latest k (dated data).
Proof.
  intros H. rewrite <- (@load_data_conversations data st H).
  revert k. eapply ingest_all_by_id; [| exact H]. reflexivity.
Qed.


(** After ingest a lookup in [by_id] finds the conversation that was
    ingested last under that id (as keys compare), or nothing when no
    ingested conversation has it: a later record replaces an earlier one
    with the same id in detail lookups, while both stay in the sequence
    that statistics and per-day listings read. *)
Theorem by_id_holds_latest_conversation
    (data : list json) (st : service) (k : json) :
  _load_data data = Ok st ->
  dict_get key_eqb (by_id st) k = latest k (dated data).
Proof.
  intros H. apply by_id_lookup_latest, H.
Qed.

(** ** Conversation detail *)

Lemma py_or_truthy (x y : json) : truthy y = true -> truthy (py_or x y) = true.
Proof. unfold py_or. destruct (truthy x) eqn:E; auto. Qed.

(** A detail request for an id that no ingested record has returns the
    not-found value without raising.  A detail that is returned describes
    the conversation ingested last under the id: its messages are the
    linearisation of that conversation's tree, its title is never empty
    (the placeholder stands in), and when the record had no
    [update_time] its [updateTime] is its [createTime]. *)
Theorem get_conversation_describes_latest
    (py_str : json -> string) (data : list json) (st : service)
    (conv_id : string) :
  _load_data data = Ok st ->
  (latest (JStr conv_id) (dated data) = None ->
   get_conversation py_str st conv_id = Ok None) /\
  (forall r, get_conversation py_str st conv_id = Ok (Some r) ->
     exists c,
       latest (JStr conv_id) (dated data) = Some c /\
       detail_id r = id c /\
       _linearize_messages py_str (mapping c) = Ok (messages r) /\
       truthy (detail_title r) = true /\
       (update_time c = create_time c ->
        detail_updateTime r = detail_createTime r)).
Proof.
  intros H. pose proof (@by_id_lookup_latest _ _ (JStr conv_id) H) as E.
  unfold get_conversation. rewrite E. split.
  - intros ->. reflexivity.
  - intros r Hr. destruct (latest (JStr conv_id) (dated data)) as [c |];
      [| inversion Hr].
    exists c. split; [reflexivity |].
    apply bind_ok in Hr as (msgs & Hmsgs & Hr).
    apply bind_ok in Hr as (ctime & Hc & Hr).
    apply bind_ok in Hr as (utime & Hu & Hr).
    apply bind_ok in Hr as (i & Hi & Hr). apply bind_ok in Hr as (t & Ht & Hr).
    apply bind_ok in Hr as (mo & _ & Hr). apply bind_ok in Hr as (ar & _ & Hr).
    apply validated_inv in Hi as [-> _]. apply validated_inv in Ht as [-> _].
    inversion Hr; subst; clear Hr.
    cbn [detail_id detail_title detail_updateTime detail_createTime messages].
    split; [reflexivity |]. split; [exact Hmsgs |].
    split; [apply py_or_truthy; reflexivity |].
    intros Heq. rewrite Heq, Hc in Hu. inversion Hu. reflexivity.
Qed.

(** An [update_time] that is present but not a number (an explicit
    null, say) is kept as it is by ingest, and every detail request for
    that conversation then fails. *)
Theorem get_conversation_fails_on_bad_update_time
    (py_str : json -> string) (data : list json) (st : service)
    (conv_id : string) (c : Conversation) :
  _load_data data = Ok st ->
  latest (JStr conv_id) (dated data) = Some c ->
  number (update_time c) = None ->
  is_ok (get_conversation py_str st conv_id) = false.
Proof.
  intros H Hc Hu. pose proof (@by_id_lookup_latest _ _ (JStr conv_id) H) as E.
  unfold get_conversation. rewrite E, Hc.
  destruct (_linearize_messages py_str (mapping c)); [| reflexivity].
  cbn [bind]. destruct (fromtimestamp (create_time c)); [| reflexivity].
  cbn [bind]. unfold fromtimestamp at 1. rewrite Hu.
  destruct (update_time c); reflexivity.
Qed.

(** ** What linearisation reads *)

Lemma collect_payloads (py_str : json -> string)
    (nodes nodes' : list (string * json)) :
  map (fun kv => get (snd kv) "message") nodes
  = map (fun kv => get (snd kv) "message") nodes' ->
  collect py_str nodes = collect py_str nodes'.
Proof.
  revert nodes'. induction nodes as [| [i node] rest IH];
    intros [| [i' node'] rest'] H; try discriminate H; [reflexivity |].
  cbn [map snd] in H. inversion H as [[Hn Hr]]. cbn [collect].
  rewrite Hn, (IH _ Hr). reflexivity.
Qed.

(** Linearisation reads nothing of a tree but the [message] payloads of
    its nodes, in the order of the nodes: node ids and the parent and
    children links play no part. *)
Theorem linearize_reads_only_payloads (py_str : json -> string)
    (nodes nodes' : list (string * json)) :
  map (fun kv => get (snd kv) "message") nodes
  = map (fun kv => get (snd kv) "message") nodes' ->
  _linearize_messages py_str (JObj nodes)
  = _linearize_messages py_str (JObj nodes').
Proof.
  intros H. unfold _linearize_messages. cbn [items bind].
  rewrite (collect_payloads py_str _ _ H). reflexivity.
Qed.

Lemma linearize_reads_only_payloads_witness :
  _linearize_messages no_str example_mapping
  = _linearize_messages no_str relinked_mapping.
Proof.
  apply (@linearize_reads_only_payloads no_str
           [("root", JObj [("id", JStr "root"); ("message", JNull)]);
            text_node "m1" (JInt 1700000001) "Hello";
            text_node "m2" (JInt 1700000002) "World"]%string).
  reflexivity.
Defined.

(** ** Content and timestamp of a message *)

Lemma string_app_assoc (a b c : string) :
  ((a ++ b) ++ c = a ++ (b ++ c))%string.
Proof. induction a as [| x a IH]; cbn; [reflexivity | rewrite IH; reflexivity]. Qed.

Lemma string_app_nil_r (a : string) : (a ++ "" = a)%string.
Proof. induction a as [| x a IH]; cbn; [reflexivity | rewrite IH; reflexivity]. Qed.

Lemma join_parts_texts (py_str : json -> string) (l : list json) :
  forall acc,
    forallb has_text l = true ->
    join_parts py_str acc l = Ok (acc ++ concat_all (map text_of l))%string.
Proof.
  induction l as [| p l IH]; intros acc H.
  - cbn. rewrite string_app_nil_r. reflexivity.
  - cbn [forallb] in H. apply andb_true_iff in H as [Hp Hl].
    cbn [join_parts map concat_all fold_right].
    assert (Ht : part_text py_str p = Ok (text_of p)).
    { destruct p as [| | | | | s | | f]; try discriminate Hp; [reflexivity |].
      cbn [has_text part_text text_of] in *.
      destruct (assoc "text" f) as [[] |]; try discriminate Hp. reflexivity. }
    rewrite Ht. cbn [bind]. rewrite (IH _ Hl), string_app_assoc. reflexivity.
Qed.

(** When every element of [parts] is a string or a structured part with
    a string [text], the content of the message is these texts
    concatenated in the order of the parts, nothing in between. *)
Theorem content_concatenates_part_texts (py_str : json -> string)
    (f cf : list (string * json)) (parts : list json) (m : message) :
  message_of py_str (JObj f) = Ok m ->
  field "content" (JObj []) f = JObj cf ->
  field "parts" (JList []) cf = JList parts ->
  forallb has_text parts = true ->
  content m = concat_all (map text_of parts).
Proof.
  intros H Hc Hp Ht. unfold message_of, get, get_default in H.
  fold (field "content" (JObj []) f) in H. rewrite Hc in H. cbn [bind] in H.
  fold (field "parts" (JList []) cf) in H. rewrite Hp in H.
  assert (E : (if truthy (JList parts)
               then ps <- iter (JList parts) ;; join_parts py_str "" ps
               else Ok ""%string)
              = Ok (concat_all (map text_of parts))).
  { destruct parts as [| p l]; [reflexivity |].
    cbn [truthy iter bind]. rewrite (join_parts_texts py_str _ _ Ht).
    reflexivity. }
  rewrite E in H. cbn [bind] in H. unbind H. inversion H. reflexivity.
Qed.

Lemma content_concatenates_part_texts_witness :
  message_of no_str (JObj mixed_payload)
  = Ok (mkMessage (JStr "m") JNull JNull "see x = 1"
          (JFloat (17000000005 # 10))
          (Some "2023-11-14T22:13:20.500000+00:00"%string)) /\
  content (mkMessage (JStr "m") JNull JNull "see x = 1"
             (JFloat (17000000005 # 10))
             (Some "2023-11-14T22:13:20.500000+00:00"%string))
  = concat_all (map text_of
                  [JStr "see ";
                   JObj [("content_type", JStr "code");
                         ("text", JStr "x = 1")]]%string).
Proof.
  match goal with |- ?A /\ _ => assert (H : A) by (vm_compute; reflexivity) end.
  split; [exact H |].
  apply (@content_concatenates_part_texts no_str mixed_payload
           [("parts", JList [JStr "see ";
                             JObj [("content_type", JStr "code");
                                   ("text", JStr "x = 1")]])]%string
           _ _ H); reflexivity.
Defined.

Lemma number_positive_truthy (v : json) (q : Q) :
  number v = Some q -> (0 < q)%Q -> truthy v = true.
Proof.
  intros Hn Hq. destruct v; try discriminate Hn; cbn in Hn; inversion Hn; subst.
  - destruct b; [reflexivity |]. exfalso. revert Hq. apply Qlt_irrefl.
  - cbn [truthy]. destruct (Z.eqb_spec n 0); [| reflexivity].
    subst. exfalso. revert Hq. apply Qlt_irrefl.
  - cbn [truthy]. destruct (Qeq_bool q 0) eqn:E; [| reflexivity].
    apply Qeq_bool_iff in E. rewrite E in Hq. exfalso. revert Hq.
    apply Qlt_irrefl.
Qed.

Lemma try_range_bind {A B : Type} (r : result A) (g : A -> B)
    (ts0 : option B) :
  (dt <- try_range r ;; Ok (option_map g dt)) = Ok ts0 ->
  (r = Raise RangeError /\ ts0 = None) \/
  (exists dt, r = Ok dt /\ ts0 = Some (g dt)).
Proof.
  destruct r as [dt | []]; cbn [try_range bind option_map]; intros H;
    try discriminate H; inversion H; [right | left]; eauto.
Qed.

(** The rule of [timestamp_of], whatever the conversion and the
    formatting are. *)
Lemma timestamp_rule {D : Type} (conv : json -> result D)
    (convq : Q -> result D) (g : D -> string)
    (ct : json) (ts0 : option string) :
  (forall q, number ct = Some q -> conv ct = convq q) ->
  (number ct = None -> forall dt, conv ct <> Ok dt) ->
  (if truthy ct then
     positive <- gt_zero ct ;;
     if positive then
       dt <- try_range (conv ct) ;;
       Ok (option_map g dt)
     else Ok None
   else Ok None) = Ok ts0 ->
  forall ts, ts0 = Some ts <->
    exists q dt, number ct = Some q /\ (0 < q)%Q /\
                 convq q = Ok dt /\ ts = g dt.
Proof.
  intros Hq Hnone H ts. destruct (truthy ct) eqn:Ht.
  - unfold gt_zero in H. destruct (number ct) as [q |] eqn:Hn.
    + rewrite (Hq q eq_refl) in H.
      cbn [bind] in H. destruct (Qle_bool q 0) eqn:Hle; cbn [negb] in H.
      * inversion H; subst. split; [discriminate |].
        intros (q' & dt & Hq' & Hpos & _). inversion Hq'; subst q'.
        apply Qle_bool_iff in Hle. exfalso. exact (Qlt_not_le _ _ Hpos Hle).
      * assert (Hpos : (0 < q)%Q).
        { apply Qnot_le_lt. intros Hc. apply Qle_bool_iff in Hc. congruence. }
        apply try_range_bind in H as [[Hdt ->] | (dt & Hdt & ->)].
        -- split; [discriminate |].
           intros (q' & dt' & Hq' & _ & Hdt' & _).
           inversion Hq'; subst q'. rewrite Hdt in Hdt'. discriminate Hdt'.
        -- split.
           ++ intros E. inversion E. exists q, dt. auto.
           ++ intros (q' & dt' & Hq' & _ & Hdt' & ->).
              inversion Hq'; subst q'. rewrite Hdt in Hdt'. inversion Hdt'.
              reflexivity.
    + assert (E : ts0 = None).
      { specialize (Hnone eq_refl).
        destruct ct as [| | | | [| []] | | |]; try discriminate H;
          cbn [bind] in H; try (inversion H; reflexivity).
        apply try_range_bind in H as [[_ ->] | (dt & Hdt & _)];
          [reflexivity | exfalso; exact (Hnone dt Hdt)]. }
      subst ts0. split; [discriminate |].
      intros (q & dt & Hq' & _). discriminate Hq'.
  - inversion H; subst. split; [discriminate |].
    intros (q & dt & Hq' & Hpos & _).
    rewrite (number_positive_truthy _ _ Hq' Hpos) in Ht. discriminate Ht.
Qed.

(** On a number the rule gives a result when the conversion can only
    fail with an error of the classes that the [try] catches. *)
Lemma timestamp_total {D : Type} (conv : json -> result D) (g : D -> string)
    (ct : json) :
  is_number ct = true ->
  (conv ct = Raise RangeError \/ exists dt, conv ct = Ok dt) ->
  exists ts0,
    (if truthy ct then
       positive <- gt_zero ct ;;
       if positive then
         dt <- try_range (conv ct) ;;
         Ok (option_map g dt)
       else Ok None
     else Ok None) = Ok ts0.
Proof.
  intros Hn Hc. destruct (truthy ct); [| eexists; reflexivity].
  assert (Hg : exists b, gt_zero ct = Ok b).
  { unfold gt_zero. destruct ct as [| | | | [| []] | | |];
      try discriminate Hn; cbn [number]; eexists; reflexivity. }
  destruct Hg as [b ->]. cbn [bind].
  destruct b; [| eexists; reflexivity].
  destruct Hc as [-> | [dt ->]]; eexists; reflexivity.
Qed.

Lemma fromtimestamp_number (x : json) (t : Q) :
  number x = Some t -> fromtimestamp x = utc_of_number t.
Proof. unfold fromtimestamp. intros ->. reflexivity. Qed.

Lemma fromtimestamp_cases (ct : json) :
  is_number ct = true ->
  fromtimestamp ct = Raise RangeError \/ exists dt, fromtimestamp ct = Ok dt.
Proof.
  intros Hn. unfold fromtimestamp.
  destruct (number ct) as [q |] eqn:E.
  - destruct (utc_of_number_cases q) as [H | H]; [right | left]; exact H.
  - left. destruct ct; try discriminate Hn; try discriminate E. reflexivity.
Qed.

Lemma fromtimestamp_not_number (ct : json) :
  number ct = None -> forall dt, fromtimestamp ct <> Ok dt.
Proof.
  intros E dt. unfold fromtimestamp. rewrite E. destruct ct; discriminate.
Qed.

Lemma timestamp_of_some (ct : json) (ts0 : option string) :
  timestamp_of ct = Ok ts0 ->
  forall ts, ts0 = Some ts <->
    exists q dt, number ct = Some q /\ (0 < q)%Q /\
                 utc_of_number q = Ok dt /\ ts = isoformat dt.
Proof.
  apply (timestamp_rule fromtimestamp utc_of_number isoformat ct ts0).
  - intros q Hq. apply fromtimestamp_number, Hq.
  - apply fromtimestamp_not_number.
Qed.

(** The timestamp of a [create_time] that is a number always exists,
    whether the conversion to a datetime succeeds or not: it is present
    exactly when the number is finite, strictly positive and has a UTC
    datetime (year 1 to 9999), and then it is the ISO form of that
    datetime; a failing conversion is absorbed, not raised.  The raw
    [create_time] of the payload is kept in the message as it is, next to
    the timestamp made from it. *)
Theorem timestamp_present_iff_positive_and_convertible
    (py_str : json -> string) :
  (forall ct, is_number ct = true ->
     exists ts0,
       timestamp_of ct = Ok ts0 /\
       forall ts, ts0 = Some ts <->
         exists q dt, number ct = Some q /\ (0 < q)%Q /\
                      utc_of_number q = Ok dt /\ ts = isoformat dt) /\
  (forall msg m, message_of py_str msg = Ok m ->
     get msg "create_time" = Ok (createTime m) /\
     timestamp_of (createTime m) = Ok (timestamp m) /\
     forall ts, timestamp m = Some ts <->
       exists q dt, number (createTime m) = Some q /\ (0 < q)%Q /\
                    utc_of_number q = Ok dt /\ ts = isoformat dt).
Proof.
  split.
  - intros ct Hn.
    destruct (timestamp_total fromtimestamp isoformat ct Hn
                (fromtimestamp_cases ct Hn)) as [ts0 H].
    exists ts0. split; [exact H |]. exact (timestamp_of_some ct ts0 H).
  - intros msg m H. unfold message_of in H.
    apply bind_ok in H as (author & _ & H).
    apply bind_ok in H as (cont & _ & H).
    apply bind_ok in H as (parts & _ & H). apply bind_ok in H as (text & _ & H).
    apply bind_ok in H as (ct & Hct & H). apply bind_ok in H as (ts0 & Hts & H).
    unbind H. inversion H; subst; clear H. cbn [createTime timestamp].
    split; [exact Hct |]. split; [exact Hts |]. apply timestamp_of_some, Hts.
Qed.

Lemma timestamp_present_iff_positive_and_convertible_witness :
  is_number (JInt 1000000000000000000) = true /\
  timestamp_of (JInt 1000000000000000000) = Ok None /\
  timestamp_of (JSpecial NaN) = Ok None /\
  message_of no_str (JObj mixed_payload)
  = Ok (mkMessage (JStr "m") JNull JNull "see x = 1"
          (JFloat (17000000005 # 10))
          (Some "2023-11-14T22:13:20.500000+00:00"%string)) /\
  (exists ts0,
     timestamp_of (JInt 1000000000000000000) = Ok ts0 /\
     forall ts, ts0 = Some ts <->
       exists q dt, number (JInt 1000000000000000000) = Some q /\ (0 < q)%Q /\
                    utc_of_number q = Ok dt /\ ts = isoformat dt) /\
  get (JObj mixed_payload) "create_time" = Ok (JFloat (17000000005 # 10)) /\
  timestamp_of (JFloat (17000000005 # 10))
  = Ok (Some "2023-11-14T22:13:20.500000+00:00"%string) /\
  forall ts, Some "2023-11-14T22:13:20.500000+00:00"%string = Some ts <->
    exists q dt, number (JFloat (17000000005 # 10)) = Some q /\ (0 < q)%Q /\
                 utc_of_number q = Ok dt /\ ts = isoformat dt.
Proof.
  assert (H : message_of no_str (JObj mixed_payload)
              = Ok (mkMessage (JStr "m") JNull JNull "see x = 1"
                      (JFloat (17000000005 # 10))
                      (Some "2023-11-14T22:13:20.500000+00:00"%string)))
    by (vm_compute; reflexivity).
  split; [reflexivity |]. split; [vm_compute; reflexivity |].
  split; [reflexivity |]. split; [exact H |].
  split.
  - exact (proj1 (timestamp_present_iff_positive_and_convertible no_str)
             (JInt 1000000000000000000) eq_refl).
  - exact (proj2 (timestamp_present_iff_positive_and_convertible no_str)
             _ _ H).
Defined.

(** ** Model statistics *)

Lemma forallb_filter_nil {A : Type} (p : A -> bool) (l : list A) :
  filter p l = [] <-> forallb (fun x => negb (p x)) l = true.
Proof.
  induction l as [| x l IH]; cbn [filter forallb]; [tauto |].
  destruct (p x); cbn [negb andb]; [split; discriminate | exact IH].
Qed.

Lemma count_model_inv (mc mc1 : dict json nat) (m : json) :
  count_model mc m = Ok mc1 ->
  (truthy m = false /\ mc1 = mc) \/
  (truthy m = true /\ hashable m = true /\ mc1 = count_step mc m).
Proof.
  unfold count_model. destruct (truthy m); [| intros H; inversion H; auto].
  destruct (hashable m); [| discriminate]. intros H; inversion H; auto.
Qed.

Lemma stats_loop_counts (cs : list Conversation) :
  forall mc n mc' n',
    stats_loop cs mc n = Ok (mc', n') ->
    mc' = fold_left count_step (model_values cs) mc /\
    Forall (fun m => hashable m = true) (model_values cs).
Proof.
  induction cs as [| c cs IH]; intros mc n mc' n' H.
  - inversion H. split; [reflexivity | constructor].
  - cbn [stats_loop] in H. apply bind_ok in H as (mc1 & H1 & H).
    apply bind_ok in H as (k & _ & H). apply IH in H as [-> Hall].
    unfold model_values in *. cbn [map filter].
    apply count_model_inv in H1 as [[Ht ->] | (Ht & Hh & ->)]; rewrite Ht.
    + split; [reflexivity | exact Hall].
    + split; [reflexivity | constructor; assumption].
Qed.

Lemma distinct_keys_in (l : list json) (k : json) :
  In k (distinct_keys l) -> In k l.
Proof.
  induction l as [| x l IH] using rev_ind; [intros [] |].
  rewrite distinct_keys_snoc, in_app_iff.
  destruct (existsb _ _); [auto |].
  rewrite in_app_iff. intros [H | H]; auto.
Qed.

Lemma distinct_keys_distinct (l : list json) :
  all_distinct (distinct_keys l) = true.
Proof.
  induction l as [| x l IH] using rev_ind; [reflexivity |].
  rewrite distinct_keys_snoc. destruct (existsb _ _) eqn:E; [exact IH |].
  rewrite all_distinct_snoc, IH. rewrite existsb_forallb_negb in E.
  apply negb_false_iff in E. rewrite E. reflexivity.
Qed.

Lemma distinct_keys_repr (l : list json) (x : json) :
  Forall (fun m => hashable m = true) l -> In x l ->
  existsb (fun k => key_eqb k x) (distinct_keys l) = true.
Proof.
  induction l as [| y l IH] using rev_ind; [intros _ [] |].
  intros Hall Hin. apply Forall_app in Hall as [Hl Hy].
  inversion Hy as [| ? ? Hhy _]; subst.
  rewrite distinct_keys_snoc. apply in_app_iff in Hin as [Hin | [<- | []]].
  - destruct (existsb (fun k' => key_eqb k' y) _); [auto |].
    rewrite existsb_app, (IH Hl Hin). reflexivity.
  - destruct (existsb (fun k' => key_eqb k' y) _) eqn:E; [exact E |].
    rewrite existsb_app. cbn [existsb]. rewrite (key_eqb_refl _ Hhy).
    rewrite orb_true_r. reflexivity.
Qed.

Lemma frequency_snoc (k m : json) (l : list json) :
  frequency k (l ++ [m])
  = (frequency k l + (if key_eqb k m then 1 else 0))%nat.
Proof.
  unfold frequency. rewrite filter_app, length_app. cbn [filter].
  destruct (key_eqb k m); reflexivity.
Qed.

(** Counting one more occurrence in a table over distinct keys. *)
Lemma count_step_hit (g : json -> nat) (m : json) (ks : list json) :
  all_distinct ks = true ->
  existsb (fun k => key_eqb k m) ks = true ->
  count_step (map (fun k => (k, g k)) ks) m
  = map (fun k => (k, (g k + (if key_eqb k m then 1 else 0))%nat)) ks.
Proof.
  unfold count_step, dict_get_default.
  induction ks as [| k0 ks IH]; [discriminate |].
  cbn [all_distinct existsb map dict_get dict_set]. intros Hd He.
  apply andb_true_iff in Hd as [Hk0 Hd].
  destruct (key_eqb k0 m) eqn:E0.
  - f_equal; [f_equal; lia |].
    apply map_ext_in. intros k Hk. f_equal.
    destruct (key_eqb k m) eqn:E; [| lia]. exfalso.
    rewrite forallb_forall in Hk0. specialize (Hk0 k Hk).
    rewrite key_eqb_sym in E. rewrite (key_eqb_trans _ _ _ E0 E) in Hk0.
    discriminate Hk0.
  - cbn [orb] in He. f_equal; [f_equal; lia |]. apply IH; assumption.
Qed.

Lemma count_step_miss (g : json -> nat) (m : json) (ks : list json) :
  existsb (fun k => key_eqb k m) ks = false ->
  count_step (map (fun k => (k, g k)) ks) m
  = map (fun k => (k, g k)) ks ++ [(m, 1%nat)].
Proof.
  unfold count_step, dict_get_default.
  induction ks as [| k0 ks IH]; [reflexivity |].
  cbn [existsb map dict_get dict_set app]. intros He.
  apply orb_false_iff in He as [E0 He]. rewrite E0. f_equal. apply IH, He.
Qed.

Lemma count_steps_table (l : list json) :
  Forall (fun m => hashable m = true) l ->
  fold_left count_step l [] = model_table l.
Proof.
  induction l as [| m l IH] using rev_ind; [reflexivity |].
  intros Hall. pose proof Hall as Hall'.
  apply Forall_app in Hall as [Hl Hm]. inversion Hm as [| ? ? Hhm _]; subst.
  rewrite fold_left_app. cbn [fold_left]. rewrite (IH Hl).
  unfold model_table. rewrite distinct_keys_snoc.
  destruct (existsb (fun k' => key_eqb k' m) (distinct_keys l)) eqn:E.
  - rewrite count_step_hit; [| apply distinct_keys_distinct | exact E].
    apply map_ext. intros k. rewrite frequency_snoc. reflexivity.
  - rewrite count_step_miss by exact E. rewrite map_app. cbn [map]. f_equal.
    + apply map_ext_in. intros k Hk. rewrite frequency_snoc.
      assert (Ek : key_eqb k m = false).
      { destruct (key_eqb k m) eqn:Ek; [| reflexivity].
        assert (existsb (fun k' => key_eqb k' m) (distinct_keys l) = true)
          by (apply existsb_exists; eauto).
        congruence. }
      rewrite Ek. f_equal. lia.
    + rewrite frequency_snoc, (key_eqb_refl _ Hhm).
      assert (E0 : frequency m l = 0%nat).
      { unfold frequency.
        rewrite (proj2 (@forallb_filter_nil _ (key_eqb m) l)); [reflexivity |].
        apply forallb_forall. intros x Hx.
        destruct (key_eqb m x) eqn:Ex; [| reflexivity]. exfalso.
        pose proof (@distinct_keys_repr l x Hl Hx) as Hr.
        apply existsb_exists in Hr as (k & Hk & Hkx).
        rewrite key_eqb_sym in Ex.
        assert (existsb (fun k' => key_eqb k' m) (distinct_keys l) = true).
        { apply existsb_exists. exists k. split; [exact Hk |].
          eapply key_eqb_trans; eauto. }
        congruence. }
      rewrite E0. reflexivity.
Qed.

Lemma Zleb_total (a b : Z) : Z.leb a b = true \/ Z.leb b a = true.
Proof. rewrite !Z.leb_le. lia. Qed.

Lemma Zleb_trans (a b c : Z) :
  Z.leb a b = true -> Z.leb b c = true -> Z.leb a c = true.
Proof. rewrite !Z.leb_le. lia. Qed.

Lemma top_models_ranked (mc : dict json nat) :
  top_models mc = Ok (firstn 10 (sort_on Z.leb neg_count mc)).
Proof.
  unfold top_models.
  rewrite (sorted_by_pure Z.leb neg_count (fun x => Ok (- Z.of_nat (snd x))%Z) mc);
    reflexivity.
Qed.

Lemma firstn_in {A : Type} (n : nat) (l : list A) (x : A) :
  In x (firstn n l) -> In x l.
Proof.
  intros H. rewrite <- (firstn_skipn n l). apply in_or_app. left. exact H.
Qed.

Lemma frequency_pos (k : json) (l : list json) :
  hashable k = true -> In k l -> (1 <= frequency k l)%nat.
Proof.
  intros Hh Hin. unfold frequency.
  assert (Hk : In k (filter (key_eqb k) l)).
  { apply filter_In. split; [exact Hin | apply key_eqb_refl, Hh]. }
  destruct (filter (key_eqb k) l); [destruct Hk | cbn; lia].
Qed.

Lemma mapM_validated {A : Type} (accepts : json -> bool) (f : A -> json)
    (l : list A) (l' : list json) :
  mapM (fun x => validated accepts (f x)) l = Ok l' ->
  l' = map f l /\ Forall (fun x => accepts (f x) = true) l.
Proof.
  revert l'. induction l as [| x l IH]; cbn [mapM map]; intros l' H.
  - inversion H. split; [reflexivity | constructor].
  - apply bind_ok in H as (y & Hy & H). apply bind_ok in H as (ys & Hys & H).
    inversion H; subst. apply validated_inv in Hy as [-> Hy].
    destruct (IH _ Hys) as [-> Hall]. split; [reflexivity |].
    constructor; assumption.
Qed.

Lemma combine_fst_snd {A B : Type} (l : list (A * B)) :
  combine (map fst l) (map snd l) = l.
Proof.
  induction l as [| [a b] l IH]; cbn [map combine fst snd];
    [reflexivity | rewrite IH; reflexivity].
Qed.

Lemma get_stats_top (st : service) (r : StatsResponse) :
  get_stats st = Ok r ->
  topModels r
  = firstn 10 (sort_on Z.leb neg_count
                 (model_table (model_values (conversations st)))) /\
  Forall (fun m => hashable m = true) (model_values (conversations st)).
Proof.
  unfold get_stats. destruct (conversations st) as [| c0 cs].
  - intros H. inversion H. split; [reflexivity | constructor].
  - intros H. apply bind_ok in H as ([mc n] & Hloop & H).
    apply bind_ok in H as (t0 & _ & H). apply bind_ok in H as (ts & _ & H).
    apply bind_ok in H as (d1 & _ & H). apply bind_ok in H as (d2 & _ & H).
    apply bind_ok in H as (top & Htop & H).
    apply bind_ok in H as (models & Hmodels & H).
    inversion H; subst; clear H. cbn [topModels].
    apply stats_loop_counts in Hloop as [-> Hall].
    rewrite top_models_ranked in Htop. inversion Htop; subst.
    rewrite (proj1 (mapM_validated _ _ _ _ Hmodels)), combine_fst_snd.
    rewrite (count_steps_table _ Hall). split; [reflexivity | exact Hall].
Qed.

Lemma top_models_ranking (st : service) (r : StatsResponse) :
  get_stats st = Ok r ->
  exists ranked,
    topModels r = firstn 10 ranked /\
    Permutation ranked (model_table (model_values (conversations st))) /\
    StronglySorted (fun a b => (snd b <= snd a)%nat) ranked /\
    (forall n,
       filter (fun e => Nat.eqb (snd e) n) ranked
       = filter (fun e => Nat.eqb (snd e) n)
           (model_table (model_values (conversations st)))) /\
    (List.length (topModels r) <= 10)%nat /\
    Forall (fun e =>
              truthy (fst e) = true /\
              snd e = frequency (fst e) (model_values (conversations st)) /\
              (1 <= snd e)%nat)
      (topModels r).
Proof.
  intros H. apply get_stats_top in H as [Htop Hall].
  set (l := model_values (conversations st)) in *.
  set (ranked := sort_on Z.leb neg_count (model_table l)) in *.
  assert (Hperm : Permutation ranked (model_table l))
    by apply sort_on_perm.
  exists ranked. split; [exact Htop |]. split; [exact Hperm |].
  split; [| split; [| split]].
  - eapply StronglySorted_nth_mono;
      [| apply sort_on_sorted; [apply Zleb_total | apply Zleb_trans]].
    intros a b Hab. apply Z.leb_le in Hab. unfold neg_count in Hab. lia.
  - intros n.
    assert (E : forall e : json * nat,
              Nat.eqb (snd e) n
              = same_key Z.leb (- Z.of_nat n)%Z (neg_count e)).
    { intros e. unfold same_key, neg_count. apply eq_true_iff_eq.
      rewrite Nat.eqb_eq, andb_true_iff, !Z.leb_le. lia. }
    rewrite (filter_ext _ _ E ranked), (filter_ext _ _ E (model_table l)).
    apply sort_on_stable; first [apply Zleb_total | apply Zleb_trans].
  - rewrite Htop. apply firstn_le_length.
  - rewrite Htop. apply Forall_forall. intros e He.
    apply firstn_in in He. apply (Permutation_in _ Hperm) in He.
    unfold model_table in He. apply in_map_iff in He as (k & <- & Hk).
    apply distinct_keys_in in Hk. cbn [fst snd].
    pose proof Hk as Hk'. unfold l, model_values in Hk'.
    apply filter_In in Hk' as [_ Ht].
    rewrite Forall_forall in Hall.
    split; [exact Ht |]. split; [reflexivity |].
    apply frequency_pos; auto.
Qed.

(** [topModels] is the first ten rows of the table of models ranked by
    count: it has at most ten entries; each entry is a non-empty model
    value with the number of conversations that have it; counts never
    increase along the list; and models with equal counts stand in the
    order in which they first occur in the corpus. *)
Theorem top_models_rank_model_frequencies (st : service) (r : StatsResponse) :
  get_stats st = Ok r ->
  exists ranked,
    topModels r = firstn 10 ranked /\
    Permutation ranked (model_table (model_values (conversations st))) /\
    StronglySorted (fun a b => (snd b <= snd a)%nat) ranked /\
    (forall n,
       filter (fun e => Nat.eqb (snd e) n) ranked
       = filter (fun e => Nat.eqb (snd e) n)
           (model_table (model_values (conversations st)))) /\
    (List.length (topModels r) <= 10)%nat /\
    Forall (fun e =>
              truthy (fst e) = true /\
              snd e = frequency (fst e) (model_values (conversations st)) /\
              (1 <= snd e)%nat)
      (topModels r).
Proof. apply top_models_ranking. Qed.

(** ** The statistics of a corpus *)

Lemma count_payloads_ok (nodes : list json) :
  forallb is_obj nodes = true -> exists n, count_payloads nodes = Ok n.
Proof.
  induction nodes as [| node nodes IH]; cbn [forallb count_payloads];
    [eauto |].
  intros H. apply andb_true_iff in H as [Hn Hr].
  destruct (IH Hr) as [n Hc]. destruct node; try discriminate Hn.
  cbn [get get_default bind]. rewrite Hc. cbn [bind]. eauto.
Qed.

Lemma forallb_on_map {A B : Type} (f : A -> B) (p : B -> bool) (l : list A) :
  forallb p (map f l) = forallb (fun x => p (f x)) l.
Proof.
  induction l as [| x l IH]; cbn [map forallb]; [reflexivity |].
  rewrite IH. reflexivity.
Qed.

Lemma message_count_ok (mapping : json) :
  countable mapping = true -> exists n, message_count mapping = Ok n.
Proof.
  destruct mapping as [| | | | | | | nodes]; try discriminate.
  cbn [countable message_count values bind]. intros H.
  apply count_payloads_ok. rewrite forallb_on_map. exact H.
Qed.

Lemma stats_loop_ok (cs : list Conversation) :
  forallb stats_ready cs = true ->
  forall mc n, exists mc' n', stats_loop cs mc n = Ok (mc', n').
Proof.
  induction cs as [| c cs IH]; cbn [forallb stats_loop]; [eauto |].
  intros H mc n. apply andb_true_iff in H as [Hc Hr].
  unfold stats_ready in Hc. apply andb_true_iff in Hc as [Hm Hk].
  destruct (message_count_ok _ Hm) as [k Hcount].
  assert (exists mc1, count_model mc (model c) = Ok mc1) as [mc1 Hmc].
  { unfold count_model.
    assert (Hh : hashable (model c) = true)
      by (destruct (model c); try discriminate Hk; reflexivity).
    rewrite Hh. destruct (truthy (model c)); eauto. }
  rewrite Hmc, Hcount. cbn [bind]. apply IH, Hr.
Qed.

Lemma ready_models_listed (cs : list Conversation) (m : json) :
  forallb stats_ready cs = true -> In m (model_values cs) ->
  is_int_or_str m = true /\ hashable m = true.
Proof.
  intros H Hm. unfold model_values in Hm. apply filter_In in Hm as [Hm Ht].
  apply in_map_iff in Hm as (c & <- & Hc).
  rewrite forallb_forall in H. specialize (H c Hc). unfold stats_ready in H.
  apply andb_true_iff in H as [_ H].
  destruct (model c); try discriminate H; try discriminate Ht; split; reflexivity.
Qed.

Lemma counted_models_listed (cs : list Conversation) :
  forallb stats_ready cs = true ->
  forall m, In m (map fst (fold_left count_step (model_values cs) [])) ->
            is_int_or_str m = true.
Proof.
  intros H m Hm.
  assert (Hall : Forall (fun m => hashable m = true) (model_values cs)).
  { apply Forall_forall. intros x Hx. apply (ready_models_listed cs x H Hx). }
  rewrite (count_steps_table _ Hall) in Hm. unfold model_table in Hm.
  rewrite map_map in Hm. cbn [fst] in Hm. rewrite map_id in Hm.
  apply distinct_keys_in in Hm. apply (ready_models_listed cs m H Hm).
Qed.

Lemma min_of_in (ts : list ord) : forall t0, In (min_of t0 ts) (t0 :: ts).
Proof.
  unfold min_of. induction ts as [| t ts IH]; intros t0; [left; reflexivity |].
  cbn [fold_left]. destruct (IH (if ord_leb t0 t then t0 else t)) as [H | H].
  - rewrite <- H. destruct (ord_leb t0 t); [left | right; left]; reflexivity.
  - right. right. exact H.
Qed.

Lemma max_of_in (ts : list ord) : forall t0, In (max_of t0 ts) (t0 :: ts).
Proof.
  unfold max_of. induction ts as [| t ts IH]; intros t0; [left; reflexivity |].
  cbn [fold_left]. destruct (IH (if ord_leb t t0 then t0 else t)) as [H | H].
  - rewrite <- H. destruct (ord_leb t t0); [left | right; left]; reflexivity.
  - right. right. exact H.
Qed.

Lemma ord_leb_refl (a : ord) : ord_leb a a = true.
Proof. destruct (ord_leb_total a a); assumption. Qed.

Lemma min_of_le (ts : list ord) :
  forall t0 t, In t (t0 :: ts) -> ord_leb (min_of t0 ts) t = true.
Proof.
  unfold min_of. induction ts as [| t ts IH]; intros t0 x Hx.
  - destruct Hx as [<- | []]. apply ord_leb_refl.
  - cbn [fold_left].
    set (m := if ord_leb t0 t then t0 else t).
    assert (Hm : ord_leb m t0 = true /\ ord_leb m t = true).
    { unfold m. destruct (ord_leb t0 t) eqn:E.
      - split; [apply ord_leb_refl | exact E].
      - split; [| apply ord_leb_refl].
        destruct (ord_leb_total t0 t); congruence. }
    destruct Hm as [Hm0 Hmt].
    pose proof (IH m m (or_introl eq_refl)) as Hmm.
    destruct Hx as [<- | [<- | Hx]].
    + eapply ord_leb_trans; eauto.
    + eapply ord_leb_trans; eauto.
    + apply IH. right. exact Hx.
Qed.

Lemma max_of_ge (ts : list ord) :
  forall t0 t, In t (t0 :: ts) -> ord_leb t (max_of t0 ts) = true.
Proof.
  unfold max_of. induction ts as [| t ts IH]; intros t0 x Hx.
  - destruct Hx as [<- | []]. apply ord_leb_refl.
  - cbn [fold_left].
    set (m := if ord_leb t t0 then t0 else t).
    assert (Hm : ord_leb t0 m = true /\ ord_leb t m = true).
    { unfold m. destruct (ord_leb t t0) eqn:E.
      - split; [apply ord_leb_refl | exact E].
      - split; [| apply ord_leb_refl].
        destruct (ord_leb_total t t0); congruence. }
    destruct Hm as [Hm0 Hmt].
    pose proof (IH m m (or_introl eq_refl)) as Hmm.
    destruct Hx as [<- | [<- | Hx]].
    + eapply ord_leb_trans; eauto.
    + eapply ord_leb_trans; eauto.
    + apply IH. right. exact Hx.
Qed.

Lemma ordered_fin (x : json) (q : Q) :
  ordered x = Ok (Fin q) -> number x = Some q.
Proof.
  unfold ordered. destruct (number x) as [q' |].
  - intros H. inversion H. reflexivity.
  - destruct x as [| | | | [| s] | | |]; discriminate.
Qed.

Lemma ordered_number (x : json) (q : Q) :
  number x = Some q -> ordered x = Ok (Fin q).
Proof. unfold ordered. intros ->. reflexivity. Qed.

Lemma time_of_number (c : Conversation) (q : Q) :
  number (create_time c) = Some q -> q = time_of c.
Proof. unfold time_of. intros ->. reflexivity. Qed.

Lemma day_of_time (c : Conversation) (t : Q) (dt : datetime) :
  number (create_time c) = Some t -> utc_of_number t = Ok dt ->
  day_of c = Some (strftime_ymd dt).
Proof.
  intros Ht Hu. unfold day_of.
  rewrite (fromtimestamp_number _ _ Ht), Hu. reflexivity.
Qed.

(** Between a finite minimum and a finite maximum every number is
    finite. *)
Lemma ord_between (a b : Q) (o : ord) :
  ord_leb (Fin a) o = true -> ord_leb o (Fin b) = true ->
  exists q, o = Fin q /\ (a <= q)%Q /\ (q <= b)%Q.
Proof.
  destruct o as [q | []]; cbn [ord_leb]; try discriminate.
  intros H1 H2. apply Qle_bool_iff in H1, H2. eauto.
Qed.

Lemma ordered_all (cs : list Conversation) (os : list ord) :
  mapM ordered (map create_time cs) = Ok os ->
  (forall o, In o os -> exists c, In c cs /\ ordered (create_time c) = Ok o) /\
  (forall c, In c cs -> exists o, In o os /\ ordered (create_time c) = Ok o).
Proof.
  revert os. induction cs as [| c cs IH]; cbn [map mapM]; intros os H.
  - inversion H. split; intros ? [].
  - apply bind_ok in H as (o & Ho & H). apply bind_ok in H as (os' & Hos & H).
    inversion H; subst; clear H. destruct (IH _ Hos) as [IH1 IH2]. split.
    + intros x [<- | Hx]; [exists c; split; [left; reflexivity | exact Ho] |].
      destruct (IH1 x Hx) as (c' & Hc' & E). exists c'. split; [right |]; auto.
    + intros x [<- | Hx]; [exists o; split; [left; reflexivity | exact Ho] |].
      destruct (IH2 x Hx) as (o' & Ho' & E). exists o'. split; [right |]; auto.
Qed.

Lemma utc_of_ord_ok (o : ord) (dt : datetime) :
  utc_of_ord o = Ok dt -> exists q, o = Fin q /\ utc_of_number q = Ok dt.
Proof. destruct o as [q | s]; [eauto | discriminate]. Qed.

Lemma get_stats_range (st : service) (r : StatsResponse)
    (c0 : Conversation) (cs : list Conversation) :
  conversations st = c0 :: cs ->
  get_stats st = Ok r ->
  exists cmin cmax d1 d2,
    In cmin (c0 :: cs) /\ In cmax (c0 :: cs) /\
    (forall c, In c (c0 :: cs) ->
       number (create_time c) = Some (time_of c) /\
       (time_of cmin <= time_of c)%Q /\ (time_of c <= time_of cmax)%Q) /\
    utc_of_number (time_of cmin) = Ok d1 /\
    utc_of_number (time_of cmax) = Ok d2 /\
    dateRange r = (strftime_ymd d1, strftime_ymd d2).
Proof.
  intros Hcs H. unfold get_stats in H. rewrite Hcs in H.
  apply bind_ok in H as ([mc n] & _ & H).
  apply bind_ok in H as (t0 & Ht0 & H). apply bind_ok in H as (ts & Hts & H).
  apply bind_ok in H as (d1 & Hd1 & H). apply bind_ok in H as (d2 & Hd2 & H).
  apply bind_ok in H as (top & _ & H). apply bind_ok in H as (models & _ & H).
  inversion H; subst; clear H. cbn [dateRange].
  assert (Hos : mapM ordered (map create_time (c0 :: cs)) = Ok (t0 :: ts)).
  { cbn [map mapM]. rewrite Ht0, Hts. reflexivity. }
  apply ordered_all in Hos as [Hfrom Hto].
  apply utc_of_ord_ok in Hd1 as (q1 & E1 & Hu1).
  apply utc_of_ord_ok in Hd2 as (q2 & E2 & Hu2).
  destruct (Hfrom _ (min_of_in ts t0)) as (cmin & Hcmin & Emin).
  destruct (Hfrom _ (max_of_in ts t0)) as (cmax & Hcmax & Emax).
  rewrite E1 in Emin. rewrite E2 in Emax.
  apply ordered_fin in Emin, Emax.
  pose proof (time_of_number _ _ Emin) as T1.
  pose proof (time_of_number _ _ Emax) as T2. subst q1 q2.
  exists cmin, cmax, d1, d2.
  split; [exact Hcmin |]. split; [exact Hcmax |].
  split; [| split; [exact Hu1 | split; [exact Hu2 | reflexivity]]].
  intros c Hc. destruct (Hto c Hc) as (o & Ho & Eo).
  pose proof (min_of_le ts t0 o Ho) as L. pose proof (max_of_ge ts t0 o Ho) as G.
  rewrite E1 in L. rewrite E2 in G.
  destruct (ord_between _ _ _ L G) as (q & -> & Hle1 & Hle2).
  apply ordered_fin in Eo. pose proof (time_of_number _ _ Eo) as T. subst q.
  split; [exact Eo |]. split; assumption.
Qed.

Lemma dated_ordered (c : Conversation) :
  day_of c <> None -> ordered (create_time c) = Ok (Fin (time_of c)).
Proof.
  intros H. apply day_of_number in H as [H _]. apply ordered_number, H.
Qed.

Lemma dated_utc (c : Conversation) :
  day_of c <> None -> exists dt, utc_of_number (time_of c) = Ok dt.
Proof.
  intros H. apply day_of_number in H as [Hn [dt Hdt]].
  rewrite (fromtimestamp_number _ _ Hn) in Hdt. exists dt. exact Hdt.
Qed.

Lemma dated_all_ordered (cs : list Conversation) :
  Forall (fun c => day_of c <> None) cs ->
  mapM ordered (map create_time cs) = Ok (map (fun c => Fin (time_of c)) cs).
Proof.
  intros H. induction H as [| c cs Hc _ IH]; cbn [map mapM]; [reflexivity |].
  rewrite (dated_ordered c Hc), IH. reflexivity.
Qed.

(** The date range of the statistics: on an empty corpus the statistics
    are the empty value; otherwise the range starts on the day of a
    conversation with the smallest [create_time] and ends on the day of
    one with the largest. *)
Theorem get_stats_date_range_spans_corpus (st : service) (r : StatsResponse) :
  get_stats st = Ok r ->
  (conversations st = [] -> r = mkStats 0 0 (""%string, ""%string) []) /\
  (conversations st <> [] ->
   exists cmin cmax,
     In cmin (conversations st) /\ In cmax (conversations st) /\
     (forall c, In c (conversations st) ->
                (time_of cmin <= time_of c)%Q /\ (time_of c <= time_of cmax)%Q) /\
     day_of cmin = Some (fst (dateRange r)) /\
     day_of cmax = Some (snd (dateRange r))).
Proof.
  intros H. split.
  - intros E. unfold get_stats in H. rewrite E in H. inversion H. reflexivity.
  - intros Hne. destruct (conversations st) as [| c0 cs] eqn:Ecs;
      [contradiction |].
    destruct (get_stats_range st r c0 cs Ecs H)
      as (cmin & cmax & d1 & d2 & Hcmin & Hcmax & Hall & Hmin & Hmax & Hrange).
    rewrite Hrange. cbn [fst snd].
    exists cmin, cmax. split; [exact Hcmin |]. split; [exact Hcmax |].
    split; [| split].
    + intros c Hc. apply (Hall c Hc).
    + apply (day_of_time cmin (time_of cmin) d1);
        [apply (Hall cmin Hcmin) | exact Hmin].
    + apply (day_of_time cmax (time_of cmax) d2);
        [apply (Hall cmax Hcmax) | exact Hmax].
Qed.

Lemma get_stats_ok (data : list json) (st : service) :
  _load_data data = Ok st ->
  forallb stats_ready (conversations st) = true ->
  exists r, get_stats st = Ok r.
Proof.
  intros Hload Hready.
  apply load_data_loaded in Hload as [Hdated _ _ _ _].
  unfold get_stats. destruct (conversations st) as [| c0 cs]; [eauto |].
    destruct (stats_loop_ok (c0 :: cs) Hready [] 0%nat) as (mc & n & Hloop).
    rewrite Hloop. cbn [bind].
    inversion Hdated as [| ? ? H0 Hcs]; subst.
    rewrite (dated_ordered c0 H0). cbn [bind].
    rewrite (dated_all_ordered cs Hcs). cbn [bind].
    set (ts := map (fun c => Fin (time_of c)) cs).
    assert (Hall : forall o, In o (Fin (time_of c0) :: ts) ->
                             exists dt, utc_of_ord o = Ok dt).
    { intros o Ho.
      change (Fin (time_of c0) :: ts)
        with (map (fun c => Fin (time_of c)) (c0 :: cs)) in Ho.
      apply in_map_iff in Ho as (c & <- & Hc). apply dated_utc.
      rewrite Forall_forall in Hdated. apply Hdated, Hc. }
    destruct (Hall _ (min_of_in ts (Fin (time_of c0)))) as [d1 ->].
    destruct (Hall _ (max_of_in ts (Fin (time_of c0)))) as [d2 ->].
    cbn [bind]. rewrite top_models_ranked. cbn [bind].
    apply stats_loop_counts in Hloop as [-> _].
    rewrite (mapM_pure (fun x => validated is_int_or_str (fst x)) fst);
      [cbn [bind]; eauto |].
    intros x Hx. apply firstn_in in Hx.
    apply (Permutation_in _ (sort_on_perm Z.leb neg_count _)) in Hx.
    apply (in_map fst) in Hx.
    apply (counted_models_listed (c0 :: cs) Hready) in Hx.
    unfold validated. rewrite Hx. reflexivity.
Qed.

(** On a store reached by ingest in which every conversation has a tree
    that can be counted and a model that is null, a string or an
    integer, the statistics are returned (nothing is raised, and the
    response passes its validation); they report the number of dated
    records and the sum of the payload counts of the trees. *)
Theorem get_stats_returns_on_readable_store (data : list json) (st : service) :
  _load_data data = Ok st ->
  forallb stats_ready (conversations st) = true ->
  exists r counts,
    get_stats st = Ok r /\
    totalConversations r = List.length (dated data) /\
    mapM (fun c => message_count (mapping c)) (conversations st) = Ok counts /\
    totalMessages r = list_sum counts.
Proof.
  intros Hload Hready.
  pose proof (load_data_conversations data st Hload) as Hconv.
  destruct (get_stats_ok data st Hload Hready) as [r Hr]. pose proof Hr as Hr'.
  apply get_stats_total in Hr' as (counts & Hcounts & Htotal & Hlen).
  exists r, counts. split; [exact Hr |].
  split; [rewrite Hlen, Hconv; reflexivity |]. split; assumption.
Qed.


(** ** The listing of a day *)

Lemma convs_sorted_bucket (st : service) (d : string) :
  loaded st ->
  convs_sorted st d
  = Ok (sort_on Qle_bool (fun c => (- time_of c)%Q)
          (filter (on_day d) (conversations st))).
Proof.
  intros [Hdated Hbuckets _ _ _]. unfold convs_sorted. rewrite Hbuckets.
  apply convs_sorted_dated. apply Forall_forall. intros c Hc.
  apply filter_In in Hc as [Hc _]. rewrite Forall_forall in Hdated.
  apply Hdated, Hc.
Qed.

Lemma mapM_ok {A B : Type} (f : A -> result B) (l : list A) :
  (forall x, In x l -> exists y, f x = Ok y) -> exists ys, mapM f l = Ok ys.
Proof.
  induction l as [| x l IH]; intros H; [exists []; reflexivity |].
  destruct (H x (or_introl eq_refl)) as [y Hy].
  destruct IH as [ys Hys]; [intros z Hz; apply H; right; exact Hz |].
  exists (y :: ys). cbn [mapM]. rewrite Hy, Hys. reflexivity.
Qed.

Lemma summarize_inv (c : Conversation) (s : summary) :
  summarize c = Ok s ->
  summary_id s = id c /\ summary_model s = model c /\
  truthy (summary_title s) = true /\
  message_count (mapping c) = Ok (messageCount s) /\
  day_of c <> None.
Proof.
  unfold summarize, day_of. intros H.
  destruct (fromtimestamp (create_time c)) as [dt | e]; [| discriminate H].
  cbn [bind] in H. apply bind_ok in H as (n & Hn & H).
  inversion H; subst; clear H. cbn [summary_id summary_model summary_title
                                   messageCount].
  split; [reflexivity |]. split; [reflexivity |].
  split; [apply py_or_truthy; reflexivity |]. split; [exact Hn | discriminate].
Qed.

(** In a store reached by ingest, when every conversation of the
    requested day has a tree that can be counted, the listing is returned
    (nothing is raised): it echoes the date and holds one entry per
    conversation of that day, newest first, with the id and model of the
    conversation, a title that is never empty and the payload count of
    its tree. *)
Theorem listing_summarizes_each_conversation_of_the_day
    (data : list json) (st : service) (d : string) :
  _load_data data = Ok st ->
  (forall c, In c (conversations st) -> day_of c = Some d ->
             countable (mapping c) = true) ->
  exists r,
    get_conversations_by_date st d = Ok r /\
    date r = d /\
    Forall2 (fun c s =>
               summary_id s = id c /\ summary_model s = model c /\
               truthy (summary_title s) = true /\
               message_count (mapping c) = Ok (messageCount s) /\
               day_of c <> None)
      (sort_on Qle_bool (fun c => (- time_of c)%Q)
         (filter (on_day d) (conversations st)))
      (listed r).
Proof.
  intros Hload Hcount. apply load_data_loaded in Hload.
  pose proof (convs_sorted_bucket st d Hload) as Hsorted.
  destruct Hload as [Hdated _ _ _ _].
  set (l := sort_on Qle_bool (fun c => (- time_of c)%Q)
              (filter (on_day d) (conversations st))) in *.
  assert (Hl : forall c, In c l -> exists s, summarize c = Ok s).
  { intros c Hc. unfold l in Hc.
    apply (Permutation_in c (sort_on_perm Qle_bool _ _)) in Hc.
    apply filter_In in Hc as [Hc Hd]. apply on_day_iff in Hd.
    destruct (message_count_ok _ (Hcount c Hc Hd)) as [n Hn].
    unfold summarize, day_of in *.
    destruct (fromtimestamp (create_time c)) as [dt | e]; [| discriminate Hd].
    cbn [bind]. rewrite Hn. cbn [bind]. eauto. }
  destruct (mapM_ok summarize l Hl) as [ss Hss].
  exists (mkList d ss). unfold get_conversations_by_date.
  rewrite Hsorted. cbn [bind]. rewrite Hss. cbn [bind date listed].
  split; [reflexivity |]. split; [reflexivity |].
  apply mapM_inv in Hss. eapply Forall2_impl; [| exact Hss].
  intros c s. apply summarize_inv.
Qed.

(** ** The calendar: [civil_from_days] gives valid dates *)

#[local] Open Scope Z_scope.

Lemma all_from_spec (p : Z -> bool) (n : nat) :
  forall lo, all_from n lo p = true ->
  forall z, lo <= z < lo + Z.of_nat n -> p z = true.
Proof.
  induction n as [| n IH]; intros lo H z Hz; [lia |].
  cbn [all_from] in H. destruct (p lo) eqn:E; [| discriminate].
  destruct (Z.eq_dec z lo) as [-> | Hne]; [exact E |].
  apply (IH (lo + 1) H). lia.
Qed.

Lemma shifted_step (x : Z) : 0 <= x < 146096 -> shifted x <= shifted (x + 1).
Proof. unfold shifted. intros H. Z.div_mod_to_equations; lia. Qed.

Lemma shifted_mono (x y : Z) :
  0 <= x <= y -> y <= 146096 -> shifted x <= shifted y.
Proof.
  intros Hxy Hy. replace y with (x + Z.of_nat (Z.to_nat (y - x))) in * by lia.
  induction (Z.to_nat (y - x)) as [| n IH]; [rewrite Z.add_0_r; lia |].
  rewrite Nat2Z.inj_succ in *.
  etransitivity; [apply IH; lia |].
  replace (x + Z.succ (Z.of_nat n)) with (x + Z.of_nat n + 1) by lia.
  apply shifted_step. lia.
Qed.

Lemma year_of_era_mono (x y : Z) :
  0 <= x <= y -> y <= 146096 -> year_of_era x <= year_of_era y.
Proof.
  intros Hxy Hy. unfold year_of_era.
  apply Z.div_le_mono; [lia | apply shifted_mono; assumption].
Qed.

Lemma year_rows : all_from 400 0 year_row_ok = true.
Proof. vm_compute. reflexivity. Qed.

Lemma day_rows : all_from 366 0 day_row_ok = true.
Proof. vm_compute. reflexivity. Qed.

Lemma year_row (k : Z) :
  0 <= k <= 399 ->
  year_of_era (year_start k) = k /\ year_of_era (year_end k) = k /\
  year_end k <= 146096 /\ (k = 399 \/ year_end k + 1 = year_start (k + 1)).
Proof.
  intros Hk. pose proof (all_from_spec _ _ _ year_rows k ltac:(lia)) as H.
  unfold year_row_ok in H.
  repeat rewrite andb_true_iff in H. rewrite orb_true_iff in H.
  repeat rewrite Z.eqb_eq in H. rewrite Z.leb_le in H. tauto.
Qed.

Lemma year_start_nonneg (k : Z) : 0 <= k -> 0 <= year_start k.
Proof. unfold year_start. intros H. Z.div_mod_to_equations; lia. Qed.

Lemma era_day (doe : Z) :
  0 <= doe < 146097 ->
  0 <= year_of_era doe <= 399 /\
  year_start (year_of_era doe) <= doe <= year_end (year_of_era doe).
Proof.
  intros Hd.
  assert (E0 : year_of_era 0 = 0) by reflexivity.
  assert (E1 : year_of_era 146096 = 399) by reflexivity.
  pose proof (year_of_era_mono 0 doe ltac:(lia) ltac:(lia)) as L0.
  pose proof (year_of_era_mono doe 146096 ltac:(lia) ltac:(lia)) as L1.
  set (k := year_of_era doe) in *.
  assert (Hk : 0 <= k <= 399) by lia. split; [exact Hk |].
  destruct (year_row k Hk) as (_ & _ & Hle & Hnext). split.
  - destruct (Z_le_gt_dec (year_start k) doe) as [| Hlt]; [assumption | exfalso].
    destruct (Z.eq_dec k 0) as [Hk0 | Hk0].
    + rewrite Hk0 in Hlt. change (year_start 0) with 0 in Hlt. lia.
    + destruct (year_row (k - 1) ltac:(lia)) as (_ & Hy & Hle' & [? | Hn]); [lia |].
      replace (k - 1 + 1) with k in Hn by lia.
      pose proof (year_of_era_mono doe (year_end (k - 1)) ltac:(lia) ltac:(lia)).
      fold k in H. lia.
  - destruct (Z_le_gt_dec doe (year_end k)) as [| Hgt]; [assumption | exfalso].
    destruct (Z.eq_dec k 399) as [Hk399 | Hk399].
    + rewrite Hk399 in Hgt. change (year_end 399) with 146096 in Hgt. lia.
    + destruct Hnext as [? | Hn]; [lia |].
      destruct (year_row (k + 1) ltac:(lia)) as (Hy & _ & _ & _).
      pose proof (year_start_nonneg (k + 1) ltac:(lia)).
      pose proof (year_of_era_mono (year_start (k + 1)) doe ltac:(lia) ltac:(lia)).
      fold k in H0. lia.
Qed.

Lemma day_row (doy : Z) :
  0 <= doy <= 365 ->
  1 <= fst (month_day doy) <= 12 /\ 1 <= snd (month_day doy) /\
  (fst (month_day doy) <> 2 -> snd (month_day doy) <= mdays (fst (month_day doy))) /\
  (fst (month_day doy) = 2 ->
   snd (month_day doy) <= 28 \/ doy = 365 /\ snd (month_day doy) = 29).
Proof.
  intros Hd. pose proof (all_from_spec _ _ _ day_rows doy ltac:(lia)) as H.
  unfold day_row_ok in H. destruct (month_day doy) as [m d]. cbn [fst snd].
  repeat rewrite andb_true_iff in H. destruct H as [[[H1 H2] H3] H4].
  rewrite Z.leb_le in H1, H2, H3.
  destruct (Z.eqb_spec m 2) as [E | E].
  - rewrite orb_true_iff, andb_true_iff, Z.leb_le, !Z.eqb_eq in H4.
    repeat split; tauto || lia.
  - rewrite Z.leb_le in H4. repeat split; tauto || lia.
Qed.

Lemma isleap_period (a e : Z) : isleap (a + e * 400) = isleap a.
Proof.
  unfold isleap.
  replace ((a + e * 400) mod 4) with (a mod 4)
    by (Z.div_mod_to_equations; lia).
  replace ((a + e * 400) mod 100) with (a mod 100)
    by (Z.div_mod_to_equations; lia).
  replace ((a + e * 400) mod 400) with (a mod 400)
    by (Z.div_mod_to_equations; lia).
  reflexivity.
Qed.

Lemma civil_from_days_unfold (days : Z) :
  civil_from_days days
  = let era := (days + 719468) / 146097 in
    let doe := days + 719468 - era * 146097 in
    let yoe := year_of_era doe in
    let md := month_day (doe - year_start yoe) in
    (yoe + era * 400 + (if fst md <=? 2 then 1 else 0), fst md, snd md).
Proof.
  unfold civil_from_days, month_day, year_of_era, shifted, year_start.
  cbv beta zeta iota delta [fst snd]. reflexivity.
Qed.

Lemma civil_from_days_valid (days y m d : Z) :
  civil_from_days days = (y, m, d) ->
  1 <= m <= 12 /\ 1 <= d <= days_in_month y m.
Proof.
  rewrite civil_from_days_unfold. cbv zeta.
  set (era := (days + 719468) / 146097).
  set (doe := days + 719468 - era * 146097).
  assert (Hdoe : 0 <= doe < 146097)
    by (subst doe era; Z.div_mod_to_equations; lia).
  destruct (era_day doe Hdoe) as (Hk & Hlo & Hhi).
  set (yoe := year_of_era doe) in *.
  assert (Hdoy : 0 <= doe - year_start yoe <= 365).
  { unfold year_end in Hhi. destruct (isleap (yoe + 1)); lia. }
  destruct (day_row _ Hdoy) as (Hm & Hd1 & Hd & Hfeb).
  set (md := month_day (doe - year_start yoe)) in *.
  clearbody md. intros H.
  apply pair_equal_spec in H as [H Ed]. apply pair_equal_spec in H as [Hy Em].
  subst y m d. set (m := fst md) in *.
  split; [exact Hm |]. split; [exact Hd1 |].
  unfold days_in_month. destruct (Z.eqb_spec m 2) as [E | E]; cbn [andb].
  - destruct (Hfeb E) as [H28 | [H365 H29]].
    + rewrite E. change (mdays 2) with 28. destruct (isleap _); lia.
    + assert (L : isleap (yoe + 1) = true).
      { unfold year_end in Hhi. destruct (isleap (yoe + 1)); [reflexivity | lia]. }
      replace (if m <=? 2 then 1 else 0) with 1
        by (rewrite E; reflexivity).
      replace (yoe + era * 400 + 1) with (yoe + 1 + era * 400) by lia.
      rewrite isleap_period, L, E. change (mdays 2) with 28. lia.
  - specialize (Hd E). lia.
Qed.

Lemma utc_of_number_valid (t : Q) (dt : datetime) :
  utc_of_number t = Ok dt ->
  1 <= year dt <= 9999 /\ 1 <= month dt <= 12 /\
  1 <= day dt <= days_in_month (year dt) (month dt).
Proof.
  unfold utc_of_number. generalize (micros t). intros us.
  destruct (civil_from_days (us / 1000000 / 86400)) as [[y m] d] eqn:E.
  apply civil_from_days_valid in E.
  destruct ((1 <=? y) && (y <=? 9999)) eqn:B; [| discriminate].
  intros H. injection H as <-. cbn [year month day].
  apply andb_true_iff in B. rewrite !Z.leb_le in B. tauto.
Qed.

Lemma utc_of_number_civil (t : Q) (dt : datetime) :
  utc_of_number t = Ok dt ->
  civil_from_days (day_number (micros t)) = (year dt, month dt, day dt).
Proof.
  unfold utc_of_number, day_number. generalize (micros t). intros us.
  replace (us / 86400000000) with (us / 1000000 / 86400)
    by (rewrite Z.div_div; [reflexivity | lia | lia]).
  destruct (civil_from_days (us / 1000000 / 86400)) as [[y m] d].
  destruct ((1 <=? y) && (y <=? 9999)); [| discriminate].
  intros H. injection H as <-. reflexivity.
Qed.

(** ** Keys of four digits *)

Lemma four_digit_years :
  all_from (Z.to_nat 9000) 1000 (fun y => String.eqb (str_of_int y) (pad4 y))
  = true.
Proof. vm_compute. reflexivity. Qed.


Lemma str_of_int_pad4 (y : Z) : 1000 <= y <= 9999 -> str_of_int y = pad4 y.
Proof.
  intros H. apply String.eqb_eq.
  apply (all_from_spec _ _ _ four_digit_years y). lia.
Qed.


Lemma digit_val_digit (n : Z) : 0 <= n <= 9 -> digit_val (digit n) = Some n.
Proof.
  intros H. rewrite <- (Z2Nat.id n) by lia.
  assert (Hk : (Z.to_nat n < 10)%nat) by lia.
  revert Hk. generalize (Z.to_nat n). clear H. intros k Hk.
  do 10 (destruct k as [| k]; [reflexivity |]). lia.
Qed.

Lemma strftime_ymd_chars (dt : datetime) :
  year_padded = true \/ 1000 <= year dt -> year dt <= 9999 ->
  list_ascii_of_string (strftime_ymd dt)
  = [digit (year dt / 1000 mod 10); digit (year dt / 100 mod 10);
     digit (year dt / 10 mod 10); digit (year dt mod 10); "-"%char;
     digit (month dt / 10 mod 10); digit (month dt mod 10); "-"%char;
     digit (day dt / 10 mod 10); digit (day dt mod 10)].
Proof.
  intros W Hy. unfold strftime_ymd.
  assert (E : (if year_padded then pad4 (year dt) else str_of_int (year dt))
              = pad4 (year dt)).
  { destruct year_padded; [reflexivity |].
    destruct W as [W | W]; [discriminate W |].
    apply str_of_int_pad4. lia. }
  rewrite E. reflexivity.
Qed.

Lemma mdays_le (m : Z) : mdays m <= 31.
Proof.
  unfold mdays. destruct (Z.to_nat m) as [| n]; [cbn; lia |].
  do 12 (destruct n as [| n]; [cbn; lia |]). destruct n; cbn; lia.
Qed.

Lemma fromisoformat_strftime (dt : datetime) :
  year_padded = true \/ 1000 <= year dt ->
  1 <= year dt <= 9999 -> 1 <= month dt <= 12 ->
  1 <= day dt <= days_in_month (year dt) (month dt) ->
  fromisoformat (strftime_ymd dt)
  = Ok (mkDatetime (year dt) (month dt) (day dt) 0 0 0 0).
Proof.
  intros W Hy Hm Hd. unfold fromisoformat.
  rewrite (strftime_ymd_chars dt W (proj2 Hy)).
  assert (Hd' : day dt <= 32).
  { pose proof (mdays_le (month dt)). unfold days_in_month in Hd.
    destruct (_ && _); lia. }
  cbn [digits_val].
  rewrite !digit_val_digit by (Z.div_mod_to_equations; lia).
  replace (10 * (10 * (10 * (10 * 0 + year dt / 1000 mod 10)
                       + year dt / 100 mod 10) + year dt / 10 mod 10)
           + year dt mod 10) with (year dt)
    by (Z.div_mod_to_equations; lia).
  replace (10 * (10 * 0 + month dt / 10 mod 10) + month dt mod 10)
    with (month dt) by (Z.div_mod_to_equations; lia).
  replace (10 * (10 * 0 + day dt / 10 mod 10) + day dt mod 10)
    with (day dt) by (Z.div_mod_to_equations; lia).
  change (Ascii.eqb "-" "-") with true. cbn [andb].
  destruct Hy as [Hy _], Hm as [Hm1 Hm2], Hd as [Hd1 Hd2].
  apply Z.leb_le in Hy, Hm1, Hm2, Hd1, Hd2.
  rewrite Hy, Hm1, Hm2, Hd1, Hd2. reflexivity.
Qed.

#[local] Close Scope Z_scope.

(** ** Writing one dictionary into another *)

Section DictUpdateFacts.
Context {K V : Type}.
Variable eqb : K -> K -> bool.
Hypothesis eqb_spec : forall a b, eqb a b = true <-> a = b.

Lemma dict_set_new (d : dict K V) (k : K) (v : V) :
  existsb (fun k' => eqb k' k) (map fst d) = false ->
  dict_set eqb d k v = d ++ [(k, v)].
Proof.
  induction d as [| [k' v'] d IH]; cbn [map fst existsb dict_set app];
    [reflexivity |].
  intros H. apply orb_false_iff in H as [H1 H2]. rewrite H1, (IH H2).
  reflexivity.
Qed.

Lemma dict_set_old (d : dict K V) (k : K) (v : V) :
  NoDup (map fst d) ->
  existsb (fun k' => eqb k' k) (map fst d) = true ->
  dict_set eqb d k v
  = map (fun kv => (fst kv, if eqb (fst kv) k then v else snd kv)) d.
Proof.
  induction d as [| [k' v'] d IH]; cbn [map fst snd existsb dict_set];
    [discriminate |].
  intros Hn H. inversion Hn as [| ? ? Hk' Hd]; subst.
  destruct (eqb k' k) eqn:E.
  - f_equal. apply eqb_spec in E. subst k'.
    rewrite <- (map_id d) at 1. apply map_ext_in. intros [k1 v1] Hin.
    cbn [fst snd]. destruct (eqb k1 k) eqn:E1; [| reflexivity].
    apply eqb_spec in E1. subst k1. exfalso. apply Hk'.
    apply (in_map fst) in Hin. exact Hin.
  - cbn [orb] in H. rewrite (IH Hd H). reflexivity.
Qed.

Lemma existsb_key (k : K) (l : list K) :
  existsb (fun k' => eqb k' k) l = true <-> In k l.
Proof.
  rewrite existsb_exists. split.
  - intros (x & Hx & E). apply eqb_spec in E. subst. exact Hx.
  - intros H. exists k. split; [exact H |]. apply eqb_spec. reflexivity.
Qed.

Lemma dict_get_absent (d : dict K V) (k : K) :
  ~ In k (map fst d) -> dict_get eqb d k = None.
Proof.
  intros H. apply dict_get_none. destruct (existsb _ _) eqn:E; [| reflexivity].
  apply existsb_key in E. contradiction.
Qed.

Lemma dict_update_split (u : dict K V) :
  NoDup (map fst u) ->
  forall d, NoDup (map fst d) ->
  dict_update eqb d u
  = map (fun kv => (fst kv, match dict_get eqb u (fst kv) with
                            | Some v => v
                            | None => snd kv
                            end)) d
    ++ filter (fun kv => negb (existsb (fun k' => eqb k' (fst kv)) (map fst d)))
         u.
Proof.
  induction u as [| [k v] u IH]; intros Hu d Hd.
  - cbn [dict_update fold_left dict_get filter]. rewrite app_nil_r.
    rewrite <- (map_id d) at 1. apply map_ext. intros [? ?]. reflexivity.
  - cbn [map fst] in Hu. inversion Hu as [| ? ? Hk Hu']; subst.
    change (dict_update eqb d ((k, v) :: u))
      with (dict_update eqb (dict_set eqb d k v) u).
    rewrite (IH Hu' _ (dict_set_nodup eqb eqb_spec d k v Hd)).
    cbn [filter fst]. destruct (existsb (fun k' => eqb k' k) (map fst d)) eqn:E.
    + cbn [negb]. rewrite (dict_set_keys eqb d k v), E.
      rewrite (dict_set_old d k v Hd E), map_map. cbn [fst snd]. f_equal.
      apply map_ext. intros [k1 v1]. cbn [fst snd dict_get].
      destruct (eqb k1 k) eqn:E1.
      * apply eqb_spec in E1. subst k1.
        rewrite (dict_get_absent u k Hk).
        rewrite (proj2 (eqb_spec k k) eq_refl). reflexivity.
      * destruct (eqb k k1) eqn:E2; [| reflexivity].
        apply eqb_spec in E2. subst k1.
        rewrite (proj2 (eqb_spec k k) eq_refl) in E1. discriminate.
    + cbn [negb]. rewrite (dict_set_new d k v E), map_app, <- app_assoc.
      cbn [map fst snd app]. rewrite (dict_get_absent u k Hk). f_equal.
      * apply map_ext_in. intros [k1 v1] Hin. cbn [fst snd dict_get].
        destruct (eqb k k1) eqn:E1; [| reflexivity].
        apply eqb_spec in E1. subst k1. apply (in_map fst) in Hin.
        apply existsb_key in Hin. cbn [fst] in Hin. congruence.
      * f_equal. apply filter_ext_in. intros [k1 v1] Hin. cbn [fst].
        rewrite map_app, existsb_app. cbn [map fst existsb].
        destruct (eqb k k1) eqn:E1; [| rewrite !orb_false_r; reflexivity].
        apply eqb_spec in E1. subst k1. exfalso. apply Hk.
        apply (in_map fst) in Hin. exact Hin.
Qed.

Lemma dict_update_nodup (u d : dict K V) :
  NoDup (map fst d) -> NoDup (map fst (dict_update eqb d u)).
Proof.
  revert d. induction u as [| [k v] u IH]; intros d Hd; [exact Hd |].
  apply IH. apply (dict_set_nodup eqb eqb_spec). exact Hd.
Qed.

Lemma fill_keys (ks : list K) (v : V) :
  forall d, NoDup (map fst d ++ ks) ->
  fold_left (fun acc k => dict_set eqb acc k v) ks d
  = d ++ map (fun k => (k, v)) ks.
Proof.
  induction ks as [| k ks IH]; intros d H; cbn [fold_left map].
  - rewrite app_nil_r. reflexivity.
  - rewrite dict_set_new.
    + rewrite IH.
      * rewrite <- app_assoc. reflexivity.
      * rewrite map_app, <- app_assoc. exact H.
    + destruct (existsb _ _) eqn:E; [| reflexivity].
      apply existsb_key in E. apply NoDup_remove_2 in H.
      exfalso. apply H. apply in_or_app. left. exact E.
Qed.
End DictUpdateFacts.

(** ** Order of the date keys *)

Lemma string_compare_refl (s : string) : String.compare s s = Eq.
Proof.
  induction s as [| c s IH]; cbn [String.compare]; [reflexivity |].
  unfold Ascii.compare. rewrite N.compare_refl. exact IH.
Qed.

Lemma string_compare_prefix (p a b : string) :
  String.compare (p ++ a) (p ++ b) = String.compare a b.
Proof.
  induction p as [| c p IH]; cbn [String.append String.compare];
    [reflexivity |].
  unfold Ascii.compare. rewrite N.compare_refl. exact IH.
Qed.


Lemma string_ltb_neq (a b : string) : String.ltb a b = true -> a <> b.
Proof.
  unfold String.ltb. intros H ->. rewrite string_compare_refl in H.
  discriminate.
Qed.

Lemma ascending_prefix (p : string) (l : list string) :
  ascending (map (String.append p) l) = ascending l.
Proof.
  induction l as [| x l IH]; cbn [map ascending]; [reflexivity |].
  rewrite IH. f_equal. clear IH.
  induction l as [| z l IH]; cbn [map forallb]; [reflexivity |].
  rewrite IH. f_equal. unfold String.ltb.
  rewrite string_compare_prefix. reflexivity.
Qed.


Lemma ascending_nodup (l : list string) : ascending l = true -> NoDup l.
Proof.
  induction l as [| x l IH]; cbn [ascending]; intros H; [constructor |].
  apply andb_true_iff in H as [H1 H2]. constructor; [| exact (IH H2)].
  intros Hin. rewrite forallb_forall in H1.
  exact (string_ltb_neq _ _ (H1 _ Hin) eq_refl).
Qed.

Lemma calendar_keys_months (y : Z) :
  calendar_keys y
  = map (String.append (str_of_int y))
      (map (String.append "-") (month_days (isleap y))).
Proof.
  unfold calendar_keys, month_days, days_in_month, date_key_of.
  rewrite map_map, !flat_map_concat_map, concat_map, map_map.
  f_equal. apply map_ext. intros m. rewrite map_map. reflexivity.
Qed.

Lemma month_days_ascending (leap : bool) : ascending (month_days leap) = true.
Proof. destruct leap; vm_compute; reflexivity. Qed.

Lemma month_days_length (leap : bool) :
  List.length (month_days leap) = if leap then 366 else 365.
Proof. destruct leap; vm_compute; reflexivity. Qed.

Lemma calendar_keys_ascending (y : Z) : ascending (calendar_keys y) = true.
Proof.
  rewrite calendar_keys_months, !ascending_prefix. apply month_days_ascending.
Qed.

Lemma calendar_keys_length (y : Z) :
  List.length (calendar_keys y) = year_length y.
Proof.
  rewrite calendar_keys_months, !length_map. apply month_days_length.
Qed.

Lemma zero_days_calendar (y : Z) :
  zero_days y = map (fun k => (k, 0)) (calendar_keys y).
Proof.
  unfold zero_days.
  rewrite (fill_keys String.eqb String.eqb_eq (calendar_keys y) 0 []);
    [reflexivity |].
  apply ascending_nodup, calendar_keys_ascending.
Qed.

(** ** A sorted list is left as it is *)



(** ** The keys of [by_date] *)

Lemma day_of_inv (c : Conversation) (k : string) :
  day_of c = Some k ->
  exists dt,
    fromtimestamp (create_time c) = Ok dt /\ k = strftime_ymd dt /\
    civil_of c = (year dt, month dt, day dt) /\
    (1 <= year dt <= 9999)%Z /\ (1 <= month dt <= 12)%Z /\
    (1 <= day dt <= days_in_month (year dt) (month dt))%Z.
Proof.
  unfold day_of. destruct (fromtimestamp (create_time c)) as [dt | e] eqn:E;
    [| discriminate].
  intros H. exists dt. split; [reflexivity |]. split; [congruence |].
  unfold fromtimestamp in E. unfold civil_of, time_of.
  destruct (number (create_time c)) as [t |];
    [| destruct (create_time c); discriminate E].
  split; [exact (utc_of_number_civil _ _ E) |].
  exact (utc_of_number_valid _ _ E).
Qed.

Lemma year_of_key_strftime (dt : datetime) :
  year_padded = true \/ (1000 <= year dt)%Z ->
  (1 <= year dt <= 9999)%Z -> (1 <= month dt <= 12)%Z ->
  (1 <= day dt <= days_in_month (year dt) (month dt))%Z ->
  year_of_key (strftime_ymd dt) = Some (year dt).
Proof.
  intros W Hy Hm Hd. unfold year_of_key.
  rewrite (fromisoformat_strftime dt W Hy Hm Hd). reflexivity.
Qed.

Lemma wide_in (st : service) (c : Conversation) :
  wide st -> In c (conversations st) ->
  year_padded = true \/ (1000 <= year_of c)%Z.
Proof.
  intros [W | W] Hc; [left; exact W | right].
  rewrite Forall_forall in W. exact (W c Hc).
Qed.

Lemma in_year_key (y : Z) (c : Conversation) (k : string) :
  year_padded = true \/ (1000 <= year_of c)%Z ->
  day_of c = Some k -> in_year y c = key_in_year y k /\ year_of_key k <> None.
Proof.
  intros W H. apply day_of_inv in H as (dt & E & -> & Hc & Hy & Hm & Hd).
  unfold in_year, key_in_year, year_of in *. rewrite Hc in *. cbn [fst] in *.
  rewrite (year_of_key_strftime dt W Hy Hm Hd).
  split; [reflexivity | discriminate].
Qed.

Lemma loaded_bucket (st : service) (k : string) (convs : list Conversation) :
  loaded st -> In (k, convs) (by_date st) ->
  convs = filter (on_day k) (conversations st).
Proof.
  intros L Hin.
  rewrite <- (loaded_buckets L k). unfold dict_get_default.
  rewrite (dict_get_in String.eqb String.eqb_eq _ _ _ (loaded_nodup L) Hin).
  reflexivity.
Qed.

Lemma loaded_key_parses (st : service) (k : string)
    (convs : list Conversation) :
  loaded st -> wide st -> In (k, convs) (by_date st) ->
  year_of_key k <> None.
Proof.
  intros L W Hin.
  pose proof (loaded_days L) as Hd. rewrite Forall_forall in Hd.
  destruct (Hd _ Hin) as (c & Hc & Hk). cbn [fst snd] in Hc, Hk.
  rewrite (loaded_bucket st k convs L Hin) in Hc.
  apply filter_In in Hc as [Hc _].
  exact (proj2 (in_year_key 0 c k (wide_in st c W Hc) Hk)).
Qed.

Lemma loaded_key_present (st : service) (c : Conversation) (k : string) :
  loaded st -> In c (conversations st) -> day_of c = Some k ->
  In k (map fst (by_date st)).
Proof.
  intros L Hc Hk.
  assert (Hin : In c (filter (on_day k) (conversations st))).
  { apply filter_In. split; [exact Hc |]. apply on_day_iff. exact Hk. }
  rewrite <- (loaded_buckets L k) in Hin. unfold dict_get_default in Hin.
  destruct (dict_get String.eqb (by_date st) k) as [v |] eqn:E; [| destruct Hin].
  apply (dict_get_some_in String.eqb String.eqb_eq) in E.
  apply (in_map fst) in E. exact E.
Qed.

(** ** The fill loop *)

Lemma fill_counts_update (y : Z) (buckets : dict string (list Conversation)) :
  Forall (fun kv => year_of_key (fst kv) <> None) buckets ->
  forall d, fill_counts y buckets d
            = Ok (dict_update String.eqb d (year_counts y buckets)).
Proof.
  induction 1 as [| [k convs] buckets Hk _ IH]; intros d; [reflexivity |].
  cbn [fill_counts]. cbn [fst] in Hk. unfold year_counts. cbn [filter fst].
  unfold key_in_year at 1. unfold year_of_key in *.
  destruct (fromisoformat k) as [dt | e]; [| congruence]. cbn [bind].
  rewrite IH. destruct (year dt =? y)%Z; reflexivity.
Qed.

Lemma by_date_keys_parse (st : service) :
  loaded st -> wide st ->
  Forall (fun kv => year_of_key (fst kv) <> None) (by_date st).
Proof.
  intros L W. apply Forall_forall. intros [k convs] Hin.
  exact (loaded_key_parses st k convs L W Hin).
Qed.

Lemma get_contribution_shape (st : service) (y : Z) :
  loaded st -> wide st ->
  get_contribution st y
  = Ok (let all_days :=
          dict_update String.eqb (zero_days y) (year_counts y (by_date st)) in
        mkContribution y (sort_on String.leb fst all_days)
          (max_nat (map snd all_days)) (sum_nat (map snd all_days))).
Proof.
  intros L W. unfold get_contribution.
  rewrite (fill_counts_update y _ (by_date_keys_parse st L W)). cbn [bind].
  rewrite (sorted_by_pure String.leb fst (fun x => Ok (fst x)) _
             (fun x _ => eq_refl)).
  reflexivity.
Qed.

(** ** Sums and maxima *)

Lemma sum_nat_list_sum (l : list nat) : sum_nat l = list_sum l.
Proof.
  assert (G : forall a, fold_left Nat.add l a = a + list_sum l).
  { induction l as [| x l IH]; intros b; cbn [fold_left list_sum fold_right];
      [lia | rewrite IH; unfold list_sum; lia]. }
  unfold sum_nat. rewrite G. reflexivity.
Qed.

Lemma list_sum_perm (l l' : list nat) :
  Permutation l l' -> list_sum l = list_sum l'.
Proof.
  induction 1; cbn [list_sum fold_right] in *; unfold list_sum in *; lia.
Qed.

Lemma fold_max_ge (l : list nat) :
  forall a, a <= fold_left Nat.max l a /\
            forall v, In v l -> v <= fold_left Nat.max l a.
Proof.
  induction l as [| x l IH]; intros a; cbn [fold_left].
  - split; [lia | intros v []].
  - destruct (IH (Nat.max a x)) as [H1 H2]. split; [lia |].
    intros v [<- | Hv]; [lia | exact (H2 v Hv)].
Qed.

Lemma fold_max_in (l : list nat) :
  forall a, In (fold_left Nat.max l a) (a :: l).
Proof.
  induction l as [| x l IH]; intros a; cbn [fold_left]; [left; reflexivity |].
  destruct (IH (Nat.max a x)) as [H | H].
  - destruct (Nat.max_spec a x) as [[_ E] | [_ E]]; rewrite E in *.
    + right. left. exact H.
    + left. exact H.
  - right. right. exact H.
Qed.

Lemma max_nat_ge (l : list nat) (v : nat) : In v l -> v <= max_nat l.
Proof.
  destruct l as [| x l]; [intros [] |]. cbn [max_nat].
  destruct (fold_max_ge l x) as [H1 H2].
  intros [<- | Hv]; [exact H1 | exact (H2 v Hv)].
Qed.

Lemma max_nat_in (l : list nat) : l <> [] -> In (max_nat l) l.
Proof.
  destruct l as [| x l]; [congruence |]. intros _. apply fold_max_in.
Qed.


(** ** The counts written by the fill loop *)

Lemma list_sum_dict_set (d : dict string nat) (k : string) (v : nat) :
  (forall v0, dict_get String.eqb d k = Some v0 -> v0 = 0) ->
  list_sum (map snd (dict_set String.eqb d k v)) = list_sum (map snd d) + v.
Proof.
  induction d as [| [k' v'] d IH]; cbn [dict_get dict_set map snd list_sum fold_right];
    intros H; [lia |].
  destruct (String.eqb k' k).
  - rewrite (H v' eq_refl). cbn [map snd list_sum fold_right]. lia.
  - cbn [map snd list_sum fold_right]. fold (list_sum (map snd (dict_set String.eqb d k v))).
    rewrite (IH H). unfold list_sum. lia.
Qed.

Lemma list_sum_dict_update (u : dict string nat) :
  NoDup (map fst u) ->
  forall d,
    (forall k v0, In k (map fst u) -> dict_get String.eqb d k = Some v0 -> v0 = 0) ->
    list_sum (map snd (dict_update String.eqb d u))
    = list_sum (map snd d) + list_sum (map snd u).
Proof.
  induction u as [| [k v] u IH]; intros Hu d Hd.
  - change (dict_update String.eqb d []) with d.
    change (list_sum (map snd (@nil (string * nat)))) with 0. lia.
  - cbn [map fst] in Hu. inversion Hu as [| ? ? Hk Hu']; subst.
    change (dict_update String.eqb d ((k, v) :: u))
      with (dict_update String.eqb (dict_set String.eqb d k v) u).
    rewrite (IH Hu').
    + rewrite list_sum_dict_set.
      * cbn [map snd list_sum fold_right]. unfold list_sum. lia.
      * intros v0. apply Hd. left. reflexivity.
    + intros k' v0 Hk'. rewrite (dict_get_set String.eqb String.eqb_eq).
      destruct (String.eqb k k') eqn:E.
      * apply String.eqb_eq in E. subst k'. contradiction.
      * apply Hd. right. exact Hk'.
Qed.

Lemma nodup_keys_filter {V : Type} (p : string * V -> bool) (d : dict string V) :
  NoDup (map fst d) -> NoDup (map fst (filter p d)).
Proof.
  induction d as [| kv d IH]; cbn [map filter]; intros H; [constructor |].
  inversion H as [| ? ? Hk Hd]; subst.
  destruct (p kv); [| exact (IH Hd)]. cbn [map]. constructor; [| exact (IH Hd)].
  intros Hin. apply Hk. apply in_map_iff in Hin as (x & Ex & Hx).
  apply filter_In in Hx as [Hx _]. rewrite <- Ex. apply in_map. exact Hx.
Qed.

Lemma year_counts_keys (y : Z) (b : dict string (list Conversation)) :
  map fst (year_counts y b)
  = map fst (filter (fun kv => key_in_year y (fst kv)) b).
Proof. unfold year_counts. rewrite map_map. reflexivity. Qed.

Lemma year_counts_nodup (y : Z) (b : dict string (list Conversation)) :
  NoDup (map fst b) -> NoDup (map fst (year_counts y b)).
Proof. intros H. rewrite year_counts_keys. apply nodup_keys_filter. exact H. Qed.

Lemma filter_or_length {A : Type} (p q : A -> bool) (l : list A) :
  (forall x, In x l -> p x = true -> q x = false) ->
  List.length (filter p l) + List.length (filter q l)
  = List.length (filter (fun x => p x || q x) l).
Proof.
  induction l as [| x l IH]; intros H; [reflexivity |]. cbn [filter].
  assert (IH' := IH (fun z Hz => H z (or_intror Hz))).
  pose proof (H x (or_introl eq_refl)) as Hx.
  destruct (p x); cbn [orb].
  - rewrite (Hx eq_refl). cbn [List.length]. lia.
  - destruct (q x); cbn [List.length]; lia.
Qed.

Lemma count_partition (l : list Conversation) (ks : list string) :
  NoDup ks ->
  list_sum (map (fun k => List.length (filter (on_day k) l)) ks)
  = List.length (filter (fun c => existsb (fun k => on_day k c) ks) l).
Proof.
  induction 1 as [| k ks Hk Hn IH]; cbn [map list_sum fold_right existsb].
  - induction l as [| c l IHl]; [reflexivity | exact IHl].
  - fold (list_sum (map (fun k => List.length (filter (on_day k) l)) ks)).
    rewrite IH. apply filter_or_length. intros c _ Hc.
    destruct (existsb (fun k0 => on_day k0 c) ks) eqn:E; [| reflexivity].
    apply existsb_exists in E as (k' & Hk' & Hc').
    apply on_day_iff in Hc, Hc'. exfalso. apply Hk. congruence.
Qed.

Lemma year_counts_sum (st : service) (y : Z) :
  loaded st -> wide st ->
  list_sum (map snd (year_counts y (by_date st)))
  = List.length (filter (in_year y) (conversations st)).
Proof.
  intros L W. unfold year_counts. rewrite map_map. cbn [snd].
  set (b := filter (fun kv => key_in_year y (fst kv)) (by_date st)).
  assert (Hb : forall kv, In kv b -> In kv (by_date st) /\ key_in_year y (fst kv) = true).
  { intros kv Hkv. apply filter_In in Hkv. exact Hkv. }
  rewrite (map_ext_in _ (fun kv => List.length (filter (on_day (fst kv)) (conversations st)))).
  2:{ intros [k convs] Hkv. destruct (Hb _ Hkv) as [Hin _].
      cbn [fst snd]. rewrite <- (loaded_bucket st k convs L Hin). reflexivity. }
  rewrite <- (map_map fst (fun k => List.length (filter (on_day k) (conversations st)))).
  rewrite count_partition by (apply nodup_keys_filter, (loaded_nodup L)).
  f_equal. apply filter_ext_in. intros c Hc.
  pose proof (loaded_dated L) as Hd. rewrite Forall_forall in Hd.
  specialize (Hd c Hc). destruct (day_of c) as [kc |] eqn:Ek; [| congruence].
  rewrite (proj1 (in_year_key y c kc (wide_in st c W Hc) Ek)).
  destruct (key_in_year y kc) eqn:Ey.
  - apply existsb_exists. exists kc. split; [| apply on_day_iff; exact Ek].
    pose proof (loaded_key_present st c kc L Hc Ek) as Hin.
    apply in_map_iff in Hin as ([k convs] & Ekc & Hin). cbn [fst] in Ekc. subst k.
    apply in_map_iff. exists (kc, convs). split; [reflexivity |].
    apply filter_In. split; [exact Hin | exact Ey].
  - destruct (existsb _ _) eqn:E; [| reflexivity].
    apply existsb_exists in E as (k & Hk & Hkc). apply on_day_iff in Hkc.
    assert (k = kc) by congruence. subst k.
    apply in_map_iff in Hk as (kv & Ekv & Hkv). destruct (Hb _ Hkv) as [_ Hy].
    rewrite Ekv in Hy. congruence.
Qed.

Lemma string_leb_trans (a b c : string) :
  String.leb a b = true -> String.leb b c = true -> String.leb a c = true.
Proof.
  unfold String.leb. revert b c.
  induction a as [| x a IH]; intros [| y b] [| z c]; cbn [String.compare];
    try (intros; reflexivity || discriminate).
  destruct (Ascii.compare x y) eqn:Exy; [| | discriminate].
  - apply Ascii.compare_eq_iff in Exy. subst y.
    destruct (Ascii.compare x z); [apply IH | reflexivity | discriminate].
  - intros _. destruct (Ascii.compare y z) eqn:Eyz; [| | discriminate].
    + apply Ascii.compare_eq_iff in Eyz. subst z. rewrite Exy. reflexivity.
    + unfold Ascii.compare in *. rewrite N.compare_lt_iff in Exy, Eyz.
      rewrite (proj2 (N.compare_lt_iff _ _) (N.lt_trans _ _ _ Exy Eyz)).
      reflexivity.
Qed.

(** ** The contribution calendar *)

Lemma zero_days_get (y : Z) (k : string) (v0 : nat) :
  dict_get String.eqb (zero_days y) k = Some v0 -> v0 = 0.
Proof.
  intros H. apply (dict_get_some_in String.eqb String.eqb_eq) in H.
  rewrite zero_days_calendar in H. apply in_map_iff in H as (k' & E & _).
  congruence.
Qed.

Lemma zero_days_sum (y : Z) : list_sum (map snd (zero_days y)) = 0.
Proof.
  rewrite zero_days_calendar, map_map. cbn [snd].
  induction (calendar_keys y) as [| k ks IH]; [reflexivity | exact IH].
Qed.

Lemma zero_days_keys (y : Z) : map fst (zero_days y) = calendar_keys y.
Proof. rewrite zero_days_calendar, map_map. cbn [fst]. apply map_id. Qed.

Lemma calendar_keys_nonempty (y : Z) : calendar_keys y <> [].
Proof.
  intros E. pose proof (calendar_keys_length y) as H. rewrite E in H.
  unfold year_length in H. destruct (isleap y); discriminate H.
Qed.

Lemma contribution_totals (st : service) (y : Z) :
  loaded st -> wide st ->
  exists r,
    get_contribution st y = Ok r /\
    contribution_year r = y /\
    total r = List.length (filter (in_year y) (conversations st)) /\
    total r = list_sum (map snd (days r)) /\
    Forall (fun e => snd e <= max_count r) (days r) /\
    In (max_count r) (map snd (days r)) /\
    incl (calendar_keys y) (map fst (days r)) /\
    NoDup (map fst (days r)) /\
    StronglySorted (fun a b => String.leb (fst a) (fst b) = true) (days r).
Proof.
  intros L W.
  rewrite (get_contribution_shape st y L W). cbv zeta.
  set (all_days := dict_update String.eqb (zero_days y)
                     (year_counts y (by_date st))).
  eexists. split; [reflexivity |]. cbn [contribution_year total days max_count].
  pose proof (sort_on_perm String.leb fst all_days) as P.
  assert (Hsum : list_sum (map snd all_days)
                 = List.length (filter (in_year y) (conversations st))).
  { unfold all_days. rewrite list_sum_dict_update.
    - rewrite zero_days_sum, (year_counts_sum st y L W). reflexivity.
    - apply year_counts_nodup, (loaded_nodup L).
    - intros k v0 _. apply zero_days_get. }
  assert (Hkeys : NoDup (map fst all_days)).
  { apply (dict_update_nodup String.eqb String.eqb_eq).
    rewrite zero_days_keys. apply ascending_nodup, calendar_keys_ascending. }
  assert (Hcal : incl (calendar_keys y) (map fst all_days)).
  { unfold all_days.
    rewrite (dict_update_split String.eqb String.eqb_eq _
               (year_counts_nodup y _ (loaded_nodup L)) (zero_days y)).
    - rewrite map_app, map_map. cbn [fst]. rewrite <- zero_days_keys.
      intros k Hk. apply in_or_app. left. exact Hk.
    - rewrite zero_days_keys. apply ascending_nodup, calendar_keys_ascending. }
  split; [reflexivity |]. rewrite sum_nat_list_sum.
  split; [exact Hsum |].
  split. { apply list_sum_perm, Permutation_map, Permutation_sym, P. }
  split.
  { apply (Permutation_Forall (Permutation_sym P)). apply Forall_forall.
    intros e He. apply max_nat_ge. apply in_map. exact He. }
  split.
  { apply (Permutation_in _ (Permutation_map snd (Permutation_sym P))).
    apply max_nat_in. intros E.
    destruct (calendar_keys y) as [| k ks] eqn:Ek;
      [exact (calendar_keys_nonempty y Ek) |].
    pose proof (Hcal k (or_introl eq_refl)) as Hin.
    apply in_map_iff in Hin as (e & _ & He).
    apply (in_map snd) in He. rewrite E in He. destruct He. }
  split.
  { intros k Hk.
    apply (Permutation_in _ (Permutation_map fst (Permutation_sym P))).
    exact (Hcal k Hk). }
  split.
  { apply (Permutation_NoDup (Permutation_map fst (Permutation_sym P))).
    exact Hkeys. }
  apply (sort_on_sorted String.leb String.leb_total string_leb_trans fst).
Qed.

(** For every year, on a store reached by ingest whose keys are written
    with four digits, the contribution is returned: its total is the
    number of conversations dated in that year and the sum of the counts
    listed, its maximum is the largest count listed and is one of them,
    every key of the calendar of the year is listed, no key is listed
    twice, and the entries are in ascending order of their keys. *)
Theorem contribution_totals_for_every_year
    (data : list json) (st : service) (y : Z) :
  _load_data data = Ok st -> wide st ->
  exists r,
    get_contribution st y = Ok r /\
    contribution_year r = y /\
    total r = List.length (filter (in_year y) (conversations st)) /\
    total r = list_sum (map snd (days r)) /\
    Forall (fun e => snd e <= max_count r) (days r) /\
    In (max_count r) (map snd (days r)) /\
    incl (calendar_keys y) (map fst (days r)) /\
    NoDup (map fst (days r)) /\
    StronglySorted (fun a b => String.leb (fst a) (fst b) = true) (days r).
Proof.
  intros Hload W. apply contribution_totals; [| exact W].
  exact (load_data_loaded data Hload).
Qed.

(** ** Years of four digits *)











Lemma ok_inj {A : Type} (a b : A) : Ok a = Ok b -> a = b.
Proof. intros H. injection H as H. exact H. Qed.








End Platform.

(** * The service on sample data

    The platform of the examples prints years without padding (glibc);
    where a statement is refuted it is refuted on both platforms. *)

Close Scope Z_scope.



Lemma C4_witness :
  field "create_time" JNull
    [("id", JStr "c2"); ("title", JStr "No date")]%string = JNull /\
  ingest false example_service undated_record = Ok example_service /\
  ingest_all false example_service ([example_record] ++ undated_record :: [])
  = ingest_all false example_service ([example_record] ++ []).
Proof.
  split; [reflexivity |].
  apply (@C4_record_without_create_time_skipped false
           [("id", JStr "c2"); ("title", JStr "No date")]%string
           example_service [example_record] []).
  reflexivity.
Defined.

Lemma C5_witness :
  _load_data false week_records = Ok week_service /\
  exists l,
    convs_sorted week_service "2023-11-14" = Ok l /\
    l = sort_on Qle_bool (fun c => (- time_of c)%Q)
          (filter (falls_on false "2023-11-14") (conversations week_service)) /\
    Permutation l
      (filter (falls_on false "2023-11-14") (conversations week_service)) /\
    StronglySorted (fun a b => (time_of b <= time_of a)%Q) l /\
    (forall c, In c l <-> In c (conversations week_service) /\
               date_key false (day_number (micros (time_of c)))
               = "2023-11-14"%string) /\
    (forall c, In c (conversations week_service) ->
               number (create_time c) = Some (time_of c) /\
               (Qabs (inject_Z (micros (time_of c))
                      - time_of c * inject_Z 1000000) <= 1)%Q) /\
    ((forall c, In c (conversations week_service) ->
                date_key false (day_number (micros (time_of c)))
                <> "2023-11-14"%string) -> l = []).
Proof.
  assert (H : _load_data false week_records = Ok week_service)
    by (vm_compute; reflexivity).
  split; [exact H |].
  exact (@C5_by_date_newest_first false week_records week_service
           "2023-11-14" H).
Defined.

(** C5 as stated fails, on both platforms: a conversation created a
    quarter of a microsecond before the midnight that begins 2023-11-15
    falls on 2023-11-14, and it is listed under 2023-11-15 and not under
    2023-11-14, because [datetime.fromtimestamp] rounds to the
    microsecond. *)
Lemma C5_counterexample :
  (~ forall data st d,
       _load_data false data = Ok st ->
       exists l,
         convs_sorted st d = Ok l /\
         forall c, In c l <->
                   In c (conversations st) /\
                   date_key false (exact_day_number (time_of c)) = d) /\
  (~ forall data st d,
       _load_data true data = Ok st ->
       exists l,
         convs_sorted st d = Ok l /\
         forall c, In c l <->
                   In c (conversations st) /\
                   date_key true (exact_day_number (time_of c)) = d).
Proof.
  split; intros H.
  - assert (E : _load_data false [late_record] = Ok late_service)
      by (vm_compute; reflexivity).
    destruct (H _ _ "2023-11-14"%string E) as (l & Hl & Hin).
    vm_compute in Hl. apply ok_inj in Hl. subst l.
    apply (proj2 (Hin (dated_conversation "late" (JFloat late_time)))).
    split; [left; reflexivity | vm_compute; reflexivity].
  - assert (E : _load_data true [late_record] = Ok late_service)
      by (vm_compute; reflexivity).
    destruct (H _ _ "2023-11-14"%string E) as (l & Hl & Hin).
    vm_compute in Hl. apply ok_inj in Hl. subst l.
    apply (proj2 (Hin (dated_conversation "late" (JFloat late_time)))).
    split; [left; reflexivity | vm_compute; reflexivity].
Qed.







Lemma load_data_keeps_dated_records_in_order_witness :
  _load_data false [example_record; undated_record; example_record]
  = Ok twice_service /\
  conversations twice_service
  = dated [example_record; undated_record; example_record] /\
  forall r, get_stats false twice_service = Ok r ->
            totalConversations r
            = List.length (dated [example_record; undated_record;
                                  example_record]).
Proof.
  assert (H : _load_data false [example_record; undated_record; example_record]
              = Ok twice_service) by (vm_compute; reflexivity).
  split; [exact H |].
  exact (@load_data_keeps_dated_records_in_order false _ _ H).
Defined.

Lemma by_id_holds_latest_conversation_witness :
  _load_data false [example_record; example_record] = Ok twice_service /\
  dict_get key_eqb (by_id twice_service) (JStr "c1")
  = latest (JStr "c1") (dated [example_record; example_record]).
Proof.
  assert (H : _load_data false [example_record; example_record]
              = Ok twice_service)
    by (vm_compute; reflexivity).
  split; [exact H |].
  exact (@by_id_holds_latest_conversation false _ _ (JStr "c1") H).
Defined.

Lemma get_conversation_describes_latest_witness :
  _load_data false [example_record] = Ok example_service /\
  (latest (JStr "c1") (dated [example_record]) = None ->
   get_conversation no_str example_service "c1" = Ok None) /\
  (forall r, get_conversation no_str example_service "c1" = Ok (Some r) ->
     exists c,
       latest (JStr "c1") (dated [example_record]) = Some c /\
       detail_id r = id c /\
       _linearize_messages no_str (mapping c) = Ok (messages r) /\
       truthy (detail_title r) = true /\
       (update_time c = create_time c ->
        detail_updateTime r = detail_createTime r)).
Proof.
  assert (H : _load_data false [example_record] = Ok example_service)
    by (vm_compute; reflexivity).
  split; [exact H |].
  exact (@get_conversation_describes_latest false no_str _ _ "c1"%string H).
Defined.

Lemma get_conversation_fails_on_bad_update_time_witness :
  _load_data false [null_update_record]
  = Ok (mkService [conversation_of
                     [("id", JStr "c3"); ("create_time", JInt 1700000000);
                      ("update_time", JNull)]%string]
          [("2023-11-14"%string,
            [conversation_of
               [("id", JStr "c3"); ("create_time", JInt 1700000000);
                ("update_time", JNull)]%string])]
          [(JStr "c3",
            conversation_of
              [("id", JStr "c3"); ("create_time", JInt 1700000000);
               ("update_time", JNull)]%string)]) /\
  is_ok (get_conversation no_str
           (mkService [conversation_of
                     [("id", JStr "c3"); ("create_time", JInt 1700000000);
                      ("update_time", JNull)]%string]
          [("2023-11-14"%string,
            [conversation_of
               [("id", JStr "c3"); ("create_time", JInt 1700000000);
                ("update_time", JNull)]%string])]
          [(JStr "c3",
            conversation_of
              [("id", JStr "c3"); ("create_time", JInt 1700000000);
               ("update_time", JNull)]%string)]) "c3") = false.
Proof.
  match goal with |- ?A /\ _ => assert (H : A) by (vm_compute; reflexivity) end.
  split; [exact H |].
  apply (@get_conversation_fails_on_bad_update_time false no_str _ _
           "c3"%string
           (conversation_of
              [("id", JStr "c3"); ("create_time", JInt 1700000000);
               ("update_time", JNull)]%string) H);
    reflexivity.
Defined.

Lemma top_models_rank_model_frequencies_witness :
  get_stats false models_service = Ok models_stats /\
  exists ranked,
    topModels models_stats = firstn 10 ranked /\
    Permutation ranked
      (model_table (model_values (conversations models_service))) /\
    StronglySorted (fun a b => (snd b <= snd a)%nat) ranked /\
    (forall n,
       filter (fun e => Nat.eqb (snd e) n) ranked
       = filter (fun e => Nat.eqb (snd e) n)
           (model_table (model_values (conversations models_service)))) /\
    (List.length (topModels models_stats) <= 10)%nat /\
    Forall (fun e =>
              truthy (fst e) = true /\
              snd e = frequency (fst e)
                        (model_values (conversations models_service)) /\
              (1 <= snd e)%nat)
      (topModels models_stats).
Proof.
  assert (H : get_stats false models_service = Ok models_stats)
    by (vm_compute; reflexivity).
  split; [exact H |].
  exact (@top_models_rank_model_frequencies false models_service
           models_stats H).
Defined.

Lemma get_stats_date_range_spans_corpus_witness :
  get_stats false week_service = Ok week_stats /\
  (conversations week_service = [] ->
   week_stats = mkStats 0 0 (""%string, ""%string) []) /\
  (conversations week_service <> [] ->
   exists cmin cmax,
     In cmin (conversations week_service) /\
     In cmax (conversations week_service) /\
     (forall c, In c (conversations week_service) ->
                (time_of cmin <= time_of c)%Q /\ (time_of c <= time_of cmax)%Q) /\
     day_of false cmin = Some (fst (dateRange week_stats)) /\
     day_of false cmax = Some (snd (dateRange week_stats))).
Proof.
  assert (H : get_stats false week_service = Ok week_stats)
    by (vm_compute; reflexivity).
  split; [exact H |].
  exact (@get_stats_date_range_spans_corpus false week_service week_stats H).
Defined.

Lemma get_stats_returns_on_readable_store_witness :
  _load_data false tally_records = Ok tally_service /\
  forallb stats_ready (conversations tally_service) = true /\
  exists r counts,
    get_stats false tally_service = Ok r /\
    totalConversations r = List.length (dated tally_records) /\
    mapM (fun c => message_count (mapping c)) (conversations tally_service)
    = Ok counts /\
    totalMessages r = list_sum counts.
Proof.
  assert (H : _load_data false tally_records = Ok tally_service)
    by (vm_compute; reflexivity).
  assert (R : forallb stats_ready (conversations tally_service) = true)
    by reflexivity.
  split; [exact H |]. split; [exact R |].
  exact (@get_stats_returns_on_readable_store false tally_records
           tally_service H R).
Defined.

Lemma listing_summarizes_each_conversation_of_the_day_witness :
  _load_data false [example_record] = Ok example_service /\
  exists r,
    get_conversations_by_date example_service "2023-11-14" = Ok r /\
    date r = "2023-11-14"%string /\
    Forall2 (fun c s =>
               summary_id s = id c /\ summary_model s = model c /\
               truthy (summary_title s) = true /\
               message_count (mapping c) = Ok (messageCount s) /\
               day_of false c <> None)
      (sort_on Qle_bool (fun c => (- time_of c)%Q)
         (filter (on_day false "2023-11-14") (conversations example_service)))
      (listed r).
Proof.
  assert (H : _load_data false [example_record] = Ok example_service)
    by (vm_compute; reflexivity).
  split; [exact H |].
  apply (@listing_summarizes_each_conversation_of_the_day false
           [example_record] example_service "2023-11-14" H).
  intros c [<- | []] _. reflexivity.
Defined.

Lemma contribution_totals_for_every_year_witness :
  _load_data true [old_record] = Ok (old_service "0987-08-25") /\
  wide true (old_service "0987-08-25") /\
  exists r,
    get_contribution (old_service "0987-08-25") 987 = Ok r /\
    contribution_year r = 987%Z /\
    total r = List.length (filter (in_year 987)
                             (conversations (old_service "0987-08-25"))) /\
    total r = list_sum (map snd (days r)) /\
    Forall (fun e => snd e <= max_count r) (days r) /\
    In (max_count r) (map snd (days r)) /\
    incl (calendar_keys 987) (map fst (days r)) /\
    NoDup (map fst (days r)) /\
    StronglySorted (fun a b => String.leb (fst a) (fst b) = true) (days r).
Proof.
  assert (H : _load_data true [old_record] = Ok (old_service "0987-08-25"))
    by (vm_compute; reflexivity).
  assert (W : wide true (old_service "0987-08-25")) by (left; reflexivity).
  split; [exact H |]. split; [exact W |].
  exact (@contribution_totals_for_every_year true [old_record]
           (old_service "0987-08-25") 987 H W).
Defined.
